(** * better-rental-data: the listing importer and the category classifier

    A shallow embedding of [import-listings.ts] (field extraction, the
    deterministic categorizer, the create/update reconciliation against the
    Prisma store, the search for the files of a run and the run over all
    of them) and of [categorize-listings.ts] (the prompt, parsing and
    validation of the classifier's reply, the batch loop that writes
    categories back), followed by the properties of the design
    specification that concern them and by further properties of the code.

    Conventions of the embedding.
    - A JavaScript string is a [string]: a sequence of code units below 256,
      read as Latin-1.  Case mapping, white space and line terminators are
      those of ECMAScript restricted to that range.
    - A JavaScript number that carries a price is a binary64 value, a
      [spec_float] with precision 53 and maximal exponent 1024; bedroom and
      bathroom counts, which the source obtains from [parseInt] on a run of
      digits or from a structured field, are integers ([Z]).
    - [undefined], [null] and a missing property are all [None]; optional
      chaining [a?.b?.c] is a flat optional field.
    - The Prisma store is a finite map from listing id to record, next to the
      rows of the [PriceHistory] table; exceptions are a sum type. *)

From Stdlib Require Import ZArith NArith Ascii String List Bool Lia SpecFloat.
From Stdlib Require Import DecimalString DecimalPos.
From stdpp Require Import gmap strings list fin_maps.

Local Open Scope Z_scope.

(* ===================================================================== *)
(** * Strings of the host language                                        *)
(* ===================================================================== *)

Module JS.

Definition code (c : ascii) : N := N_of_ascii c.

Definition between (lo hi : N) (c : ascii) : bool :=
  ((lo <=? code c) && (code c <=? hi))%N.

(** Line terminators (LF, CR) and white space (TAB, VT, FF, SP, NBSP and the
    line terminators): the characters removed by [trim] and matched by the
    regular-expression class [\s]. *)
Definition isLineTerminator (c : ascii) : bool :=
  ((code c =? 10) || (code c =? 13))%N.

Definition isWhiteSpace (c : ascii) : bool :=
  between 9 13 c || (code c =? 32)%N || (code c =? 160)%N.

(** The classes [\d] and [.] (any character but a line terminator). *)
Definition isDigit (c : ascii) : bool := between 48 57 c.
Definition isDot (c : ascii) : bool := negb (isLineTerminator c).

Definition lowerChar (c : ascii) : ascii :=
  if between 65 90 c || between 192 214 c || between 216 222 c
  then ascii_of_N (code c + 32) else c.

(** [s.toLowerCase()] *)
Fixpoint toLowerCase (s : string) : string :=
  match s with
  | EmptyString => EmptyString
  | String c s' => String (lowerChar c) (toLowerCase s')
  end.

(** [s.includes(pat)]: [pat] occurs in [s] at some position. *)
Fixpoint includes (s pat : string) : bool :=
  String.prefix pat s ||
  match s with
  | EmptyString => false
  | String _ s' => includes s' pat
  end.

Fixpoint trimStart (s : string) : string :=
  match s with
  | EmptyString => EmptyString
  | String c s' => if isWhiteSpace c then trimStart s' else s
  end.

Fixpoint trimEnd (s : string) : string :=
  match s with
  | EmptyString => EmptyString
  | String c s' =>
      match trimEnd s' with
      | EmptyString => if isWhiteSpace c then EmptyString else String c EmptyString
      | t => String c t
      end
  end.

(** [s.trim()] *)
Definition trim (s : string) : string := trimEnd (trimStart s).

(** [s.split('\n')]: the first piece and the pieces after it; the result is
    never empty (the empty string splits into one empty piece). *)
Fixpoint splitLines_aux (s : string) : string * list string :=
  match s with
  | EmptyString => (EmptyString, [])
  | String c s' =>
      let '(l, ls) := splitLines_aux s' in
      if (code c =? 10)%N then (EmptyString, l :: ls) else (String c l, ls)
  end.

Definition splitLines (s : string) : list string :=
  let '(l, ls) := splitLines_aux s in l :: ls.

(** Truthiness of a string value that may be missing. *)
Definition truthyStr (o : option string) : bool :=
  match o with
  | Some (String _ _) => true
  | _ => false
  end.

(** [a || b] on optional strings: the first truthy operand, else the last. *)
Definition orStr (a : option string) (b : string) : string :=
  match a with
  | Some (String c s) => String c s
  | _ => b
  end.

(** ** Regular expressions

    The patterns of the source are built from greedy repetitions of a
    character class, literals and anchors.  A pattern is embedded as a
    backtracking matcher in continuation-passing style: each combinator
    receives the matcher of the rest of the pattern, tries its longest match
    first and gives characters back one at a time when the rest fails, which
    is the order in which the host's engine explores matches. *)

Section Regex.
Context {A : Type}.

(** [p*] from the current position; the continuation receives the matched
    text and what follows it. *)
Fixpoint re_star_from (p : ascii -> bool) (k : string -> string -> option A)
    (acc s : string) : option A :=
  match s with
  | String c s' =>
      if p c then
        match re_star_from p k (acc +:+ String c EmptyString) s' with
        | Some r => Some r
        | None => k acc s
        end
      else k acc s
  | EmptyString => k acc s
  end.

Definition re_star (p : ascii -> bool) (k : string -> string -> option A)
  : string -> option A := re_star_from p k EmptyString.

(** [p+] *)
Definition re_plus (p : ascii -> bool) (k : string -> string -> option A)
  : string -> option A :=
  re_star p (fun m rest => match m with EmptyString => None | _ => k m rest end).

(** [p{n}] *)
Fixpoint re_count_from (n : nat) (p : ascii -> bool)
    (k : string -> string -> option A) (acc s : string) : option A :=
  match n with
  | O => k acc s
  | S n' =>
      match s with
      | String c s' =>
          if p c then re_count_from n' p k (acc +:+ String c EmptyString) s'
          else None
      | EmptyString => None
      end
  end.

Definition re_count (n : nat) (p : ascii -> bool)
    (k : string -> string -> option A) : string -> option A :=
  re_count_from n p k EmptyString.

(** One literal character. *)
Definition re_char (c : ascii) (k : string -> option A) (s : string) : option A :=
  match s with
  | String c' s' => if Ascii.eqb c c' then k s' else None
  | EmptyString => None
  end.

(** A literal of lower-case letters under the [i] flag. *)
Fixpoint re_lit_ci (lit : string) (k : string -> option A) (s : string) : option A :=
  match lit with
  | EmptyString => k s
  | String l lit' =>
      match s with
      | String c s' => if Ascii.eqb (lowerChar c) l then re_lit_ci lit' k s' else None
      | EmptyString => None
      end
  end.

(** [$] without the [m] flag: the end of the input. *)
Definition re_end (r : option A) (s : string) : option A :=
  match s with
  | EmptyString => r
  | String _ _ => None
  end.

(** A pattern without [^]: the leftmost position at which it matches. *)
Fixpoint re_search (m : string -> option A) (s : string) : option A :=
  match m s with
  | Some r => Some r
  | None =>
      match s with
      | EmptyString => None
      | String _ s' => re_search m s'
      end
  end.
End Regex.

(** Value of a run of decimal digits. *)
Fixpoint digitsValue (acc : Z) (s : string) : Z :=
  match s with
  | String c s' =>
      if isDigit c then digitsValue (10 * acc + (Z.of_N (code c) - 48)) s' else acc
  | EmptyString => acc
  end.

(** Decimal rendering of an integer, as in a template literal.  (The host
    prints an integer in full up to [10^21] and in exponent form from
    there on; a count of that size is outside the model.) *)
Definition showZ (z : Z) : string :=
  match z with
  | Z0 => "0"
  | Zpos p => NilEmpty.string_of_uint (Pos.to_uint p)
  | Zneg p => String "-" (NilEmpty.string_of_uint (Pos.to_uint p))
  end.

End JS.

(* ===================================================================== *)
(** * Numbers of the host language (binary64)                             *)
(* ===================================================================== *)

Module Num.

Definition number : Type := spec_float.

Definition mul : number -> number -> number := SFmul 53 1024.
Definition div : number -> number -> number := SFdiv 53 1024.

(** The number denoted by an integer literal. *)
Definition ofZ (z : Z) : number := binary_normalize 53 1024 z 0 false.

(** The integer that the number denoted by [z] is: [z] itself up to
    [2^53], the nearest binary64 value beyond ([z] where that value is not
    finite). *)
Definition nearestInteger (z : Z) : Z :=
  match ofZ z with
  | S754_zero _ => 0
  | S754_finite s m e =>
      if 0 <=? e then cond_Zopp s (Z.pos m) * 2 ^ e
      else Z.shiftr (cond_Zopp s (Z.pos m)) (- e)
  | _ => z
  end.

Definition isNaN (x : number) : bool :=
  match x with
  | S754_nan => true
  | _ => false
  end.

(** Truthiness: every number but [0], [-0] and NaN. *)
Definition truthy (x : number) : bool :=
  match x with
  | S754_zero _ | S754_nan => false
  | _ => true
  end.

(** The binary64 value nearest to [m * 10^e] for [m >= 0] (ties to even),
    with the sign [neg]: the value of a decimal literal. *)
Definition ofDecimal (neg : bool) (m e : Z) : number :=
  match m with
  | Z0 => S754_zero neg
  | Zpos p =>
      if 0 <=? e then binary_round 53 1024 neg (p * Z.to_pos (10 ^ e))%positive 0
      else
        let '(q, e', l) := SFdiv_core_binary 53 1024 m 0 (10 ^ (- e)) 0 in
        binary_round_aux 53 1024 neg q e' l
  | Zneg _ => S754_nan
  end.

(** The longest run of digits at the head of a string, and what follows. *)
Fixpoint spanDigits (s : string) : string * string :=
  match s with
  | String c s' =>
      if JS.isDigit c then let '(d, r) := spanDigits s' in (String c d, r)
      else (EmptyString, s)
  | EmptyString => (EmptyString, EmptyString)
  end.

(** The exponent part [e[+-]ddd] at the head of a string, when complete. *)
Definition exponentPart (s : string) : Z :=
  match s with
  | String c r =>
      if Ascii.eqb (JS.lowerChar c) "e" then
        let '(neg, u) :=
          match r with
          | String "-" u => (true, u)
          | String "+" u => (false, u)
          | _ => (false, r)
          end in
        match fst (spanDigits u) with
        | EmptyString => 0
        | d => if neg then - JS.digitsValue 0 d else JS.digitsValue 0 d
        end
      else 0
  | EmptyString => 0
  end.

(** [parseFloat(s)]: leading white space is skipped and the longest prefix
    that is a decimal literal ([Infinity], or digits with an optional
    fraction and an optional exponent, after an optional sign) is converted;
    NaN when there is none. *)
Definition parseFloat (s : string) : number :=
  let t := JS.trimStart s in
  let '(neg, u) :=
    match t with
    | String "-" u => (true, u)
    | String "+" u => (false, u)
    | _ => (false, t)
    end in
  if String.prefix "Infinity" u then S754_infinity neg
  else
    let '(ip, r1) := spanDigits u in
    let '(fp, r2) :=
      match r1 with
      | String "." r => spanDigits r
      | _ => (EmptyString, r1)
      end in
    match ip, fp with
    | EmptyString, EmptyString => S754_nan
    | _, _ =>
        ofDecimal neg (JS.digitsValue 0 (ip +:+ fp))
          (exponentPart r2 - Z.of_nat (String.length fp))
    end.

(** [Math.round(x)]: the integer nearest to [x], a tie going up. *)
Definition round (x : number) : number :=
  match x with
  | S754_finite s m e =>
      if 0 <=? e then x
      else
        let n := Z.shiftr (2 * cond_Zopp s (Zpos m) + 2 ^ (- e)) (1 - e) in
        if n =? 0 then S754_zero s else ofZ n
  | _ => x
  end.

(** The digits of [n >= 0] with a point before the last two. *)
Definition fixed2 (n : Z) : string :=
  let d := JS.showZ n in
  let d := match String.length d with
           | 1%nat => "00" +:+ d
           | 2%nat => "0" +:+ d
           | _ => d
           end in
  let k := (String.length d - 2)%nat in
  String.substring 0 k d +:+ "." +:+ String.substring k 2 d.

(** [x.toFixed(2)].  From [10^21] on the host prints the number as
    [toString] does; that rendering is the parameter [big]. *)
Definition toFixed2 (big : number -> string) (x : number) : string :=
  match x with
  | S754_nan => "NaN"
  | S754_infinity false => "Infinity"
  | S754_infinity true => "-Infinity"
  | S754_zero _ => "0.00"
  | S754_finite s m e =>
      if (0 <=? e) && (10 ^ 21 <=? Zpos m * 2 ^ e) then big x
      else
        let n := if 0 <=? e then 100 * Zpos m * 2 ^ e
                 else Z.shiftr (200 * Zpos m + 2 ^ (- e)) (1 - e) in
        (if s then "-" else "") +:+ fixed2 n
  end.

End Num.

(** [parseInt(s)] for decimal input: leading white space and a sign are
    skipped, the longest run of digits is read, and the integer read
    becomes a number of the host, the nearest binary64 value; [None] is
    NaN.  A run of digits below [2^53] is read exactly.  (The source
    applies it to captures of [\d+] only, which never carry a radix
    prefix; a run that the host reads as [Infinity], from [2^1024] on, is
    outside the model.) *)
Definition parseInt (s : string) : option Z :=
  let t := JS.trimStart s in
  let '(neg, u) :=
    match t with
    | String "-" u => (true, u)
    | String "+" u => (false, u)
    | _ => (false, t)
    end in
  match u with
  | String c _ =>
      if JS.isDigit c
      then Some (Num.nearestInteger
                   (if neg then - JS.digitsValue 0 u else JS.digitsValue 0 u))
      else None
  | EmptyString => None
  end.

(* ===================================================================== *)
(** * Data model                                                          *)
(* ===================================================================== *)

(** A [Date] object: built from a string, or from the clock. *)
Inductive JSDate : Type :=
  | DateOf (s : string)
  | DateNow.

(** The fields of a scraped document that the importer reads.  A nested
    path read through optional chaining is one optional field, named after
    the path.  Texts, the id and the price amount among them, are strings;
    coordinates are numbers; the structured room counts are integers. *)
Module Raw.
Record Subtitle : Type := { subtitle : option string }.
Record PdpField : Type := { display_label : option string }.
Record PdpSection : Type := { pdp_fields : option (list PdpField) }.

Record item : Type := {
    id : option string;
    listing_price_amount : option string;
    location_reverse_geocode_city : option string;
    location_reverse_geocode_state : option string;
    reverse_geocode_detailed_city : option string;
    reverse_geocode_detailed_state : option string;
    reverse_geocode_detailed_postal_code : option string;
    home_address_street : option string;
    custom_sub_titles_with_rendering_flags : option (list Subtitle);
    location_latitude : option Num.number;
    location_longitude : option Num.number;
    listing_title_text : option string;
    description : option string;
    bedrooms : option Z;
    bathrooms : option Z;
    unit_room_info : option string;
    pdp_display_sections : option (list PdpSection);
    redacted_description_text : option string;
    primary_listing_photo_uri : option string;
    listing_photos_0_uri : option string;
    marketplace_listing_title : option string;
    custom_title : option string;
    creation_time : option string;
  }.
End Raw.

(** [interface ListingData] *)
Module ListingData.
Record t : Type := {
    id : option string;
    listingTitle : string;
    price : Num.number;
    city : string;
    state : string;
    country : string;
    imageUrl : string;
    listingUrl : string;
    datetime : string;
    description : string;
    latitude : option Num.number;
    longitude : option Num.number;
    bedrooms : option Z;
    bathrooms : option Z;
  }.
End ListingData.

(** [interface ImportStats] *)
Module ImportStats.
Record t : Type := {
    newListings : nat;
    updatedListings : nat;
    skippedListings : nat;
    totalProcessed : nat;
    errors : nat;
  }.
Definition zero : t := Build_t 0 0 0 0 0.
End ImportStats.

(** [model Listing] of the schema.  The two time stamps that the store
    maintains by itself ([scrapedAt], [updatedAt]) are left out. *)
Module Listing.
Record t : Type := {
    id : string;
    listingTitle : option string;
    price : string;
    city : option string;
    state : option string;
    postalCode : option string;
    streetAddress : option string;
    latitude : option string;
    longitude : option string;
    squareFeet : option Z;
    bedrooms : option Z;
    bathrooms : option Z;
    description : option string;
    amenities : list string;
    petFriendly : option bool;
    availableDate : option JSDate;
    listedDate : JSDate;
    ai_category_v1 : option string;
    imageUrl : option string;
    listingUrl : option string;
    country : option string;
  }.
End Listing.

(** What the importer and the classifier use of their environment without
    defining it: the rendering of a persisted [Decimal] ([toString] of the
    store's client library), the rendering of a number ([Number.toString]),
    and the classification oracle, which answers the prompt built from a
    batch with a text, or fails. *)
Class Host : Type := {
    Decimal_toString : string -> string;
    Number_toString : Num.number -> string;
    generateContent : list Listing.t -> option string;
  }.

(** [model PriceHistory] of the schema. *)
Module PriceHistory.
Record t : Type := {
    listingId : string;
    price : string;
    recordedAt : JSDate;
  }.
End PriceHistory.

(** The object [dbData] handed to [create] and [update]: [id], [price] and
    [ai_category_v1] are always set, any other property only when the
    importer assigns it. *)
Module DbData.
Record t : Type := {
    id : string;
    price : string;
    listingTitle : option string;
    city : option string;
    state : option string;
    postalCode : option string;
    streetAddress : option string;
    description : option string;
    latitude : option string;
    longitude : option string;
    bedrooms : option Z;
    bathrooms : option Z;
    amenities : option (list string);
    petFriendly : option bool;
    availableDate : option JSDate;
    imageUrl : option string;
    listedDate : option JSDate;
    ai_category_v1 : string;
  }.
End DbData.

(** The database: the [Listing] table by primary key and the rows of
    [PriceHistory] in insertion order. *)
Record Database : Type := {
    listings : gmap string Listing.t;
    priceHistory : list PriceHistory.t;
  }.

(** The calls made on the store's client, and the lines written to the
    console that report a change of price. *)
Inductive DbCall : Type :=
  | FindUnique (id : string)
  | Create (data : DbData.t)
  | Update (id : string) (data : DbData.t).

Inductive LogLine : Type :=
  | PriceChange (id existingPriceStr newPriceStr : string).

(** Everything one run of the importer reads and writes. *)
Record Run : Type := {
    db : Database;
    stats : ImportStats.t;
    calls : list DbCall;
    console : list LogLine;
  }.

(* ===================================================================== *)
(** * Field extraction ([import-listings.ts])                             *)
(* ===================================================================== *)

Definition truthyZ (o : option Z) : bool :=
  match o with
  | Some z => negb (z =? 0)
  | None => false
  end.

Definition truthyNum (o : option Num.number) : bool :=
  match o with
  | Some x => Num.truthy x
  | None => false
  end.

(** [x || null] and [x || undefined] on an optional value. *)
Definition orNoneZ (o : option Z) : option Z :=
  if truthyZ o then o else None.

Definition orNoneNum (o : option Num.number) : option Num.number :=
  if truthyNum o then o else None.

(** [a || b || ''] on optional strings. *)
Definition firstStr (a b : option string) : string :=
  JS.orStr a (JS.orStr b "").

(** The price in cents: [0] unless the amount is a non-empty string that
    [parseFloat] reads as a number, then [Math.round(parsedPrice * 100)]. *)
Definition priceInCents (amount : option string) : Num.number :=
  match amount with
  | Some (String c s) =>
      let parsedPrice := Num.parseFloat (String c s) in
      if negb (Num.isNaN parsedPrice) then Num.round (Num.mul parsedPrice (Num.ofZ 100))
      else Num.ofZ 0
  | _ => Num.ofZ 0
  end.

(** The loop over the subtitles: the first one that is non-empty and
    contains neither the city nor the state. *)
Fixpoint scanSubtitles (subs : list Raw.Subtitle) (city state : string) : string :=
  match subs with
  | [] => ""
  | sub :: rest =>
      match Raw.subtitle sub with
      | Some (String c s) =>
          if negb (JS.includes (String c s) city) && negb (JS.includes (String c s) state)
          then String c s
          else scanSubtitles rest city state
      | _ => scanSubtitles rest city state
      end
  end.

Definition extractStreetAddress (item : Raw.item) (city state : string) : string :=
  match Raw.home_address_street item with
  | Some (String c s) => String c s
  | _ =>
      match Raw.custom_sub_titles_with_rendering_flags item with
      | Some subs => scanSubtitles subs city state
      | None => ""
      end
  end.

(** [text.match(/(\d+)\s*word/i)], its first group. *)
Definition matchCount (word : string) (text : string) : option string :=
  JS.re_search
    (JS.re_plus JS.isDigit (fun d =>
       JS.re_star JS.isWhiteSpace (fun _ =>
         JS.re_lit_ci word (fun _ => Some d))))
    text.

(** The guarded match of [extractBedroomCount] and [extractBathroomCount]:
    the text must be present and contain the word as written (case
    sensitive) before the pattern is tried. *)
Definition matchCountIn (word : string) (text : option string) : option string :=
  match text with
  | Some (String c s) =>
      if JS.includes (String c s) word then matchCount word (String c s) else None
  | _ => None
  end.

Definition extractCount (word : string) (title description : option string)
    (structured : option Z) : option Z :=
  match matchCountIn word title with
  | Some d => parseInt d
  | None =>
      match matchCountIn word description with
      | Some d => parseInt d
      | None => orNoneZ structured
      end
  end.

Definition extractBedroomCount (item : Raw.item) : option Z :=
  extractCount "bedroom" (Raw.listing_title_text item) (Raw.description item)
    (Raw.bedrooms item).

Definition extractBathroomCount (item : Raw.item) : option Z :=
  extractCount "bathroom" (Raw.listing_title_text item) (Raw.description item)
    (Raw.bathrooms item).

(** The two counts after the block "Try to extract from unit_room_info if
    available". *)
Definition extractRooms (item : Raw.item) : option Z * option Z :=
  let bedrooms := extractBedroomCount item in
  let bathrooms := extractBathroomCount item in
  match Raw.unit_room_info item with
  | Some (String c s) =>
      if negb (truthyZ bedrooms) && negb (truthyZ bathrooms) then
        let roomInfo := String c s in
        (match matchCount "bed" roomInfo with
         | Some d => parseInt d
         | None => bedrooms
         end,
         match matchCount "bath" roomInfo with
         | Some d => parseInt d
         | None => bathrooms
         end)
      else (bedrooms, bathrooms)
  | _ => (bedrooms, bathrooms)
  end.

(** All fields of all sections, in order. *)
Definition pdpFields (item : Raw.item) : list Raw.PdpField :=
  match Raw.pdp_display_sections item with
  | Some sections =>
      concat (map (fun sec => default [] (Raw.pdp_fields sec)) sections)
  | None => []
  end.

Definition labelMentionsPet (f : Raw.PdpField) : bool :=
  match Raw.display_label f with
  | Some (String c s) =>
      let l := JS.toLowerCase (String c s) in
      JS.includes l "pet" || JS.includes l "dog" || JS.includes l "cat"
  | _ => false
  end.

Definition extractPetFriendly (item : Raw.item) : bool :=
  if existsb labelMentionsPet (pdpFields item) then true
  else
    match Raw.redacted_description_text item with
    | Some (String c s) =>
        let descText := JS.toLowerCase (String c s) in
        JS.includes descText "pet friendly" || JS.includes descText "pets allowed"
        || JS.includes descText "pet-friendly" || JS.includes descText "dogs allowed"
        || JS.includes descText "cats allowed"
    | _ => false
    end.

(** [label.match(/Available\s+(\d{4}\/\d{2}\/\d{2})/i)], its first group. *)
Definition matchAvailable (label : string) : option string :=
  JS.re_search
    (JS.re_lit_ci "available" (JS.re_plus JS.isWhiteSpace (fun _ =>
       JS.re_count 4 JS.isDigit (fun y => JS.re_char "/" (
         JS.re_count 2 JS.isDigit (fun m => JS.re_char "/" (
           JS.re_count 2 JS.isDigit (fun d _ =>
             Some (y +:+ "/" +:+ m +:+ "/" +:+ d)))))))))
    label.

Definition labelHas (word : string) (f : Raw.PdpField) : bool :=
  match Raw.display_label f with
  | Some (String c s) => JS.includes (String c s) word
  | _ => false
  end.

(** One section of the available-date scan: its first field whose label
    contains "Available" decides, and the inner loop stops there. *)
Definition sectionAvailableDate (cur : option JSDate) (sec : Raw.PdpSection)
    : option JSDate :=
  match Raw.pdp_fields sec with
  | Some fields =>
      match find (labelHas "Available") fields with
      | Some f =>
          let l := default "" (Raw.display_label f) in
          match matchAvailable l with
          | Some d => Some (DateOf d)
          | None => if JS.includes (JS.toLowerCase l) "now" then Some DateNow else cur
          end
      | None => cur
      end
  | None => cur
  end.

Definition extractAvailableDate (item : Raw.item) : option JSDate :=
  match Raw.pdp_display_sections item with
  | Some sections => fold_left sectionAvailableDate sections None
  | None => None
  end.

Definition isAmenity (f : Raw.PdpField) : bool :=
  match Raw.display_label f with
  | Some (String c s) =>
      let l := String c s in
      negb (JS.includes l "bed") && negb (JS.includes l "bath")
      && negb (JS.includes l "Available")
  | _ => false
  end.

Definition extractAmenities (item : Raw.item) : list string :=
  map (fun f => default "" (Raw.display_label f)) (List.filter isAmenity (pdpFields item)).

(** [determineListingCategory(description, bedrooms)] *)
Definition determineListingCategory (description : option string) (bedrooms : option Z)
    : string :=
  match description with
  | Some (String c s) =>
      let desc := JS.toLowerCase (String c s) in
      if JS.includes desc "airbnb" || JS.includes desc "short term"
         || JS.includes desc "short-term" || JS.includes desc "nightly"
         || JS.includes desc "per night" || JS.includes desc "vacation rental"
      then "airbnb"
      else if JS.includes desc "studio" then "studio apartment"
      else if JS.includes desc "room for rent" || JS.includes desc "roommate"
              || JS.includes desc "shared apartment" || JS.includes desc "shared kitchen"
              || JS.includes desc "shared bathroom"
      then "bedroom"
      else if JS.includes desc "shared room" || JS.includes desc "shared bedroom"
      then "bed"
      else if truthyZ bedrooms then JS.showZ (default 0 bedrooms) +:+ "bdr apartment"
      else if JS.includes desc "1 bedroom" || JS.includes desc "1-bedroom"
              || JS.includes desc "one bedroom"
      then "1bdr apartment"
      else if JS.includes desc "2 bedroom" || JS.includes desc "2-bedroom"
              || JS.includes desc "two bedroom"
      then "2bdr apartment"
      else if JS.includes desc "3 bedroom" || JS.includes desc "3-bedroom"
              || JS.includes desc "three bedroom"
      then "3bdr apartment"
      else if JS.includes desc "4 bedroom" || JS.includes desc "4-bedroom"
              || JS.includes desc "four bedroom"
      then "4bdr apartment"
      else "unknown"
  | _ => "unknown"
  end.

(* ===================================================================== *)
(** * Reconciliation with the store ([importListings])                    *)
(* ===================================================================== *)

Section Importer.
Context `{Host}.

Definition toFixed2 (x : Num.number) : string := Num.toFixed2 Number_toString x.

Definition resolvedCity (item : Raw.item) : string :=
  firstStr (Raw.location_reverse_geocode_city item) (Raw.reverse_geocode_detailed_city item).

Definition resolvedState (item : Raw.item) : string :=
  firstStr (Raw.location_reverse_geocode_state item) (Raw.reverse_geocode_detailed_state item).

(** The object [listing]. *)
Definition buildListing (item : Raw.item) : ListingData.t :=
  {| ListingData.id := Raw.id item;
     ListingData.listingTitle :=
       firstStr (Raw.marketplace_listing_title item) (Raw.custom_title item);
     ListingData.price :=
       Num.div (priceInCents (Raw.listing_price_amount item)) (Num.ofZ 100);
     ListingData.city := resolvedCity item;
     ListingData.state := resolvedState item;
     ListingData.country := "";
     ListingData.imageUrl :=
       firstStr (Raw.primary_listing_photo_uri item) (Raw.listing_photos_0_uri item);
     ListingData.listingUrl := "";
     ListingData.datetime := JS.orStr (Raw.creation_time item) "";
     ListingData.description := JS.orStr (Raw.redacted_description_text item) "";
     ListingData.latitude := orNoneNum (Raw.location_latitude item);
     ListingData.longitude := orNoneNum (Raw.location_longitude item);
     ListingData.bedrooms := fst (extractRooms item);
     ListingData.bathrooms := snd (extractRooms item) |}.

(** A property assigned under [if (v)] for a string [v]. *)
Definition whenStr (v : string) : option string :=
  match v with
  | EmptyString => None
  | _ => Some v
  end.

(** The object [dbData], for a document whose id is [key]. *)
Definition buildDbData (item : Raw.item) (key : string) : DbData.t :=
  let listing := buildListing item in
  let city := resolvedCity item in
  let state := resolvedState item in
  let bedrooms := fst (extractRooms item) in
  let bathrooms := snd (extractRooms item) in
  let amenities := extractAmenities item in
  {| DbData.id := key;
     DbData.price :=
       toFixed2 (Num.div (priceInCents (Raw.listing_price_amount item)) (Num.ofZ 100));
     DbData.listingTitle := whenStr (ListingData.listingTitle listing);
     DbData.city := whenStr city;
     DbData.state := whenStr state;
     DbData.postalCode :=
       whenStr (JS.orStr (Raw.reverse_geocode_detailed_postal_code item) "");
     DbData.streetAddress := whenStr (extractStreetAddress item city state);
     DbData.description := whenStr (ListingData.description listing);
     DbData.latitude := Number_toString <$> ListingData.latitude listing;
     DbData.longitude := Number_toString <$> ListingData.longitude listing;
     DbData.bedrooms := orNoneZ bedrooms;
     DbData.bathrooms := orNoneZ bathrooms;
     DbData.amenities := match amenities with [] => None | _ => Some amenities end;
     DbData.petFriendly := Some (extractPetFriendly item);
     DbData.availableDate := extractAvailableDate item;
     DbData.imageUrl := whenStr (ListingData.imageUrl listing);
     DbData.listedDate :=
       if JS.truthyStr (Raw.creation_time item)
       then DateOf <$> Raw.creation_time item else None;
     DbData.ai_category_v1 :=
       determineListingCategory (Some (ListingData.description listing)) bedrooms |}.

(** [prisma.listing.create({ data })]: columns without a value are null,
    or take the default of the schema. *)
Definition createRecord (d : DbData.t) : Listing.t :=
  {| Listing.id := DbData.id d;
     Listing.listingTitle := DbData.listingTitle d;
     Listing.price := DbData.price d;
     Listing.city := DbData.city d;
     Listing.state := DbData.state d;
     Listing.postalCode := DbData.postalCode d;
     Listing.streetAddress := DbData.streetAddress d;
     Listing.latitude := DbData.latitude d;
     Listing.longitude := DbData.longitude d;
     Listing.squareFeet := None;
     Listing.bedrooms := DbData.bedrooms d;
     Listing.bathrooms := DbData.bathrooms d;
     Listing.description := DbData.description d;
     Listing.amenities := default [] (DbData.amenities d);
     Listing.petFriendly := Some (default false (DbData.petFriendly d));
     Listing.availableDate := DbData.availableDate d;
     Listing.listedDate := default DateNow (DbData.listedDate d);
     Listing.ai_category_v1 := Some (DbData.ai_category_v1 d);
     Listing.imageUrl := DbData.imageUrl d;
     Listing.listingUrl := None;
     Listing.country := None |}.

(** A column after an update: the property of [data] when it is set, the
    stored value otherwise. *)
Definition setOpt {A : Type} (new old : option A) : option A :=
  match new with
  | Some v => Some v
  | None => old
  end.

(** [prisma.listing.update({ where: { id }, data })] on the row [old]. *)
Definition updateRecord (old : Listing.t) (d : DbData.t) : Listing.t :=
  {| Listing.id := DbData.id d;
     Listing.listingTitle := setOpt (DbData.listingTitle d) (Listing.listingTitle old);
     Listing.price := DbData.price d;
     Listing.city := setOpt (DbData.city d) (Listing.city old);
     Listing.state := setOpt (DbData.state d) (Listing.state old);
     Listing.postalCode := setOpt (DbData.postalCode d) (Listing.postalCode old);
     Listing.streetAddress := setOpt (DbData.streetAddress d) (Listing.streetAddress old);
     Listing.latitude := setOpt (DbData.latitude d) (Listing.latitude old);
     Listing.longitude := setOpt (DbData.longitude d) (Listing.longitude old);
     Listing.squareFeet := Listing.squareFeet old;
     Listing.bedrooms := setOpt (DbData.bedrooms d) (Listing.bedrooms old);
     Listing.bathrooms := setOpt (DbData.bathrooms d) (Listing.bathrooms old);
     Listing.description := setOpt (DbData.description d) (Listing.description old);
     Listing.amenities := default (Listing.amenities old) (DbData.amenities d);
     Listing.petFriendly := setOpt (DbData.petFriendly d) (Listing.petFriendly old);
     Listing.availableDate := setOpt (DbData.availableDate d) (Listing.availableDate old);
     Listing.listedDate := default (Listing.listedDate old) (DbData.listedDate d);
     Listing.ai_category_v1 := Some (DbData.ai_category_v1 d);
     Listing.imageUrl := setOpt (DbData.imageUrl d) (Listing.imageUrl old);
     Listing.listingUrl := Listing.listingUrl old;
     Listing.country := Listing.country old |}.

Definition bump (f : ImportStats.t -> ImportStats.t) (r : Run) : Run :=
  {| db := db r; stats := f (stats r); calls := calls r; console := console r |}.

Definition countProcessed (s : ImportStats.t) : ImportStats.t :=
  {| ImportStats.newListings := ImportStats.newListings s;
     ImportStats.updatedListings := ImportStats.updatedListings s;
     ImportStats.skippedListings := ImportStats.skippedListings s;
     ImportStats.totalProcessed := S (ImportStats.totalProcessed s);
     ImportStats.errors := ImportStats.errors s |}.

Definition countSkipped (s : ImportStats.t) : ImportStats.t :=
  {| ImportStats.newListings := ImportStats.newListings s;
     ImportStats.updatedListings := ImportStats.updatedListings s;
     ImportStats.skippedListings := S (ImportStats.skippedListings s);
     ImportStats.totalProcessed := ImportStats.totalProcessed s;
     ImportStats.errors := ImportStats.errors s |}.

Definition countUpdated (s : ImportStats.t) : ImportStats.t :=
  {| ImportStats.newListings := ImportStats.newListings s;
     ImportStats.updatedListings := S (ImportStats.updatedListings s);
     ImportStats.skippedListings := ImportStats.skippedListings s;
     ImportStats.totalProcessed := ImportStats.totalProcessed s;
     ImportStats.errors := ImportStats.errors s |}.

Definition countNew (s : ImportStats.t) : ImportStats.t :=
  {| ImportStats.newListings := S (ImportStats.newListings s);
     ImportStats.updatedListings := ImportStats.updatedListings s;
     ImportStats.skippedListings := ImportStats.skippedListings s;
     ImportStats.totalProcessed := ImportStats.totalProcessed s;
     ImportStats.errors := ImportStats.errors s |}.

(** The table [Listing] with one row written; [PriceHistory] is passed on
    as it is: the importer has no statement that writes to it. *)
Definition putListing (key : string) (row : Listing.t) (d : Database) : Database :=
  {| listings := <[key := row]> (listings d); priceHistory := priceHistory d |}.

(** The line that the update branch logs, if any. *)
Definition priceChangeLog (key : string) (existing : Listing.t) (d : DbData.t)
    : list LogLine :=
  let existingPriceStr := Decimal_toString (Listing.price existing) in
  let newPriceStr := toFixed2 (Num.parseFloat (DbData.price d)) in
  if String.eqb existingPriceStr newPriceStr then []
  else [PriceChange key existingPriceStr newPriceStr].

(** The body of the loop of [importListings] for one document.  The
    documents are taken to be of the shape of the record [Raw.item], on
    which no step of the extraction throws; a rejection of a write by the
    store is not modelled, so that the [catch] of the loop, which counts
    [errors], is never entered. *)
Definition importItem (r : Run) (item : Raw.item) : Run :=
  let r := bump countProcessed r in
  match ListingData.id (buildListing item) with
  | Some (String c s) =>
      let key := String c s in
      let existingListing := listings (db r) !! key in
      let dbData := buildDbData item key in
      match existingListing with
      | Some existing =>
          {| db := putListing key (updateRecord existing dbData) (db r);
             stats := countUpdated (stats r);
             calls := calls r ++ [FindUnique key; Update key dbData];
             console := console r ++ priceChangeLog key existing dbData |}
      | None =>
          {| db := putListing key (createRecord dbData) (db r);
             stats := countNew (stats r);
             calls := calls r ++ [FindUnique key; Create dbData];
             console := console r |}
      end
  | _ => bump countSkipped r
  end.

(** [importListings], from the parsed content of the file on. *)
Definition importListings (items : list Raw.item) (d : Database) : Run :=
  fold_left importItem items
    {| db := d; stats := ImportStats.zero; calls := []; console := [] |}.

End Importer.

(* ===================================================================== *)
(** * The classifier client ([categorize-listings.ts])                    *)
(* ===================================================================== *)

Definition VALID_CATEGORIES : list string :=
  [ "airbnb"; "studio apartment"; "1bdr apartment"; "2bdr apartment";
    "3bdr apartment"; "4bdr apartment"; "bedroom"; "bed"; "other"; "unknown" ].

(** [arr.includes(x)] on strings. *)
Definition includesStr (l : list string) (x : string) : bool :=
  existsb (String.eqb x) l.

(** The exceptions of the classifier: the four [Error]s of
    [parseAIResponse], a failed request to the oracle, and an update of a
    row that does not exist. *)
Inductive ClassifierError : Type :=
  | MissingResponse (listing batchSize got : nat)
  | InvalidFormat (listing : nat) (line : string)
  | InvalidCategory (listing : nat) (category : string)
  | CountMismatch (batchSize parsed : nat)
  | OracleFailure
  | RecordNotFound (id : string).

Inductive Result (A : Type) : Type :=
  | Ok (a : A)
  | Throw (e : ClassifierError).
Arguments Ok {A} a.
Arguments Throw {A} e.

(** [line.match(/^\d+\.\s*(.+)$/)] and [line.match(/^(.+)$/)], first group. *)
Definition matchNumbered (line : string) : option string :=
  JS.re_plus JS.isDigit (fun _ =>
    JS.re_char "." (
      JS.re_star JS.isWhiteSpace (fun _ =>
        JS.re_plus JS.isDot (fun cap => JS.re_end (Some cap))))) line.

Definition matchPlain (line : string) : option string :=
  JS.re_plus JS.isDot (fun cap => JS.re_end (Some cap)) line.

Definition matchLine (line : string) : option string :=
  match matchNumbered line with
  | Some cap => Some cap
  | None => matchPlain line
  end.

(** [match[1].trim().toLowerCase()] *)
Definition normalize (cap : string) : string := JS.toLowerCase (JS.trim cap).

(** The loop of [parseAIResponse] from index [i] on, with [n] iterations
    left ([i + n] is the batch size). *)
Fixpoint parseLines (lines : list string) (batchSize i n : nat)
    (categories : list string) : Result (list string) :=
  match n with
  | O => Ok categories
  | S n' =>
      match lines !! i with
      | Some (String c s) =>
          let line := String c s in
          match matchLine line with
          | None => Throw (InvalidFormat (i + 1) line)
          | Some cap =>
              let category := normalize cap in
              if includesStr VALID_CATEGORIES category
              then parseLines lines batchSize (S i) n' (categories ++ [category])
              else Throw (InvalidCategory (i + 1) category)
          end
      | _ => Throw (MissingResponse (i + 1) batchSize (length lines))
      end
  end.

Definition parseAIResponse (response : string) (batchSize : nat)
    : Result (list string) :=
  let lines := JS.splitLines (JS.trim response) in
  match parseLines lines batchSize 0 batchSize [] with
  | Ok categories =>
      if Nat.eqb (length categories) batchSize then Ok categories
      else Throw (CountMismatch batchSize (length categories))
  | Throw e => Throw e
  end.

(** [Map.prototype.set]: the value of an existing key is replaced where the
    key stands, a new key goes to the end. *)
Fixpoint mapSet (k v : string) (m : list (string * string)) : list (string * string) :=
  match m with
  | [] => [(k, v)]
  | (k', v') :: m' => if String.eqb k k' then (k, v) :: m' else (k', v') :: mapSet k v m'
  end.

Definition setCategory (category : string) (row : Listing.t) : Listing.t :=
  {| Listing.id := Listing.id row;
     Listing.listingTitle := Listing.listingTitle row;
     Listing.price := Listing.price row;
     Listing.city := Listing.city row;
     Listing.state := Listing.state row;
     Listing.postalCode := Listing.postalCode row;
     Listing.streetAddress := Listing.streetAddress row;
     Listing.latitude := Listing.latitude row;
     Listing.longitude := Listing.longitude row;
     Listing.squareFeet := Listing.squareFeet row;
     Listing.bedrooms := Listing.bedrooms row;
     Listing.bathrooms := Listing.bathrooms row;
     Listing.description := Listing.description row;
     Listing.amenities := Listing.amenities row;
     Listing.petFriendly := Listing.petFriendly row;
     Listing.availableDate := Listing.availableDate row;
     Listing.listedDate := Listing.listedDate row;
     Listing.ai_category_v1 := Some category;
     Listing.imageUrl := Listing.imageUrl row;
     Listing.listingUrl := Listing.listingUrl row;
     Listing.country := Listing.country row |}.

(** The rows selected by [findMany]: [ai_category_v1] is [''] or null. *)
Definition needsCategory (row : Listing.t) : bool :=
  match Listing.ai_category_v1 row with
  | None | Some EmptyString => true
  | Some (String _ _) => false
  end.

(** The state of a run of [categorizeAllListings]. *)
Record Sweep : Type := {
    table : gmap string Listing.t;
    totalProcessed : nat;
    totalErrors : nat;
  }.

Section Classifier.
Context `{Host}.

(** [processBatch]: one request, the reply parsed, and the map from id to
    category filled in the order of the batch. *)
Definition processBatch (batch : list Listing.t) : Result (list (string * string)) :=
  match generateContent batch with
  | None => Throw OracleFailure
  | Some response =>
      match parseAIResponse response (length batch) with
      | Ok categories =>
          Ok (fold_left (fun m lc => mapSet (Listing.id (fst lc)) (snd lc) m)
                (zip batch categories) [])
      | Throw e => Throw e
      end
  end.

(** The loop "Update database": one update per entry of the map, in
    order; an update of a missing row throws and ends the loop. *)
Fixpoint applyCategories (entries : list (string * string)) (s : Sweep)
    : Sweep * option ClassifierError :=
  match entries with
  | [] => (s, None)
  | (listingId, category) :: rest =>
      match table s !! listingId with
      | Some row =>
          applyCategories rest
            {| table := <[listingId := setCategory category row]> (table s);
               totalProcessed := S (totalProcessed s);
               totalErrors := totalErrors s |}
      | None => (s, Some (RecordNotFound listingId))
      end
  end.

(** The body of the batch loop, with its [try]/[catch]. *)
Definition categorizeBatch (batch : list Listing.t) (s : Sweep) : Sweep :=
  let failed (s' : Sweep) :=
    {| table := table s'; totalProcessed := totalProcessed s';
       totalErrors := totalErrors s' + length batch |} in
  match processBatch batch with
  | Ok categoryMap =>
      match applyCategories categoryMap s with
      | (s', None) => s'
      | (s', Some _) => failed s'
      end
  | Throw _ => failed s
  end.

(** The batch loop: [rest] is what [listings.slice(i)] still holds; every
    round takes the next 50 rows. *)
Fixpoint batchLoop (fuel : nat) (rest : list Listing.t) (s : Sweep) : Sweep :=
  match fuel with
  | O => s
  | S fuel' =>
      match rest with
      | [] => s
      | _ => batchLoop fuel' (drop 50 rest) (categorizeBatch (take 50 rest) s)
      end
  end.

(** [categorizeAllListings], after the check of the API key and the
    reading of the prompt template. *)
Definition categorizeAllListings (d : Database) : Sweep :=
  let rows := List.filter needsCategory (snd <$> map_to_list (listings d)) in
  batchLoop (length rows) rows
    {| table := listings d; totalProcessed := 0; totalErrors := 0 |}.

End Classifier.

(* ===================================================================== *)
(** * The files of a run ([findJsonFiles], [processAllFiles])             *)
(* ===================================================================== *)

(** [s.endsWith(suffix)]: some tail of [s] is [suffix]. *)
Fixpoint endsWith (s suffix : string) : bool :=
  String.eqb s suffix ||
  match s with
  | EmptyString => false
  | String _ s' => endsWith s' suffix
  end.

(** [path.join(directoryPath, name)] for a normalized directory path, as
    [path.resolve] gives it, and the name of one of its entries. *)
Definition pathJoin (directoryPath name : string) : string :=
  directoryPath +:+ "/" +:+ name.

(** What [readdir] with [withFileTypes] lists: files, directories with
    their own listing ([None] when reading the directory throws), and
    entries that are neither. *)
#[warnings="-register-all"]
Inductive Dirent : Type :=
  | FileEntry (name : string)
  | DirEntry (name : string) (entries : option (list Dirent))
  | OtherEntry (name : string).

(** One round of the loop of [findJsonFiles] in the directory
    [directoryPath]; a directory is searched by the recursive call, whose
    [catch] turns a failed listing into no file. *)
Fixpoint visitEntry (directoryPath : string) (entry : Dirent) : list string :=
  match entry with
  | DirEntry name (Some entries) =>
      (fix visit (l : list Dirent) : list string :=
         match l with
         | [] => []
         | e :: rest => visitEntry (pathJoin directoryPath name) e ++ visit rest
         end) entries
  | DirEntry _ None => []
  | FileEntry name =>
      if endsWith name ".json" then [pathJoin directoryPath name] else []
  | OtherEntry _ => []
  end.

(** [findJsonFiles(directoryPath)], the directory listing [entries]. *)
Definition findJsonFiles (directoryPath : string) (entries : option (list Dirent))
    : list string :=
  match entries with
  | Some l => concat (map (visitEntry directoryPath) l)
  | None => []
  end.

(** The sums of [processAllFiles]: [totalStats.x += stats.x]. *)
Definition addStats (total s : ImportStats.t) : ImportStats.t :=
  {| ImportStats.newListings :=
       ImportStats.newListings total + ImportStats.newListings s;
     ImportStats.updatedListings :=
       ImportStats.updatedListings total + ImportStats.updatedListings s;
     ImportStats.skippedListings :=
       ImportStats.skippedListings total + ImportStats.skippedListings s;
     ImportStats.totalProcessed :=
       ImportStats.totalProcessed total + ImportStats.totalProcessed s;
     ImportStats.errors := ImportStats.errors total + ImportStats.errors s |}.

Section Files.
Context `{Host}.

(** [importListings(filePath)] with its first two statements: the content
    of the file is the list of documents, or [None] when the file cannot
    be read or is not a JSON array, and then the outer [catch] counts one
    error. *)
Definition importListingsOfFile (content : option (list Raw.item)) (d : Database) : Run :=
  match content with
  | Some items => importListings items d
  | None =>
      {| db := d;
         stats := {| ImportStats.newListings := 0; ImportStats.updatedListings := 0;
                     ImportStats.skippedListings := 0; ImportStats.totalProcessed := 0;
                     ImportStats.errors := 1 |};
         calls := []; console := [] |}
  end.

(** [processAllFiles]: every file found under the data directory is
    imported in turn into the same database, and the statistics are added
    up.  [readJson] gives the content of a file by its path. *)
Definition processAllFiles (readJson : string -> option (list Raw.item))
    (dataDir : string) (entries : option (list Dirent)) (d : Database)
    : Database * ImportStats.t :=
  fold_left
    (fun acc filePath =>
       let r := importListingsOfFile (readJson filePath) (fst acc) in
       (db r, addStats (snd acc) (stats r)))
    (findJsonFiles dataDir entries) (d, ImportStats.zero).

End Files.

(* ===================================================================== *)
(** * The prompt ([formatListingsForPrompt])                              *)
(* ===================================================================== *)

(** The ordinal that opens the rendering of the listing of index [index]:
    [`${index + 1}. `]. *)
Definition ordinalPrefix (index : nat) : string :=
  JS.showZ (Z.of_nat index + 1) +:+ ". ".

(** [`${truncatedDesc}${description.length > 200 ? '...' : ''}`] *)
Definition descriptionExcerpt (description : string) : string :=
  String.substring 0 200 description
  +:+ (if (200 <? String.length description)%nat then "..." else "").

Section Prompt.
Context `{Host}.

(** The callback of [listings.map] in [formatListingsForPrompt]. *)
Definition formatListing (index : nat) (listing : Listing.t) : string :=
  String.concat " | "
    ([ordinalPrefix index +:+ JS.orStr (Listing.listingTitle listing) "Untitled"]
     ++ ["Price: $" +:+ Decimal_toString (Listing.price listing) +:+ "/month"]
     ++ match Listing.bedrooms listing with
        | Some n => ["Bedrooms: " +:+ JS.showZ n]
        | None => []
        end
     ++ match Listing.bathrooms listing with
        | Some n => ["Bathrooms: " +:+ JS.showZ n]
        | None => []
        end
     ++ match Listing.description listing with
        | Some (String c s) => ["Description: " +:+ descriptionExcerpt (String c s)]
        | _ => []
        end
     ++ match Listing.amenities listing with
        | [] => []
        | amenities => ["Amenities: " +:+ String.concat ", " (take 5 amenities)]
        end).

Definition formatListingsForPrompt (listings : list Listing.t) : string :=
  String.concat (String "010" EmptyString) (imap formatListing listings).

End Prompt.

(* ===================================================================== *)
(** * Notions used in the statements                                      *)
(* ===================================================================== *)

(** The category that the loop of [parseAIResponse] reads from one line,
    when it accepts the line. *)
Definition lineCategory (line : string) : option string :=
  match line with
  | EmptyString => None
  | _ =>
      match matchLine line with
      | Some cap =>
          if includesStr VALID_CATEGORIES (normalize cap) then Some (normalize cap)
          else None
      | None => None
      end
  end.

(** Every character of a string is in a class; a string does not begin
    with a character of the class. *)
Fixpoint allChars (p : ascii -> bool) (s : string) : bool :=
  match s with
  | EmptyString => true
  | String c s' => p c && allChars p s'
  end.

Definition stopsAt (p : ascii -> bool) (s : string) : bool :=
  match s with
  | EmptyString => true
  | String c _ => negb (p c)
  end.

(** The two kinds of validation error of [parseAIResponse]: a line is
    missing where one is expected, or a line gives no member of the
    vocabulary (the patterns do not match it, or its text is not a
    category). *)
Definition isCountError (e : ClassifierError) : Prop :=
  match e with
  | MissingResponse _ _ _ | CountMismatch _ _ => True
  | _ => False
  end.

Definition isVocabularyError (e : ClassifierError) : Prop :=
  match e with
  | InvalidFormat _ _ | InvalidCategory _ _ => True
  | _ => False
  end.

(** What the loop of [parseAIResponse] throws at the line of index [i]. *)
Definition failsAt (lines : list string) (i : nat) (e : ClassifierError) : Prop :=
  (isCountError e /\ (lines !! i = None \/ lines !! i = Some "")) \/
  (isVocabularyError e /\
   exists line, lines !! i = Some line /\ line <> "" /\ lineCategory line = None).


(** Rows are filed under their own id: the key of the table is the column
    [id]. *)
Definition keyed (m : gmap string Listing.t) : Prop :=
  forall k row, m !! k = Some row -> Listing.id row = k.

(** The columns that an update writes only when the candidate has a value:
    the stored value is kept for an empty string, a zero or missing count
    or number, an empty list. *)
Definition mergeStr (candidate : string) (stored : option string) : option string :=
  match candidate with
  | EmptyString => stored
  | _ => Some candidate
  end.

Definition mergeCount (candidate stored : option Z) : option Z :=
  if truthyZ candidate then candidate else stored.

Definition mergeNum `{Host} (candidate : option Num.number) (stored : option string)
    : option string :=
  match candidate with
  | Some x => if Num.truthy x then Some (Number_toString x) else stored
  | None => stored
  end.

(** ** The deterministic categorizer as an ordered list of rules

    The algorithm as the specification words it: a lower-cased description
    is run through rules in priority order and the first rule that fires
    gives the category; [unknown] when none does, or when there is no
    description.  The rule on the bedroom count is a parameter. *)
Definition Rule : Type := string -> option Z -> option string.

Definition keywordRule (words : list string) (category : string) : Rule :=
  fun desc _ => if existsb (JS.includes desc) words then Some category else None.

(** Rule 5 as the specification states it: a bedroom count is known. *)
Definition knownCountRule : Rule :=
  fun _ bedrooms =>
    match bedrooms with
    | Some n => Some (JS.showZ n +:+ "bdr apartment")
    | None => None
    end.

(** Rule 5 on a count that is known and not zero. *)
Definition nonzeroCountRule : Rule :=
  fun _ bedrooms =>
    match bedrooms with
    | Some n => if n =? 0 then None else Some (JS.showZ n +:+ "bdr apartment")
    | None => None
    end.

Definition categorizerRules (countRule : Rule) : list Rule :=
  [ keywordRule ["airbnb"; "short term"; "short-term"; "nightly"; "per night";
                 "vacation rental"] "airbnb";
    keywordRule ["studio"] "studio apartment";
    keywordRule ["room for rent"; "roommate"; "shared apartment"; "shared kitchen";
                 "shared bathroom"] "bedroom";
    keywordRule ["shared room"; "shared bedroom"] "bed";
    countRule;
    keywordRule ["1 bedroom"; "1-bedroom"; "one bedroom"] "1bdr apartment";
    keywordRule ["2 bedroom"; "2-bedroom"; "two bedroom"] "2bdr apartment";
    keywordRule ["3 bedroom"; "3-bedroom"; "three bedroom"] "3bdr apartment";
    keywordRule ["4 bedroom"; "4-bedroom"; "four bedroom"] "4bdr apartment" ].

Fixpoint firstMatch (rules : list Rule) (desc : string) (bedrooms : option Z) : string :=
  match rules with
  | [] => "unknown"
  | rule :: rest =>
      match rule desc bedrooms with
      | Some category => category
      | None => firstMatch rest desc bedrooms
      end
  end.

Definition categorizeByRules (countRule : Rule) (description : option string)
    (bedrooms : option Z) : string :=
  match description with
  | Some (String c s) =>
      firstMatch (categorizerRules countRule) (JS.toLowerCase (String c s)) bedrooms
  | _ => "unknown"
  end.

(** ** Room counts and street address as the specification states them *)

(** The first step of a list that finds a count. *)
Fixpoint firstFound (steps : list (option Z)) : option Z :=
  match steps with
  | [] => None
  | Some n :: _ => Some n
  | None :: rest => firstFound rest
  end.

(** The pattern ["<N> word"] on a text that may be missing. *)
Definition countByPattern (word : string) (text : option string) : option Z :=
  match text with
  | Some t =>
      match matchCount word t with
      | Some d => parseInt d
      | None => None
      end
  | None => None
  end.

(** One count resolved on its own, as the specification states it: the
    pattern on the title, then on the description, then the structured
    field, then the pattern of the short word on the unit room info. *)
Definition resolveCountAsStated (word short : string) (title description : option string)
    (structured : option Z) (roomInfo : option string) : option Z :=
  firstFound [countByPattern word title; countByPattern word description;
              structured; countByPattern short roomInfo].

Definition resolveRoomsAsStated (item : Raw.item) : option Z * option Z :=
  (resolveCountAsStated "bedroom" "bed" (Raw.listing_title_text item)
     (Raw.description item) (Raw.bedrooms item) (Raw.unit_room_info item),
   resolveCountAsStated "bathroom" "bath" (Raw.listing_title_text item)
     (Raw.description item) (Raw.bathrooms item) (Raw.unit_room_info item)).

(** The resolution as amended.  A text is searched only when it contains
    the word as written, in lower case, although the pattern ignores case;
    a structured count of zero is no count; a count is determined when it
    is known and not zero. *)
Definition countInText (word : string) (text : option string) : option Z :=
  match text with
  | Some t => if JS.includes t word then countByPattern word (Some t) else None
  | None => None
  end.

Definition knownCount (structured : option Z) : option Z :=
  match structured with
  | Some 0 => None
  | other => other
  end.

Definition determined (count : option Z) : bool :=
  match count with
  | Some 0 | None => false
  | Some _ => true
  end.

(** The first three steps, for one count on its own. *)
Definition resolveCountAsAmended (word : string) (title description : option string)
    (structured : option Z) : option Z :=
  firstFound [countInText word title; countInText word description;
              knownCount structured].

(** The last resort: the unit room info gives a count its match, when
    there is one. *)
Definition lastResort (short : string) (roomInfo : string) (found : option Z) : option Z :=
  match countByPattern short (Some roomInfo) with
  | Some n => Some n
  | None => found
  end.

(** Both counts: the last resort is taken for both at once, when the unit
    room info is a non-empty string and neither count is determined. *)
Definition resolveRoomsAsAmended (item : Raw.item) : option Z * option Z :=
  let bedrooms := resolveCountAsAmended "bedroom" (Raw.listing_title_text item)
                    (Raw.description item) (Raw.bedrooms item) in
  let bathrooms := resolveCountAsAmended "bathroom" (Raw.listing_title_text item)
                     (Raw.description item) (Raw.bathrooms item) in
  match Raw.unit_room_info item with
  | Some roomInfo =>
      if negb (String.eqb roomInfo "") && negb (determined bedrooms)
         && negb (determined bathrooms)
      then (lastResort "bed" roomInfo bedrooms, lastResort "bath" roomInfo bathrooms)
      else (bedrooms, bathrooms)
  | None => (bedrooms, bathrooms)
  end.

(** ** The value of a number

    [isInteger x n]: the number [x] is exactly the integer [n].
    [roundsHalfUp x n]: [n] is the integer nearest to [x], a tie going up:
    [n <= x + 1/2 < n + 1], for [x = M * 2^e] written without fractions.
    [hasValue x a k]: [x] is exactly [a / 2^k]. *)
Definition isInteger (x : Num.number) (n : Z) : Prop :=
  match x with
  | S754_zero _ => n = 0
  | S754_finite s m e =>
      if 0 <=? e then n = cond_Zopp s (Z.pos m) * 2 ^ e
      else cond_Zopp s (Z.pos m) = n * 2 ^ (- e)
  | _ => False
  end.



(** The subtitle strings of a document, in order. *)
Definition subtitleStrings (subs : list Raw.Subtitle) : list string :=
  omap Raw.subtitle subs.

Definition firstOr (found : option string) : string := default "" found.

(** The first subtitle that contains neither the city nor the state. *)
Definition streetAsStated (subs : list Raw.Subtitle) (city state : string) : string :=
  firstOr (find (fun s => negb (JS.includes s city) && negb (JS.includes s state))
             (subtitleStrings subs)).

(** The same among the non-empty subtitles. *)
Definition streetAmongNonEmpty (subs : list Raw.Subtitle) (city state : string) : string :=
  firstOr (find (fun s => negb (String.eqb s "") && negb (JS.includes s city)
                          && negb (JS.includes s state))
             (subtitleStrings subs)).

(** ** Sample data for the worked examples *)

Definition LF : string := String "010" EmptyString.
Definition CR : string := String "013" EmptyString.

(** A host that renders a stored decimal as it was written, and whose
    oracle gives the same reply to every request.  (The client library of
    the store prints a decimal without its trailing zeros, [1200.00] as
    [1200]; the sample host is a host, not that library.) *)
Definition sampleHost (reply : option string) : Host :=
  {| Decimal_toString := fun s => s;
     Number_toString := fun _ => "";
     generateContent := fun _ => reply |}.

(** A row with a key, a price and a category, every other column empty. *)
Definition sampleRow (key price : string) (category : option string) : Listing.t :=
  {| Listing.id := key; Listing.listingTitle := None; Listing.price := price;
     Listing.city := None; Listing.state := None; Listing.postalCode := None;
     Listing.streetAddress := None; Listing.latitude := None;
     Listing.longitude := None; Listing.squareFeet := None;
     Listing.bedrooms := None; Listing.bathrooms := None;
     Listing.description := None; Listing.amenities := [];
     Listing.petFriendly := Some false; Listing.availableDate := None;
     Listing.listedDate := DateNow; Listing.ai_category_v1 := category;
     Listing.imageUrl := None; Listing.listingUrl := None;
     Listing.country := None |}.

(** A document with an id and a price amount, no other property. *)
Definition sampleItem (key amount : option string) : Raw.item :=
  {| Raw.id := key; Raw.listing_price_amount := amount;
     Raw.location_reverse_geocode_city := None;
     Raw.location_reverse_geocode_state := None;
     Raw.reverse_geocode_detailed_city := None;
     Raw.reverse_geocode_detailed_state := None;
     Raw.reverse_geocode_detailed_postal_code := None;
     Raw.home_address_street := None;
     Raw.custom_sub_titles_with_rendering_flags := None;
     Raw.location_latitude := None; Raw.location_longitude := None;
     Raw.listing_title_text := None; Raw.description := None;
     Raw.bedrooms := None; Raw.bathrooms := None;
     Raw.unit_room_info := None; Raw.pdp_display_sections := None;
     Raw.redacted_description_text := None;
     Raw.primary_listing_photo_uri := None; Raw.listing_photos_0_uri := None;
     Raw.marketplace_listing_title := None; Raw.custom_title := None;
     Raw.creation_time := None |}.

(** The listing and the candidate of the sparse-merge scenario: stored
    [{city: "Halifax", bedrooms: 2}], incoming [{city: "", bedrooms: 3}]. *)
Definition halifaxRow : Listing.t :=
  {| Listing.id := "L1"; Listing.listingTitle := None; Listing.price := "1200.00";
     Listing.city := Some "Halifax"; Listing.state := None;
     Listing.postalCode := None; Listing.streetAddress := None;
     Listing.latitude := None; Listing.longitude := None;
     Listing.squareFeet := None; Listing.bedrooms := Some 2;
     Listing.bathrooms := None; Listing.description := None;
     Listing.amenities := []; Listing.petFriendly := Some false;
     Listing.availableDate := None; Listing.listedDate := DateNow;
     Listing.ai_category_v1 := Some "other"; Listing.imageUrl := None;
     Listing.listingUrl := None; Listing.country := None |}.

Definition threeBedroomItem : Raw.item :=
  {| Raw.id := Some "L1"; Raw.listing_price_amount := Some "1200.00";
     Raw.location_reverse_geocode_city := Some "";
     Raw.location_reverse_geocode_state := None;
     Raw.reverse_geocode_detailed_city := None;
     Raw.reverse_geocode_detailed_state := None;
     Raw.reverse_geocode_detailed_postal_code := None;
     Raw.home_address_street := None;
     Raw.custom_sub_titles_with_rendering_flags := None;
     Raw.location_latitude := None; Raw.location_longitude := None;
     Raw.listing_title_text := None; Raw.description := None;
     Raw.bedrooms := Some 3; Raw.bathrooms := None;
     Raw.unit_room_info := None; Raw.pdp_display_sections := None;
     Raw.redacted_description_text := None;
     Raw.primary_listing_photo_uri := None; Raw.listing_photos_0_uri := None;
     Raw.marketplace_listing_title := None; Raw.custom_title := None;
     Raw.creation_time := None |}.

Definition sampleDatabase (rows : list Listing.t) : Database :=
  {| listings := list_to_map ((fun row => (Listing.id row, row)) <$> rows);
     priceHistory := [] |}.

Definition newRun (d : Database) : Run :=
  {| db := d; stats := ImportStats.zero; calls := []; console := [] |}.


(** Two rows without a category. *)
Definition sampleBatch : list Listing.t :=
  [sampleRow "L1" "900.00" None; sampleRow "L2" "1200.00" (Some "")].

(** A reply of four lines to a batch of two. *)
Definition replyWithSurplus : string :=
  "1. Bed" +:+ LF +:+ "  Studio Apartment" +:+ LF +:+ "not a category"
  +:+ LF +:+ "4. other".

(** A document titled with its bedrooms only, whose unit room info gives
    both counts. *)
Definition twoBedroomItem : Raw.item :=
  {| Raw.id := Some "L7"; Raw.listing_price_amount := Some "1800";
     Raw.location_reverse_geocode_city := None;
     Raw.location_reverse_geocode_state := None;
     Raw.reverse_geocode_detailed_city := None;
     Raw.reverse_geocode_detailed_state := None;
     Raw.reverse_geocode_detailed_postal_code := None;
     Raw.home_address_street := None;
     Raw.custom_sub_titles_with_rendering_flags := None;
     Raw.location_latitude := None; Raw.location_longitude := None;
     Raw.listing_title_text := Some "2 bedroom apartment"; Raw.description := None;
     Raw.bedrooms := None; Raw.bathrooms := None;
     Raw.unit_room_info := Some "2 beds, 1 bath"; Raw.pdp_display_sections := None;
     Raw.redacted_description_text := None;
     Raw.primary_listing_photo_uri := None; Raw.listing_photos_0_uri := None;
     Raw.marketplace_listing_title := None; Raw.custom_title := None;
     Raw.creation_time := None |}.

(** A document with nothing but its unit room info. *)
Definition roomInfoOnlyItem : Raw.item :=
  {| Raw.id := Some "L8"; Raw.listing_price_amount := Some "950";
     Raw.location_reverse_geocode_city := None;
     Raw.location_reverse_geocode_state := None;
     Raw.reverse_geocode_detailed_city := None;
     Raw.reverse_geocode_detailed_state := None;
     Raw.reverse_geocode_detailed_postal_code := None;
     Raw.home_address_street := None;
     Raw.custom_sub_titles_with_rendering_flags := None;
     Raw.location_latitude := None; Raw.location_longitude := None;
     Raw.listing_title_text := None; Raw.description := None;
     Raw.bedrooms := None; Raw.bathrooms := None;
     Raw.unit_room_info := Some "3 beds, 2 baths"; Raw.pdp_display_sections := None;
     Raw.redacted_description_text := None;
     Raw.primary_listing_photo_uri := None; Raw.listing_photos_0_uri := None;
     Raw.marketplace_listing_title := None; Raw.custom_title := None;
     Raw.creation_time := None |}.

(** A document in Halifax, NS, without a street, whose subtitles are given. *)
Definition subtitledItem (subs : list (option string)) : Raw.item :=
  {| Raw.id := Some "L9"; Raw.listing_price_amount := Some "1400";
     Raw.location_reverse_geocode_city := Some "Halifax";
     Raw.location_reverse_geocode_state := Some "NS";
     Raw.reverse_geocode_detailed_city := None;
     Raw.reverse_geocode_detailed_state := None;
     Raw.reverse_geocode_detailed_postal_code := None;
     Raw.home_address_street := None;
     Raw.custom_sub_titles_with_rendering_flags := Some (Raw.Build_Subtitle <$> subs);
     Raw.location_latitude := None; Raw.location_longitude := None;
     Raw.listing_title_text := None; Raw.description := None;
     Raw.bedrooms := None; Raw.bathrooms := None;
     Raw.unit_room_info := None; Raw.pdp_display_sections := None;
     Raw.redacted_description_text := None;
     Raw.primary_listing_photo_uri := None; Raw.listing_photos_0_uri := None;
     Raw.marketplace_listing_title := None; Raw.custom_title := None;
     Raw.creation_time := None |}.

(** The run of the price-change scenario: "L1" is stored at 1200.00 and a
    document for "L1" comes in with the amount 1250. *)
Definition priceChangeRun : Run :=
  @importListings (sampleHost None) [sampleItem (Some "L1") (Some "1250")]
    (sampleDatabase [sampleRow "L1" "1200.00" (Some "other")]).

(** ** Notions for the further properties *)

(** A string without a line feed. *)
Definition noLineFeed (s : string) : bool :=
  allChars (fun c => negb (JS.code c =? 10)%N) s.

(** A line of a reply that carries the category [c]: the category alone, or
    after an ordinal [n. ] with [n] positive. *)
Definition carries (line c : string) : Prop :=
  line = c \/ exists n : positive, line = JS.showZ (Zpos n) +:+ ". " +:+ c.

(** The rounds of the batch loop: the next 50 rows, as long as rows are
    left. *)
Fixpoint batchesOf (fuel : nat) (rest : list Listing.t) : list (list Listing.t) :=
  match fuel with
  | O => []
  | S fuel' =>
      match rest with
      | [] => []
      | _ => take 50 rest :: batchesOf fuel' (drop 50 rest)
      end
  end.

(** The rows that [categorizeAllListings] selects. *)
Definition selectedRows (d : Database) : list Listing.t :=
  List.filter needsCategory (snd <$> map_to_list (listings d)).

(** The key under which a document is stored: its id, when it has one
    that is not empty. *)
Definition itemKey (item : Raw.item) : option string :=
  match Raw.id item with
  | Some (String c s) => Some (String c s)
  | _ => None
  end.

(** The ids of the documents of a list that have one. *)
Definition idsOf (items : list Raw.item) : list string := omap itemKey items.

(** Two sets of columns written one after the other, as one: the later
    value of a column where there is one, the earlier otherwise. *)
Definition mergeData (d1 d2 : DbData.t) : DbData.t :=
  {| DbData.id := DbData.id d2;
     DbData.price := DbData.price d2;
     DbData.listingTitle := setOpt (DbData.listingTitle d2) (DbData.listingTitle d1);
     DbData.city := setOpt (DbData.city d2) (DbData.city d1);
     DbData.state := setOpt (DbData.state d2) (DbData.state d1);
     DbData.postalCode := setOpt (DbData.postalCode d2) (DbData.postalCode d1);
     DbData.streetAddress := setOpt (DbData.streetAddress d2) (DbData.streetAddress d1);
     DbData.description := setOpt (DbData.description d2) (DbData.description d1);
     DbData.latitude := setOpt (DbData.latitude d2) (DbData.latitude d1);
     DbData.longitude := setOpt (DbData.longitude d2) (DbData.longitude d1);
     DbData.bedrooms := setOpt (DbData.bedrooms d2) (DbData.bedrooms d1);
     DbData.bathrooms := setOpt (DbData.bathrooms d2) (DbData.bathrooms d1);
     DbData.amenities := setOpt (DbData.amenities d2) (DbData.amenities d1);
     DbData.petFriendly := setOpt (DbData.petFriendly d2) (DbData.petFriendly d1);
     DbData.availableDate := setOpt (DbData.availableDate d2) (DbData.availableDate d1);
     DbData.imageUrl := setOpt (DbData.imageUrl d2) (DbData.imageUrl d1);
     DbData.listedDate := setOpt (DbData.listedDate d2) (DbData.listedDate d1);
     DbData.ai_category_v1 := DbData.ai_category_v1 d2 |}.

(** The write of the two branches of the importer, on what [findUnique]
    gave. *)
Definition writeData (d : DbData.t) (existing : option Listing.t) : Listing.t :=
  match existing with
  | Some row => updateRecord row d
  | None => createRecord d
  end.

(** A file with no listing among its counters but the errors. *)
Definition errorsOnly (n : nat) : ImportStats.t :=
  {| ImportStats.newListings := 0; ImportStats.updatedListings := 0;
     ImportStats.skippedListings := 0; ImportStats.totalProcessed := 0;
     ImportStats.errors := n |}.

(** The categories that the importer can write whatever the bedroom
    count. *)
Definition IMPORTER_CATEGORIES : list string :=
  ["airbnb"; "studio apartment"; "bedroom"; "bed"; "1bdr apartment";
   "2bdr apartment"; "3bdr apartment"; "4bdr apartment"; "unknown"].

Section MoreNotions.
Context `{Host}.

(** What one document does to the row stored under [k]. *)
Definition mergeItem (k : string) (row : option Listing.t) (item : Raw.item)
    : option Listing.t :=
  match itemKey item with
  | Some key =>
      if String.eqb key k then Some (writeData (buildDbData item k) row) else row
  | None => row
  end.

End MoreNotions.

(** A row of a batch whose stored row, in the table [t], still has no
    category. *)
Definition stillNeeds (t : gmap string Listing.t) (b : Listing.t) : bool :=
  match t !! Listing.id b with
  | Some row => needsCategory row
  | None => false
  end.

(** The JSON files below a directory: [locates dir entries p] when [p] is
    the path of a file entry with a name in [.json] that is reached from
    the listing [entries] of [dir] through directories that can be read. *)
Inductive locates : string -> list Dirent -> string -> Prop :=
  | locates_file (dir : string) (entries : list Dirent) (name : string) :
      FileEntry name ∈ entries -> endsWith name ".json" = true ->
      locates dir entries (pathJoin dir name)
  | locates_dir (dir : string) (entries : list Dirent) (name : string)
      (sub : list Dirent) (p : string) :
      DirEntry name (Some sub) ∈ entries -> locates (pathJoin dir name) sub p ->
      locates dir entries p.

(** The documents of the files that can be read, in the order of the
    files, and the number of files that cannot. *)
Definition documentsOf (readJson : string -> option (list Raw.item))
    (files : list string) : list Raw.item :=
  concat (map (fun filePath => default [] (readJson filePath)) files).

Definition unreadable (readJson : string -> option (list Raw.item))
    (files : list string) : nat :=
  length (List.filter (fun filePath => match readJson filePath with
                                       | Some _ => false
                                       | None => true
                                       end) files).

(** A row whose texts can be put on one line of the prompt. *)
Definition onOneLine `{Host} (listing : Listing.t) : Prop :=
  noLineFeed (default "" (Listing.listingTitle listing)) = true /\
  noLineFeed (Decimal_toString (Listing.price listing)) = true /\
  noLineFeed (default "" (Listing.description listing)) = true /\
  Forall (fun a => noLineFeed a = true) (Listing.amenities listing).

(** A text of the form [dddd/dd/dd]. *)
Definition isDateText (s : string) : Prop :=
  exists y m d,
    s = y +:+ "/" +:+ m +:+ "/" +:+ d /\
    String.length y = 4%nat /\ String.length m = 2%nat /\ String.length d = 2%nat /\
    allChars JS.isDigit y = true /\ allChars JS.isDigit m = true /\
    allChars JS.isDigit d = true.

(** The labels of the fields of a document. *)
Definition labelsOf (item : Raw.item) : list string :=
  omap Raw.display_label (pdpFields item).

(** A document "L5" with one section of fields, given by their labels. *)
Definition labelledItem (labels : list string) : Raw.item :=
  {| Raw.id := Some "L5"; Raw.listing_price_amount := Some "1100";
     Raw.location_reverse_geocode_city := None;
     Raw.location_reverse_geocode_state := None;
     Raw.reverse_geocode_detailed_city := None;
     Raw.reverse_geocode_detailed_state := None;
     Raw.reverse_geocode_detailed_postal_code := None;
     Raw.home_address_street := None;
     Raw.custom_sub_titles_with_rendering_flags := None;
     Raw.location_latitude := None; Raw.location_longitude := None;
     Raw.listing_title_text := None; Raw.description := None;
     Raw.bedrooms := None; Raw.bathrooms := None;
     Raw.unit_room_info := None;
     Raw.pdp_display_sections :=
       Some [Raw.Build_PdpSection
               (Some ((fun l => Raw.Build_PdpField (Some l)) <$> labels))];
     Raw.redacted_description_text := None;
     Raw.primary_listing_photo_uri := None; Raw.listing_photos_0_uri := None;
     Raw.marketplace_listing_title := None; Raw.custom_title := None;
     Raw.creation_time := None |}.

(** The keys that a trace of calls looks up, and the keys it writes, in
    order. *)
Definition lookedUp (trace : list DbCall) : list string :=
  omap (fun call => match call with
                    | FindUnique key => Some key
                    | _ => None
                    end) trace.

Definition written (trace : list DbCall) : list string :=
  omap (fun call => match call with
                    | FindUnique _ => None
                    | Create data => Some (DbData.id data)
                    | Update key _ => Some key
                    end) trace.


(** ** A line of a reply, as the specification words it

    A line reads the category [c] when it is, from left to right: an
    optional ordinal (digits and a point), spaces or tabs, the letters of
    [c] in any case, spaces or tabs. *)
Definition isSpaceOrTab (ch : ascii) : bool := Ascii.eqb ch " " || Ascii.eqb ch "009".

Definition isDecimalDigit (ch : ascii) : bool :=
  existsb (Ascii.eqb ch) (list_ascii_of_string "0123456789").

Definition isCapital (ch : ascii) : bool :=
  existsb (Ascii.eqb ch) (list_ascii_of_string "ABCDEFGHIJKLMNOPQRSTUVWXYZ").

(** The character [a] is [b], or the capital of the letter [b]. *)
Definition sameLetter (a b : ascii) : bool :=
  Ascii.eqb a b || (isCapital a && (JS.code a + 32 =? JS.code b)%N).

Fixpoint sameLetters (body c : string) : bool :=
  match body, c with
  | EmptyString, EmptyString => true
  | String a body', String b c' => sameLetter a b && sameLetters body' c'
  | _, _ => false
  end.

Definition isOrdinal (s : string) : Prop :=
  exists digits, s = digits +:+ "." /\ digits <> "" /\
                 allChars isDecimalDigit digits = true.

Definition reads (line c : string) : Prop :=
  exists ordinal before body after,
    line = ordinal +:+ before +:+ body +:+ after /\
    (ordinal = "" \/ isOrdinal ordinal) /\
    allChars isSpaceOrTab before = true /\
    allChars isSpaceOrTab after = true /\
    sameLetters body c = true.

(** The lines of a reply that are not empty, in order. *)
Definition nonEmptyLines (response : string) : list string :=
  List.filter (fun line => negb (String.eqb line ""))
    (JS.splitLines (JS.trim response)).

(** A document "L6" with a title and nothing else. *)
Definition titledItem (title : string) : Raw.item :=
  {| Raw.id := Some "L6"; Raw.listing_price_amount := None;
     Raw.location_reverse_geocode_city := None;
     Raw.location_reverse_geocode_state := None;
     Raw.reverse_geocode_detailed_city := None;
     Raw.reverse_geocode_detailed_state := None;
     Raw.reverse_geocode_detailed_postal_code := None;
     Raw.home_address_street := None;
     Raw.custom_sub_titles_with_rendering_flags := None;
     Raw.location_latitude := None; Raw.location_longitude := None;
     Raw.listing_title_text := Some title; Raw.description := None;
     Raw.bedrooms := None; Raw.bathrooms := None;
     Raw.unit_room_info := None; Raw.pdp_display_sections := None;
     Raw.redacted_description_text := None;
     Raw.primary_listing_photo_uri := None; Raw.listing_photos_0_uri := None;
     Raw.marketplace_listing_title := None; Raw.custom_title := None;
     Raw.creation_time := None |}.

(* ===================================================================== *)
(** * Properties: the patterns of [parseAIResponse]                       *)
(* ===================================================================== *)

Lemma string_app_cons (c : ascii) (s t : string) :
  String c s +:+ t = String c (s +:+ t).
Proof. reflexivity. Qed.

Lemma string_app_nil_l (s : string) : "" +:+ s = s.
Proof. reflexivity. Qed.

Lemma string_app_nil_r (s : string) : s +:+ "" = s.
Proof.
  induction s as [|c s IH]; [reflexivity|]. now rewrite string_app_cons, IH.
Qed.

Lemma string_app_assoc (s t u : string) : (s +:+ t) +:+ u = s +:+ (t +:+ u).
Proof.
  induction s as [|c s IH]; [reflexivity|]. now rewrite !string_app_cons, IH.
Qed.

Lemma string_app_empty (s t : string) : s +:+ t = "" -> s = "" /\ t = "".
Proof.
  destruct s; [intros Ht; split; [reflexivity | exact Ht] | discriminate].
Qed.

(** A greedy repetition takes the longest run first: when the rest of the
    pattern accepts what follows the run, that is the match. *)
Lemma re_star_from_greedy {A : Type} (p : ascii -> bool)
    (k : string -> string -> option A) (m : string) :
  forall (acc r : string) (x : A),
    allChars p m = true -> stopsAt p r = true ->
    k (acc +:+ m) r = Some x ->
    JS.re_star_from p k acc (m +:+ r) = Some x.
Proof.
  induction m as [|c m IH]; intros acc r x Hall Hstop Hk.
  - rewrite string_app_nil_r in Hk. rewrite string_app_nil_l.
    destruct r as [|c r]; [exact Hk|].
    cbn [stopsAt] in Hstop. cbn [JS.re_star_from]. now destruct (p c).
  - cbn [allChars] in Hall. apply andb_prop in Hall as [Hc Hall].
    rewrite string_app_cons. cbn [JS.re_star_from]. rewrite Hc.
    rewrite (IH (acc +:+ String c "") r x Hall Hstop); [reflexivity|].
    now rewrite string_app_assoc.
Qed.

(** [/^(.+)$/] accepts the non-empty lines without a line terminator, and
    its group is the whole line. *)
Lemma re_plus_dot_end (s : string) :
  forall acc : string,
    JS.re_star_from JS.isDot
      (fun m rest => match m with
                     | EmptyString => None
                     | _ => JS.re_end (Some m) rest
                     end) acc s =
    if allChars JS.isDot s
    then match acc +:+ s with EmptyString => None | t => Some t end
    else None.
Proof.
  induction s as [|c s IH]; intros acc.
  - cbn [JS.re_star_from allChars JS.re_end]. rewrite string_app_nil_r. now destruct acc.
  - cbn [JS.re_star_from allChars JS.re_end]. destruct (JS.isDot c); cbn [andb].
    + rewrite IH, string_app_assoc, string_app_cons, string_app_nil_l.
      destruct (allChars JS.isDot s).
      * destruct (acc +:+ String c s) eqn:Happ; [|reflexivity].
        apply string_app_empty in Happ as [_ Happ]. discriminate.
      * now destruct acc.
    + now destruct acc.
Qed.

Lemma matchPlain_spec (line : string) :
  matchPlain line =
  match line with
  | EmptyString => None
  | _ => if allChars JS.isDot line then Some line else None
  end.
Proof.
  unfold matchPlain, JS.re_plus, JS.re_star. rewrite re_plus_dot_end, string_app_nil_l.
  destruct line; [reflexivity|]. now destruct (allChars _ _).
Qed.

(** [/^\d+\.\s*(.+)$/] strips an ordinal: digits, a point and white space
    before a text that does not begin with white space. *)
Lemma matchNumbered_strip (digits spaces text : string) :
  digits <> "" -> allChars JS.isDigit digits = true ->
  allChars JS.isWhiteSpace spaces = true ->
  text <> "" -> stopsAt JS.isWhiteSpace text = true ->
  allChars JS.isDot text = true ->
  matchNumbered (digits +:+ "." +:+ spaces +:+ text) = Some text.
Proof.
  intros Hd Hdigits Hspaces Ht Hstop Hdot.
  unfold matchNumbered, JS.re_plus, JS.re_star.
  apply re_star_from_greedy; [assumption|reflexivity|]. rewrite string_app_nil_l.
  destruct digits as [|d ds]; [congruence|].
  rewrite string_app_cons, string_app_nil_l. cbn [JS.re_char]. rewrite Ascii.eqb_refl.
  apply re_star_from_greedy; [assumption|assumption|].
  rewrite <- (string_app_nil_r text) at 1.
  apply re_star_from_greedy; [assumption|reflexivity|]. rewrite string_app_nil_l.
  destruct text; [congruence|reflexivity].
Qed.

(** A line that does not begin with a digit has no ordinal to strip. *)
Lemma matchNumbered_no_digit (line : string) :
  stopsAt JS.isDigit line = true -> matchNumbered line = None.
Proof.
  unfold matchNumbered, JS.re_plus, JS.re_star.
  destruct line as [|c line]; [reflexivity|].
  cbn [stopsAt JS.re_star_from]. now destruct (JS.isDigit c).
Qed.

Lemma matchLine_plain (line : string) :
  stopsAt JS.isDigit line = true -> matchLine line = matchPlain line.
Proof. intros Hs. unfold matchLine. now rewrite matchNumbered_no_digit. Qed.

(** The patterns on sample lines: an ordinal is stripped, a plain line is
    taken whole, a line that ends in a carriage return is not matched. *)
Example matchLine_numbered :
  matchLine "12.  Studio Apartment" = Some "Studio Apartment".
Proof. reflexivity. Qed.

Example matchLine_whole : matchLine " 1bdr apartment " = Some " 1bdr apartment ".
Proof. reflexivity. Qed.

Example matchLine_carriage_return : matchLine ("bed" +:+ CR) = None.
Proof. reflexivity. Qed.

Example normalize_line : normalize " 1BDR Apartment " = "1bdr apartment".
Proof. reflexivity. Qed.

(* ===================================================================== *)
(** * Properties: what a pattern has matched when it succeeds             *)
(* ===================================================================== *)

Section RegexFacts.
Context {A : Type}.

Lemma re_search_Some (m : string -> option A) (s : string) (r : A) :
  JS.re_search m s = Some r -> exists s', m s' = Some r.
Proof.
  induction s as [|c s IH]; cbn [JS.re_search].
  - destruct (m "") eqn:Hm; [intros [= <-]; now exists "" | discriminate].
  - destruct (m (String c s)) eqn:Hm; [intros [= <-]; now exists (String c s) | exact IH].
Qed.

Lemma re_lit_ci_Some (lit : string) (k : string -> option A) :
  forall (s : string) (r : A),
    JS.re_lit_ci lit k s = Some r -> exists s', k s' = Some r.
Proof.
  induction lit as [|l lit IH]; intros s r; cbn [JS.re_lit_ci].
  - intros Hk. now exists s.
  - destruct s as [|c s]; [discriminate|].
    destruct (Ascii.eqb (JS.lowerChar c) l); [apply IH | discriminate].
Qed.

Lemma re_star_from_Some (p : ascii -> bool) (k : string -> string -> option A) :
  forall (s acc : string) (r : A),
    JS.re_star_from p k acc s = Some r -> exists m rest, k m rest = Some r.
Proof.
  induction s as [|c s IH]; intros acc r; cbn [JS.re_star_from].
  - intros Hk. now exists acc, "".
  - destruct (p c); [|intros Hk; now exists acc, (String c s)].
    destruct (JS.re_star_from p k (acc +:+ String c "") s) as [r'|] eqn:Hrec.
    + intros [= <-]. now apply IH in Hrec.
    + intros Hk. now exists acc, (String c s).
Qed.

Lemma re_plus_Some (p : ascii -> bool) (k : string -> string -> option A)
    (s : string) (r : A) :
  JS.re_plus p k s = Some r -> exists m rest, k m rest = Some r.
Proof.
  unfold JS.re_plus, JS.re_star. intros Hs.
  apply re_star_from_Some in Hs as (m & rest & Hk).
  destruct m as [|c m]; [discriminate|]. now exists (String c m), rest.
Qed.

Lemma re_count_from_Some (p : ascii -> bool) (k : string -> string -> option A) :
  forall (n : nat) (s acc : string) (r : A),
    JS.re_count_from n p k acc s = Some r ->
    exists m rest, k (acc +:+ m) rest = Some r /\
                   String.length m = n /\ allChars p m = true.
Proof.
  induction n as [|n IH]; intros s acc r; cbn [JS.re_count_from].
  - intros Hk. exists "", s. now rewrite string_app_nil_r.
  - destruct s as [|c s]; [discriminate|]. destruct (p c) eqn:Hc; [|discriminate].
    intros Hrec. apply IH in Hrec as (m & rest & Hk & Hlen & Hall).
    exists (String c m), rest. rewrite string_app_assoc in Hk.
    cbn [allChars String.length]. now rewrite Hc, Hall, Hlen.
Qed.

Lemma re_count_Some (n : nat) (p : ascii -> bool) (k : string -> string -> option A)
    (s : string) (r : A) :
  JS.re_count n p k s = Some r ->
  exists m rest, k m rest = Some r /\ String.length m = n /\ allChars p m = true.
Proof.
  unfold JS.re_count. intros Hs.
  apply re_count_from_Some in Hs as (m & rest & Hk & Hlen & Hall).
  rewrite string_app_nil_l in Hk. now exists m, rest.
Qed.

Lemma re_char_Some (c : ascii) (k : string -> option A) (s : string) (r : A) :
  JS.re_char c k s = Some r -> exists s', k s' = Some r.
Proof.
  destruct s as [|c' s]; cbn [JS.re_char]; [discriminate|].
  destruct (Ascii.eqb c c'); [|discriminate]. intros Hk. now exists s.
Qed.

(** A repetition that succeeds has handed a run of the class to the rest
    of the pattern. *)
Lemma re_star_from_run (p : ascii -> bool) (k : string -> string -> option A) :
  forall (s acc : string) (r : A),
    JS.re_star_from p k acc s = Some r ->
    exists m rest, allChars p m = true /\ k (acc +:+ m) rest = Some r.
Proof.
  induction s as [|c s IH]; intros acc r; cbn [JS.re_star_from].
  - intros Hk. exists "", "". now rewrite string_app_nil_r.
  - destruct (p c) eqn:Hc;
      [|intros Hk; exists "", (String c s); now rewrite string_app_nil_r].
    destruct (JS.re_star_from p k (acc +:+ String c "") s) as [r'|] eqn:Hrec.
    + intros [= <-]. apply IH in Hrec as (m & rest & Hm & Hk).
      exists (String c m), rest. rewrite string_app_assoc in Hk.
      cbn [allChars]. now rewrite Hc, Hm.
    + intros Hk. exists "", (String c s). now rewrite string_app_nil_r.
Qed.

End RegexFacts.

(* ===================================================================== *)
(** * Properties: the reply of the classifier                             *)
(* ===================================================================== *)

Lemma includesStr_In (l : list string) (x : string) :
  includesStr l x = true <-> In x l.
Proof.
  unfold includesStr. rewrite existsb_exists. split.
  - intros (y & Hy & Heq). apply String.eqb_eq in Heq. now subst.
  - intros Hx. exists x. split; [assumption | apply String.eqb_refl].
Qed.

Lemma lineCategory_Some (line c : string) :
  lineCategory line = Some c <->
  line <> "" /\ exists cap, matchLine line = Some cap /\ c = normalize cap
                            /\ In c VALID_CATEGORIES.
Proof.
  unfold lineCategory. split.
  - destruct line as [|a l]; [discriminate|].
    destruct (matchLine (String a l)) as [cap|]; [|discriminate].
    destruct (includesStr VALID_CATEGORIES (normalize cap)) eqn:Hv; [|discriminate].
    intros [= <-]. split; [discriminate|]. exists cap.
    split; [reflexivity|]. split; [reflexivity|]. now apply includesStr_In.
  - intros (Hne & cap & Hm & -> & Hin).
    destruct line as [|a l]; [congruence|].
    rewrite Hm. apply includesStr_In in Hin. now rewrite Hin.
Qed.

(** One round of the loop, by cases on the line it reads. *)
Lemma parseLines_step (lines : list string) (B i n : nat) (acc : list string) :
  parseLines lines B i (S n) acc =
  match lines !! i with
  | Some line =>
      match lineCategory line with
      | Some c => parseLines lines B (S i) n (acc ++ [c])
      | None =>
          match line with
          | EmptyString => Throw (MissingResponse (i + 1) B (length lines))
          | _ =>
              match matchLine line with
              | Some cap => Throw (InvalidCategory (i + 1) (normalize cap))
              | None => Throw (InvalidFormat (i + 1) line)
              end
          end
      end
  | None => Throw (MissingResponse (i + 1) B (length lines))
  end.
Proof.
  cbn [parseLines]. destruct (lines !! i) as [[|a l]|]; try reflexivity.
  unfold lineCategory. destruct (matchLine (String a l)) as [cap|]; [|reflexivity].
  now destruct (includesStr VALID_CATEGORIES (normalize cap)).
Qed.

Lemma parseLines_Ok (lines : list string) (B n : nat) :
  forall (i : nat) (acc cats : list string),
    parseLines lines B i n acc = Ok cats ->
    exists new, cats = acc ++ new /\ length new = n /\
      forall j, (j < n)%nat ->
        exists line c, lines !! (i + j)%nat = Some line /\ lineCategory line = Some c
                       /\ new !! j = Some c.
Proof.
  induction n as [|n IH]; intros i acc cats Hp.
  - simpl in Hp. injection Hp as <-. exists []. rewrite app_nil_r.
    repeat split; trivial. intros j Hj. lia.
  - rewrite parseLines_step in Hp.
    destruct (lines !! i) as [line|] eqn:Hl; [|discriminate].
    destruct (lineCategory line) as [c|] eqn:Hc.
    + apply IH in Hp as (new & -> & Hlen & Hall).
      exists (c :: new). rewrite <- app_assoc. simpl.
      repeat split; [now rewrite Hlen|].
      intros [|j] Hj.
      * exists line, c. now rewrite Nat.add_0_r.
      * destruct (Hall j ltac:(lia)) as (l' & c' & H1 & H2 & H3).
        exists l', c'. repeat split; trivial.
        now replace (i + S j)%nat with (S i + j)%nat by lia.
    + destruct line; [discriminate|]. now destruct (matchLine _).
Qed.

Lemma parseLines_complete (lines : list string) (B n : nat) :
  forall (i : nat) (acc : list string),
    (forall j, (j < n)%nat ->
       exists line c, lines !! (i + j)%nat = Some line /\ lineCategory line = Some c) ->
    exists new, parseLines lines B i n acc = Ok (acc ++ new) /\ length new = n.
Proof.
  induction n as [|n IH]; intros i acc Hall.
  - exists []. now rewrite app_nil_r.
  - rewrite parseLines_step.
    destruct (Hall 0%nat ltac:(lia)) as (line & c & Hl & Hc).
    rewrite Nat.add_0_r in Hl. rewrite Hl, Hc.
    destruct (IH (S i) (acc ++ [c])) as (new & Hp & Hlen).
    { intros j Hj. destruct (Hall (S j) ltac:(lia)) as (l' & c' & H1 & H2).
      exists l', c'. split; trivial.
      now replace (S i + j)%nat with (i + S j)%nat by lia. }
    exists (c :: new). rewrite Hp, <- app_assoc. simpl. now rewrite Hlen.
Qed.

(** A throw of the loop comes from the first line that is missing, empty
    or without a category. *)
Lemma parseLines_Throw (lines : list string) (B n : nat) :
  forall (i : nat) (acc : list string) (e : ClassifierError),
    parseLines lines B i n acc = Throw e ->
    exists j, (j < n)%nat /\ failsAt lines (i + j) e.
Proof.
  induction n as [|n IH]; intros i acc e Hp; [discriminate|].
  rewrite parseLines_step in Hp.
  destruct (lines !! i) as [line|] eqn:Hl.
  - destruct (lineCategory line) as [c|] eqn:Hc.
    + apply IH in Hp as (j & Hj & Hf). exists (S j). split; [lia|].
      now replace (i + S j)%nat with (S i + j)%nat by lia.
    + exists 0%nat. split; [lia|]. rewrite Nat.add_0_r.
      destruct line as [|a l].
      * injection Hp as <-. left. split; [exact I | now right].
      * right. split.
        { destruct (matchLine (String a l)); now injection Hp as <-. }
        exists (String a l). split; [assumption|]. split; [discriminate|assumption].
  - injection Hp as <-. exists 0%nat. split; [lia|]. rewrite Nat.add_0_r.
    left. split; [exact I | now left].
Qed.

(** The final comparison of lengths in [parseAIResponse] cannot fail. *)
Lemma parseAIResponse_loop (response : string) (B : nat) :
  parseAIResponse response B =
  parseLines (JS.splitLines (JS.trim response)) B 0 B [].
Proof.
  unfold parseAIResponse.
  destruct (parseLines _ B 0 B []) as [cats|e] eqn:Hp; [|reflexivity].
  apply parseLines_Ok in Hp as (new & -> & Hlen & _). simpl.
  now rewrite Hlen, Nat.eqb_refl.
Qed.

(** A blank line among the first lines, or a line that ends in a carriage
    return, fails the batch. *)
Example blank_line_is_missing :
  parseAIResponse ("bed" +:+ LF +:+ LF +:+ "bed") 2 = Throw (MissingResponse 2 2 3).
Proof. reflexivity. Qed.

Example carriage_return_is_rejected :
  parseAIResponse ("bed" +:+ CR +:+ LF +:+ "bed") 2
    = Throw (InvalidFormat 1 ("bed" +:+ CR)).
Proof. reflexivity. Qed.

(* ===================================================================== *)
(** * Properties: the importer and the store                              *)
(* ===================================================================== *)

Section ImporterFacts.
Context `{Host}.

(** The three ways through the body of the loop. *)
Lemma importItem_skip (r : Run) (item : Raw.item) :
  JS.truthyStr (Raw.id item) = false ->
  importItem r item = bump countSkipped (bump countProcessed r).
Proof.
  unfold importItem. cbn [buildListing ListingData.id].
  destruct (Raw.id item) as [[|c s]|]; [reflexivity|discriminate|reflexivity].
Qed.

Lemma importItem_update (r : Run) (item : Raw.item) (key : string)
    (existing : Listing.t) :
  Raw.id item = Some key -> key <> "" ->
  listings (db r) !! key = Some existing ->
  importItem r item =
  {| db := putListing key (updateRecord existing (buildDbData item key)) (db r);
     stats := countUpdated (countProcessed (stats r));
     calls := calls r ++ [FindUnique key; Update key (buildDbData item key)];
     console := console r ++ priceChangeLog key existing (buildDbData item key) |}.
Proof.
  intros Hid Hne Hex. unfold importItem. cbn [buildListing ListingData.id].
  rewrite Hid. destruct key as [|c s]; [congruence|].
  cbn [bump db stats calls console]. now rewrite Hex.
Qed.

Lemma importItem_create (r : Run) (item : Raw.item) (key : string) :
  Raw.id item = Some key -> key <> "" ->
  listings (db r) !! key = None ->
  importItem r item =
  {| db := putListing key (createRecord (buildDbData item key)) (db r);
     stats := countNew (countProcessed (stats r));
     calls := calls r ++ [FindUnique key; Create (buildDbData item key)];
     console := console r |}.
Proof.
  intros Hid Hne Hex. unfold importItem. cbn [buildListing ListingData.id].
  rewrite Hid. destruct key as [|c s]; [congruence|].
  cbn [bump db stats calls console]. now rewrite Hex.
Qed.

(** No statement of the importer writes to [PriceHistory]. *)
Lemma importItem_priceHistory (r : Run) (item : Raw.item) :
  priceHistory (db (importItem r item)) = priceHistory (db r).
Proof.
  unfold importItem. cbn [buildListing ListingData.id].
  destruct (Raw.id item) as [[|c s]|]; try reflexivity.
  cbn [bump db]. now destruct (listings (db r) !! String c s).
Qed.

Lemma importListings_priceHistory (items : list Raw.item) (d : Database) :
  priceHistory (db (importListings items d)) = priceHistory d.
Proof.
  unfold importListings.
  set (r0 := {| db := d; stats := ImportStats.zero; calls := []; console := [] |}).
  change (priceHistory d) with (priceHistory (db r0)).
  generalize r0. induction items as [|item items IH]; intros r; [reflexivity|].
  simpl. rewrite IH. apply importItem_priceHistory.
Qed.

Lemma importItem_keyed (r : Run) (item : Raw.item) :
  keyed (listings (db r)) -> keyed (listings (db (importItem r item))).
Proof.
  intros Hk. unfold importItem. cbn [buildListing ListingData.id].
  destruct (Raw.id item) as [[|c s]|]; try exact Hk.
  cbn [bump db].
  destruct (listings (db r) !! String c s); cbn [db putListing listings];
    intros k row; rewrite lookup_insert; case_decide; subst;
    try (intros [= <-]; reflexivity); apply Hk.
Qed.

Lemma importListings_keyed (items : list Raw.item) (d : Database) :
  keyed (listings d) -> keyed (listings (db (importListings items d))).
Proof.
  unfold importListings.
  set (r0 := {| db := d; stats := ImportStats.zero; calls := []; console := [] |}).
  change (listings d) with (listings (db r0)).
  generalize r0. induction items as [|item items IH]; intros r Hk; [exact Hk|].
  simpl. apply IH. now apply importItem_keyed.
Qed.

(** No row is ever filed under the empty id. *)
Lemma importItem_empty_key (r : Run) (item : Raw.item) :
  listings (db (importItem r item)) !! "" = listings (db r) !! "".
Proof.
  unfold importItem. cbn [buildListing ListingData.id].
  destruct (Raw.id item) as [[|c s]|]; try reflexivity.
  cbn [bump db].
  destruct (listings (db r) !! String c s); cbn [db putListing listings];
    now rewrite lookup_insert_ne.
Qed.

Lemma importListings_empty_key (items : list Raw.item) (d : Database) :
  listings (db (importListings items d)) !! "" = listings d !! "".
Proof.
  unfold importListings.
  set (r0 := {| db := d; stats := ImportStats.zero; calls := []; console := [] |}).
  change (listings d) with (listings (db r0)).
  generalize r0. induction items as [|item items IH]; intros r; [reflexivity|].
  simpl. rewrite IH. apply importItem_empty_key.
Qed.

(** C8. A document without an id (missing or empty) is counted as processed
    and as skipped, and that is all: the database is as before and no call
    ([findUnique], [create], [update]) is made on the store for it. *)
Theorem document_without_id_is_skipped (r : Run) (item : Raw.item) :
  JS.truthyStr (Raw.id item) = false ->
  let r' := importItem r item in
  db r' = db r /\ calls r' = calls r /\ console r' = console r /\
  ImportStats.skippedListings (stats r') = S (ImportStats.skippedListings (stats r)) /\
  ImportStats.totalProcessed (stats r') = S (ImportStats.totalProcessed (stats r)) /\
  ImportStats.newListings (stats r') = ImportStats.newListings (stats r) /\
  ImportStats.updatedListings (stats r') = ImportStats.updatedListings (stats r) /\
  ImportStats.errors (stats r') = ImportStats.errors (stats r).
Proof.
  intros Hid r'. subst r'. rewrite (importItem_skip r item Hid).
  repeat split; reflexivity.
Qed.

(** C4. An update of an existing listing is a sparse merge.  Each optional
    column takes the candidate's value when the candidate has one (a
    non-empty string, a non-zero count or coordinate, a non-empty list of
    amenities, a date) and keeps the stored value otherwise.  The price, the
    pet flag (never null) and the computed category are values that every
    candidate has; the columns that the importer does not know are kept. *)
Theorem update_is_sparse_merge (r : Run) (item : Raw.item) (key : string)
    (existing : Listing.t) :
  Raw.id item = Some key -> key <> "" ->
  listings (db r) !! key = Some existing ->
  let city := resolvedCity item in
  let state := resolvedState item in
  exists row,
    listings (db (importItem r item)) !! key = Some row /\
    Listing.id row = key /\
    Listing.listingTitle row =
      mergeStr (firstStr (Raw.marketplace_listing_title item) (Raw.custom_title item))
        (Listing.listingTitle existing) /\
    Listing.city row = mergeStr city (Listing.city existing) /\
    Listing.state row = mergeStr state (Listing.state existing) /\
    Listing.postalCode row =
      mergeStr (JS.orStr (Raw.reverse_geocode_detailed_postal_code item) "")
        (Listing.postalCode existing) /\
    Listing.streetAddress row =
      mergeStr (extractStreetAddress item city state) (Listing.streetAddress existing) /\
    Listing.description row =
      mergeStr (JS.orStr (Raw.redacted_description_text item) "")
        (Listing.description existing) /\
    Listing.imageUrl row =
      mergeStr (firstStr (Raw.primary_listing_photo_uri item) (Raw.listing_photos_0_uri item))
        (Listing.imageUrl existing) /\
    Listing.latitude row = mergeNum (Raw.location_latitude item) (Listing.latitude existing) /\
    Listing.longitude row = mergeNum (Raw.location_longitude item) (Listing.longitude existing) /\
    Listing.bedrooms row = mergeCount (fst (extractRooms item)) (Listing.bedrooms existing) /\
    Listing.bathrooms row = mergeCount (snd (extractRooms item)) (Listing.bathrooms existing) /\
    Listing.amenities row =
      match extractAmenities item with
      | [] => Listing.amenities existing
      | found => found
      end /\
    Listing.availableDate row =
      match extractAvailableDate item with
      | Some date => Some date
      | None => Listing.availableDate existing
      end /\
    Listing.listedDate row =
      match Raw.creation_time item with
      | Some (String c s) => DateOf (String c s)
      | _ => Listing.listedDate existing
      end /\
    Listing.price row =
      toFixed2 (Num.div (priceInCents (Raw.listing_price_amount item)) (Num.ofZ 100)) /\
    Listing.petFriendly row = Some (extractPetFriendly item) /\
    Listing.ai_category_v1 row =
      Some (determineListingCategory
              (Some (JS.orStr (Raw.redacted_description_text item) ""))
              (fst (extractRooms item))) /\
    Listing.squareFeet row = Listing.squareFeet existing /\
    Listing.listingUrl row = Listing.listingUrl existing /\
    Listing.country row = Listing.country existing.
Proof.
  intros Hid Hne Hex city state.
  rewrite (importItem_update r item key existing Hid Hne Hex).
  cbn [db putListing listings]. rewrite lookup_insert_eq. eexists. split; [reflexivity|].
  unfold updateRecord, buildDbData, mergeStr, mergeCount, mergeNum, whenStr, setOpt, orNoneZ,
    orNoneNum, truthyNum.
  cbn [Listing.id Listing.listingTitle Listing.price Listing.city Listing.state
       Listing.postalCode Listing.streetAddress Listing.latitude Listing.longitude
       Listing.squareFeet Listing.bedrooms Listing.bathrooms Listing.description
       Listing.amenities Listing.petFriendly Listing.availableDate Listing.listedDate
       Listing.ai_category_v1 Listing.imageUrl Listing.listingUrl Listing.country
       DbData.id DbData.price DbData.listingTitle DbData.city DbData.state
       DbData.postalCode DbData.streetAddress DbData.description DbData.latitude
       DbData.longitude DbData.bedrooms DbData.bathrooms DbData.amenities
       DbData.petFriendly DbData.availableDate DbData.imageUrl DbData.listedDate
       DbData.ai_category_v1 buildListing ListingData.listingTitle
       ListingData.description ListingData.imageUrl ListingData.latitude
       ListingData.longitude].
  fold city state.
  repeat match goal with |- _ /\ _ => split end; try reflexivity.
  - now destruct (firstStr _ _).
  - now destruct city.
  - now destruct state.
  - now destruct (JS.orStr _ _).
  - now destruct (extractStreetAddress _ _ _).
  - now destruct (JS.orStr _ _).
  - now destruct (firstStr _ _).
  - destruct (Raw.location_latitude item) as [x|]; [|reflexivity].
    unfold orNoneNum, truthyNum. now destruct (Num.truthy x).
  - destruct (Raw.location_longitude item) as [x|]; [|reflexivity].
    unfold orNoneNum, truthyNum. now destruct (Num.truthy x).
  - destruct (fst (extractRooms item)) as [z|]; [|reflexivity].
    cbn [truthyZ]. now destruct (z =? 0).
  - destruct (snd (extractRooms item)) as [z|]; [|reflexivity].
    cbn [truthyZ]. now destruct (z =? 0).
  - destruct (extractAmenities item); reflexivity.
  - destruct (Raw.creation_time item) as [[|c s]|]; reflexivity.
Qed.

End ImporterFacts.

Lemma document_without_id_is_skipped_witness :
  db (@importItem (sampleHost None) (newRun (sampleDatabase [halifaxRow]))
        (sampleItem (Some "") (Some "1500")))
    = sampleDatabase [halifaxRow] /\
  calls (@importItem (sampleHost None) (newRun (sampleDatabase [halifaxRow]))
           (sampleItem None (Some "1500"))) = [] /\
  ImportStats.skippedListings
    (stats (@importItem (sampleHost None) (newRun (sampleDatabase [halifaxRow]))
              (sampleItem None (Some "1500")))) = 1%nat.
Proof.
  split; [|split].
  - exact (proj1 (@document_without_id_is_skipped (sampleHost None)
                    (newRun (sampleDatabase [halifaxRow]))
                    (sampleItem (Some "") (Some "1500")) eq_refl)).
  - exact (proj1 (proj2 (@document_without_id_is_skipped (sampleHost None)
                           (newRun (sampleDatabase [halifaxRow]))
                           (sampleItem None (Some "1500")) eq_refl))).
  - exact (proj1 (proj2 (proj2 (proj2 (@document_without_id_is_skipped (sampleHost None)
                           (newRun (sampleDatabase [halifaxRow]))
                           (sampleItem None (Some "1500")) eq_refl))))).
Defined.

(** The scenario of the specification: the stored city survives an empty
    incoming city, the incoming bedroom count replaces the stored one. *)
Lemma update_is_sparse_merge_witness :
  exists row,
    listings (db (@importItem (sampleHost None) (newRun (sampleDatabase [halifaxRow]))
                    threeBedroomItem)) !! "L1" = Some row /\
    Listing.city row = Some "Halifax" /\ Listing.bedrooms row = Some 3.
Proof.
  destruct (@update_is_sparse_merge (sampleHost None)
              (newRun (sampleDatabase [halifaxRow])) threeBedroomItem "L1" halifaxRow
              eq_refl ltac:(discriminate) eq_refl)
    as (row & Hrow & _ & _ & Hcity & _ & _ & _ & _ & _ & _ & _ & Hbed & _).
  exists row. split; [exact Hrow|]. split.
  - rewrite Hcity. reflexivity.
  - rewrite Hbed. reflexivity.
Defined.

(** C1. The importer at a changed price: the listing "L1" is stored at
    1200.00 and comes in at 1250; the run finds it, logs the change and
    writes the new price, and the table [PriceHistory] has no row after
    it, where the claim wants exactly one, carrying 1250.00. *)
Lemma import_price_change_appends_no_history :
  Listing.price <$> listings (db priceChangeRun) !! "L1" = Some "1250.00" /\
  console priceChangeRun = [PriceChange "L1" "1200.00" "1250.00"] /\
  ImportStats.updatedListings (stats priceChangeRun) = 1%nat /\
  priceHistory (sampleDatabase [sampleRow "L1" "1200.00" (Some "other")]) = [] /\
  priceHistory (db priceChangeRun) = [].
Proof. vm_compute. repeat split; reflexivity. Qed.

(* ===================================================================== *)
(** * Properties: the classification sweep                                *)
(* ===================================================================== *)

Lemma mapSet_keys (k v : string) (m : list (string * string)) (k' : string) :
  k' ∈ (mapSet k v m).*1 -> k' = k \/ k' ∈ m.*1.
Proof.
  induction m as [|[k0 v0] m IH]; simpl.
  - rewrite elem_of_cons. intros [->|Hin]; [now left | now right].
  - destruct (String.eqb k k0) eqn:Hk; simpl; rewrite !elem_of_cons.
    + intros [->|Hin]; [now left | right; now right].
    + intros [->|Hin]; [right; now left|].
      destruct (IH Hin) as [->|Hm]; [now left | right; now right].
Qed.

Lemma categoryMap_keys (pairs : list (Listing.t * string)) :
  forall (m : list (string * string)) (k : string),
    k ∈ (fold_left (fun m lc => mapSet (Listing.id (fst lc)) (snd lc) m) pairs m).*1 ->
    k ∈ m.*1 \/ k ∈ (Listing.id <$> pairs.*1).
Proof.
  induction pairs as [|[row c] pairs IH]; intros m k Hk; simpl in *; [now left|].
  rewrite elem_of_cons. destruct (IH _ _ Hk) as [Hm|Hp]; [|right; now right].
  destruct (mapSet_keys _ _ _ _ Hm) as [->|Hm']; [right; now left | now left].
Qed.

Lemma mapSet_fresh (k v : string) (m : list (string * string)) :
  k ∉ m.*1 -> mapSet k v m = m ++ [(k, v)].
Proof.
  induction m as [|[k0 v0] m IH]; simpl; [reflexivity|].
  rewrite not_elem_of_cons. intros [Hne Hk].
  destruct (String.eqb k k0) eqn:Heq; [apply String.eqb_eq in Heq; congruence|].
  now rewrite IH.
Qed.

(** With distinct ids the map of [processBatch] lists the batch in order. *)
Lemma categoryMap_NoDup (pairs : list (Listing.t * string)) :
  forall m : list (string * string),
    NoDup (m.*1 ++ (Listing.id <$> pairs.*1)) ->
    fold_left (fun m lc => mapSet (Listing.id (fst lc)) (snd lc) m) pairs m =
    m ++ ((fun lc => (Listing.id (fst lc), snd lc)) <$> pairs).
Proof.
  induction pairs as [|[row c] pairs IH]; intros m Hnd; simpl.
  - now rewrite app_nil_r.
  - simpl in Hnd. apply NoDup_app in Hnd as (Hm & Hdisj & Hp).
    apply NoDup_cons in Hp as [Hrow Hp].
    assert (Hfresh : Listing.id row ∉ m.*1).
    { intros Hin. apply (Hdisj _ Hin). now left. }
    rewrite (mapSet_fresh _ _ _ Hfresh), IH; [now rewrite <- app_assoc|].
    rewrite fmap_app. simpl. rewrite <- app_assoc. simpl.
    apply NoDup_app. split; [assumption|]. split.
    + intros x Hx. rewrite not_elem_of_cons. split.
      * intros ->. contradiction.
      * intros Hin. apply (Hdisj _ Hx). now right.
    + now apply NoDup_cons.
Qed.

Section SweepFacts.
Context `{Host}.

Lemma processBatch_keys (batch : list Listing.t) (m : list (string * string)) (k : string) :
  processBatch batch = Ok m -> k ∈ m.*1 -> k ∈ (Listing.id <$> batch).
Proof.
  unfold processBatch. destruct (generateContent batch) as [response|]; [|discriminate].
  destruct (parseAIResponse response (length batch)) as [cats|e]; [|discriminate].
  intros [= <-] Hk. apply categoryMap_keys in Hk as [Hk|Hk].
  - simpl in Hk. now apply elem_of_nil in Hk.
  - apply list_elem_of_fmap in Hk as (row & -> & Hrow).
    apply list_elem_of_fmap in Hrow as ([row' c] & -> & Hin). simpl.
    apply list_elem_of_fmap_2. now apply elem_of_zip_l in Hin.
Qed.

(** The update loop writes to the rows named by the map and to no other. *)
Lemma applyCategories_other (entries : list (string * string)) :
  forall (s s' : Sweep) (e : option ClassifierError) (k : string),
    applyCategories entries s = (s', e) -> k ∉ entries.*1 ->
    table s' !! k = table s !! k.
Proof.
  induction entries as [|[id c] entries IH]; intros s s' e k Ha Hk; simpl in *.
  - now injection Ha as <- _.
  - apply not_elem_of_cons in Hk as [Hne Hk].
    destruct (table s !! id) as [row|]; [|now injection Ha as <- _].
    rewrite (IH _ _ _ _ Ha Hk). simpl. now apply lookup_insert_ne.
Qed.

Lemma categorizeBatch_other (batch : list Listing.t) (s : Sweep) (k : string) :
  k ∉ (Listing.id <$> batch) ->
  table (categorizeBatch batch s) !! k = table s !! k.
Proof.
  intros Hk. unfold categorizeBatch.
  destruct (processBatch batch) as [m|e] eqn:Hp; [|reflexivity].
  destruct (applyCategories m s) as [s' [e|]] eqn:Ha; simpl;
    apply (applyCategories_other _ _ _ _ _ Ha);
    intros Hin; apply Hk; now apply (processBatch_keys batch m).
Qed.

Lemma batchLoop_other (fuel : nat) :
  forall (rest : list Listing.t) (s : Sweep) (k : string),
    k ∉ (Listing.id <$> rest) ->
    table (batchLoop fuel rest s) !! k = table s !! k.
Proof.
  induction fuel as [|fuel IH]; intros rest s k Hk; [reflexivity|].
  destruct rest as [|row rest]; [reflexivity|].
  cbn [batchLoop]. rewrite IH.
  - apply categorizeBatch_other. intros Hin. apply Hk.
    apply list_elem_of_fmap in Hin as (row' & -> & Hin).
    apply list_elem_of_fmap_2. now apply (subseteq_take 50).
  - intros Hin. apply Hk.
    apply list_elem_of_fmap in Hin as (row' & -> & Hin).
    apply list_elem_of_fmap_2. now apply (subseteq_drop 50).
Qed.

(** With distinct, stored ids the update loop runs to its end and writes
    every entry of the map. *)
Lemma applyCategories_all (entries : list (string * string)) :
  forall s : Sweep,
    NoDup entries.*1 ->
    (forall k, k ∈ entries.*1 -> is_Some (table s !! k)) ->
    exists s',
      applyCategories entries s = (s', None) /\
      totalProcessed s' = (totalProcessed s + length entries)%nat /\
      totalErrors s' = totalErrors s /\
      forall k c, (k, c) ∈ entries ->
        exists row, table s !! k = Some row /\
                    table s' !! k = Some (setCategory c row).
Proof.
  induction entries as [|[id c] entries IH]; intros s Hnd Hall; simpl.
  - exists s. repeat split; [lia|]. intros k c Hin. now apply elem_of_nil in Hin.
  - simpl in Hnd. apply NoDup_cons in Hnd as [Hfresh Hnd].
    destruct (Hall id) as [row Hrow]; [now left|]. rewrite Hrow.
    set (s1 := {| table := <[id := setCategory c row]> (table s);
                  totalProcessed := S (totalProcessed s);
                  totalErrors := totalErrors s |}).
    destruct (IH s1 Hnd) as (s' & Ha & Hp & He & Hw).
    { intros k Hk. simpl. rewrite lookup_insert_ne; [apply Hall; now right|].
      intros ->. contradiction. }
    exists s'. split; [exact Ha|]. split; [simpl in Hp; lia|]. split; [exact He|].
    intros k c' Hin. apply elem_of_cons in Hin as [[= -> ->]|Hin].
    + exists row. split; [exact Hrow|].
      rewrite (applyCategories_other _ _ _ _ _ Ha Hfresh). simpl.
      apply lookup_insert_eq.
    + destruct (Hw k c' Hin) as (row' & Hk & Hk'). exists row'. split; [|exact Hk'].
      simpl in Hk. rewrite lookup_insert_ne in Hk; [exact Hk|].
      intros ->. apply Hfresh. now apply (list_elem_of_fmap_2 fst _ (k, c')).
Qed.

(** A batch whose reply parses is written in full, when its rows have
    distinct ids and are in the table. *)
Lemma categorizeBatch_applies (batch : list Listing.t) (s : Sweep) (response : string)
    (categories : list string) :
  generateContent batch = Some response ->
  parseAIResponse response (length batch) = Ok categories ->
  NoDup (Listing.id <$> batch) ->
  (forall b, b ∈ batch -> is_Some (table s !! Listing.id b)) ->
  totalProcessed (categorizeBatch batch s) = (totalProcessed s + length batch)%nat /\
  totalErrors (categorizeBatch batch s) = totalErrors s /\
  forall i b c, batch !! i = Some b -> categories !! i = Some c ->
    exists row, table s !! Listing.id b = Some row /\
                table (categorizeBatch batch s) !! Listing.id b = Some (setCategory c row).
Proof.
  intros Hg Hp Hnd Hall.
  assert (Hlen : length categories = length batch).
  { rewrite parseAIResponse_loop in Hp.
    now apply parseLines_Ok in Hp as (new & -> & Hlen & _). }
  set (m := (fun lc : Listing.t * string => (Listing.id (fst lc), snd lc))
              <$> zip batch categories).
  assert (Hkeys : m.*1 = Listing.id <$> batch).
  { unfold m. rewrite <- (fst_zip batch categories) at 2 by lia.
    rewrite <- !list_fmap_compose. reflexivity. }
  assert (Hpb : processBatch batch = Ok m).
  { unfold processBatch. rewrite Hg, Hp, categoryMap_NoDup; [reflexivity|].
    simpl. rewrite fst_zip; [assumption | lia]. }
  destruct (applyCategories_all m s) as (s' & Ha & Hproc & Herr & Hw).
  { now rewrite Hkeys. }
  { intros k Hk. rewrite Hkeys in Hk.
    apply list_elem_of_fmap in Hk as (b & -> & Hb). now apply Hall. }
  unfold categorizeBatch. rewrite Hpb, Ha.
  split; [rewrite Hproc; unfold m; now rewrite length_fmap, length_zip_with_l_eq by lia|].
  split; [exact Herr|].
  intros i b c Hb Hc. apply (Hw (Listing.id b) c).
  unfold m. apply (list_elem_of_fmap_2' _ _ (b, c)); [|reflexivity].
  apply (list_elem_of_lookup_2 _ i). rewrite lookup_zip_with, Hb. simpl. now rewrite Hc.
Qed.

(** Enough fuel: with one round per remaining row the batch loop runs to
    the end of the list; more fuel changes nothing. *)
Lemma batchLoop_fuel (fuel : nat) :
  forall (fuel' : nat) (rest : list Listing.t) (s : Sweep),
    (length rest <= fuel)%nat -> (length rest <= fuel')%nat ->
    batchLoop fuel rest s = batchLoop fuel' rest s.
Proof.
  induction fuel as [|fuel IH]; intros fuel' rest s Hlen Hlen'.
  - destruct rest; [now destruct fuel' | simpl in Hlen; lia].
  - destruct rest as [|row rest]; [now destruct fuel'|].
    destruct fuel' as [|fuel']; [simpl in Hlen'; lia|].
    cbn [batchLoop]. apply IH; rewrite length_drop; simpl in *; lia.
Qed.

(** The sweep leaves every row with a non-empty category as it is. *)
Lemma categorizeAllListings_keeps (d : Database) (k : string) (row : Listing.t) :
  keyed (listings d) -> listings d !! k = Some row -> needsCategory row = false ->
  table (categorizeAllListings d) !! k = Some row.
Proof.
  intros Hkeyed Hrow Hcat. unfold categorizeAllListings.
  rewrite batchLoop_other; [exact Hrow|].
  intros Hin. apply list_elem_of_fmap in Hin as (row' & Hid & Hin).
  apply list_elem_of_In, filter_In in Hin as [Hin Hneeds].
  apply list_elem_of_In, list_elem_of_fmap in Hin as ([k' row''] & -> & Hin).
  apply elem_of_map_to_list in Hin. simpl in *.
  rewrite (Hkeyed _ _ Hin) in Hid. subst k'.
  congruence.
Qed.

(** The rows handed to the oracle are exactly the stored rows whose
    category is null or empty. *)
Lemma categorizeAllListings_selects (d : Database) (row : Listing.t) :
  In row (List.filter needsCategory (snd <$> map_to_list (listings d))) <->
  (exists k, listings d !! k = Some row) /\
  (Listing.ai_category_v1 row = None \/ Listing.ai_category_v1 row = Some "").
Proof.
  rewrite filter_In, <- list_elem_of_In, list_elem_of_fmap. split.
  - intros [([k row'] & -> & Hin) Hneeds]. apply elem_of_map_to_list in Hin.
    split; [now exists k|]. simpl in *. unfold needsCategory in Hneeds.
    destruct (Listing.ai_category_v1 row') as [[|c s]|]; auto; discriminate.
  - intros [[k Hk] Hcat]. split.
    + exists (k, row). split; [reflexivity|]. now apply elem_of_map_to_list.
    + unfold needsCategory. now destruct Hcat as [-> | ->].
Qed.

End SweepFacts.

(* ===================================================================== *)
(** * Properties: a batch is written in full or not at all                *)
(* ===================================================================== *)

Lemma categorizeBatch_Throw `{Host} (batch : list Listing.t) (s : Sweep)
    (response : string) (e : ClassifierError) :
  generateContent batch = Some response ->
  parseAIResponse response (length batch) = Throw e ->
  categorizeBatch batch s =
  {| table := table s; totalProcessed := totalProcessed s;
     totalErrors := totalErrors s + length batch |}.
Proof.
  intros Hg Hp. unfold categorizeBatch, processBatch. now rewrite Hg, Hp.
Qed.



(* ===================================================================== *)
(** * Properties: the sample database                                     *)
(* ===================================================================== *)

Lemma sampleDatabase_keyed (rows : list Listing.t) :
  keyed (listings (sampleDatabase rows)).
Proof.
  intros k row Hk. simpl in Hk. apply elem_of_list_to_map_2 in Hk.
  apply list_elem_of_fmap in Hk as (row' & Heq & _). now injection Heq as -> ->.
Qed.

(* ===================================================================== *)
(** * Properties: the deterministic categorizer                           *)
(* ===================================================================== *)

(** Decide the tests of a cascade of conditionals one after the other. *)
Ltac by_tests :=
  repeat match goal with
         | |- (if ?b then _ else _) = _ => destruct b; [reflexivity|]
         end.

(** C5, as stated, fails on a bedroom count of zero: the count is known,
    no keyword rule fires before rule 5, and the categorizer answers
    [unknown] where the rules as stated give ["0bdr apartment"]. *)
Lemma zero_bedrooms_is_not_a_count :
  determineListingCategory (Some "Bright flat near campus") (Some 0) = "unknown" /\
  categorizeByRules knownCountRule (Some "Bright flat near campus") (Some 0)
    = "0bdr apartment".
Proof. split; vm_compute; reflexivity. Qed.

(** C5, amended.  The categorizer is the first match over the rules in the
    order of the specification, rule 5 firing on a bedroom count that is
    known and not zero; and it gives the categories of the five worked
    scenarios. *)
Theorem categorizer_is_first_match :
  (forall (description : option string) (bedrooms : option Z),
      determineListingCategory description bedrooms =
      categorizeByRules nonzeroCountRule description bedrooms) /\
  determineListingCategory (Some "Cozy studio apartment downtown") None
    = "studio apartment" /\
  determineListingCategory (Some "Shared room in house, $500/mo") None = "bed" /\
  determineListingCategory (Some "Spacious 2 bedroom with parking") (Some 2)
    = "2bdr apartment" /\
  determineListingCategory (Some "Available for Airbnb, nightly rate") None = "airbnb" /\
  determineListingCategory (Some "") None = "unknown" /\
  determineListingCategory None None = "unknown".
Proof.
  split; [|repeat split; vm_compute; reflexivity].
  intros [[|c s]|] bedrooms; try reflexivity.
  unfold determineListingCategory, categorizeByRules, categorizerRules.
  set (desc := JS.toLowerCase (String c s)).
  unfold keywordRule, nonzeroCountRule. cbn [firstMatch existsb].
  rewrite !orb_false_r, !orb_assoc.
  by_tests.
  destruct bedrooms as [n|]; cbn [truthyZ default];
    [destruct (n =? 0); cbn [negb]|]; try reflexivity; by_tests; reflexivity.
Qed.

(* ===================================================================== *)
(** * Properties: the price is a number                                   *)
(* ===================================================================== *)











(* ===================================================================== *)
(** * Properties: the value of a number                                   *)
(* ===================================================================== *)

(** The number of binary digits of a positive integer. *)
Lemma digits2_pos_bounds (p : positive) :
  2 ^ (Z.pos (digits2_pos p) - 1) <= Z.pos p < 2 ^ Z.pos (digits2_pos p).
Proof.
  induction p as [p IH|p IH|]; cbn [digits2_pos]; [| |cbn; lia];
    change (PosDef.Pos.succ (digits2_pos p)) with (Pos.succ (digits2_pos p));
    rewrite Pos2Z.inj_succ;
    replace (Z.succ (Z.pos (digits2_pos p)) - 1) with (Z.succ (Z.pos (digits2_pos p) - 1))
      by lia;
    rewrite !Z.pow_succ_r by lia; lia.
Qed.


(** Doubling [d] times. *)
Lemma iter_xO_value (p d : positive) :
  Z.pos (Pos.iter xO p d) = Z.pos p * 2 ^ Z.pos d /\
  digits2_pos (Pos.iter xO p d) = (digits2_pos p + d)%positive.
Proof.
  induction d as [|d IH] using Pos.peano_ind.
  - cbn [Pos.iter digits2_pos]. split; [lia|].
    change (PosDef.Pos.succ (digits2_pos p)) with (Pos.succ (digits2_pos p)). lia.
  - rewrite Pos.iter_succ. destruct IH as [IHv IHd]. cbn [digits2_pos].
    change (PosDef.Pos.succ (digits2_pos (Pos.iter xO p d)))
      with (Pos.succ (digits2_pos (Pos.iter xO p d))).
    rewrite IHd, Pos2Z.inj_xO, IHv, Pos2Z.inj_succ, Z.pow_succ_r by lia.
    split; lia.
Qed.

(** A mantissa of 53 digits with an exponent in range is not rounded. *)
Lemma binary_round_aux_canonical (s : bool) (mz : positive) (ez : Z) :
  digits2_pos mz = 53%positive -> -1074 <= ez <= 971 ->
  binary_round_aux 53 1024 s (Z.pos mz) ez loc_Exact = S754_finite s mz ez.
Proof.
  intros Hd He. unfold binary_round_aux, shr_fexp. cbn [Zdigits2]. rewrite Hd.
  assert (Hshift : fexp 53 1024 (53 + ez) - ez = 0).
  { unfold fexp, emin. change IntDef.Z.max with Z.max. lia. }
  rewrite Hshift. cbn [shr shr_record_of_loc shr_m loc_of_shr_record round_nearest_even].
  cbn [Zdigits2]. rewrite Hd, Hshift. cbn [shr shr_m].
  destruct (ez <=? 1024 - 53) eqn:Hle; [reflexivity|].
  apply Z.leb_gt in Hle. lia.
Qed.

(** An integer below [2^53] is a number, exactly. *)
Lemma binary_round_exact (s : bool) (p : positive) :
  Z.pos p < 2 ^ 53 ->
  exists mz ez, binary_round 53 1024 s p 0 = S754_finite s mz ez /\
                -52 <= ez <= 0 /\ Z.pos mz = Z.pos p * 2 ^ (- ez).
Proof.
  intros Hp. unfold binary_round, shl_align.
  pose proof (digits2_pos_bounds p) as Hdigits.
  set (d := digits2_pos p) in *.
  assert (Hd : 1 <= Z.pos d <= 53).
  { split; [lia|]. destruct (Z.le_gt_cases (Z.pos d) 53) as [Hle|Hgt]; [exact Hle|].
    exfalso. assert (2 ^ 53 <= 2 ^ (Z.pos d - 1)) by (apply Z.pow_le_mono_r; lia). lia. }
  assert (Hfexp : fexp 53 1024 (Z.pos d + 0) = Z.pos d - 53).
  { unfold fexp, emin. change IntDef.Z.max with Z.max. lia. }
  rewrite Hfexp.
  destruct (Z.pos d - 53 - 0) as [|k|k] eqn:Hk; [| lia |].
  - exists p, 0. split; [|split; [lia | cbn; lia]].
    apply binary_round_aux_canonical; [|lia]. fold d. lia.
  - change (PosDef.Pos.iter xO p k) with (Pos.iter xO p k).
    destruct (iter_xO_value p k) as [Hvalue Hdig].
    exists (Pos.iter xO p k), (Z.pos d - 53). split; [|split; [lia|]].
    + apply binary_round_aux_canonical; [|lia]. rewrite Hdig. fold d. lia.
    + rewrite Hvalue. f_equal. f_equal. lia.
Qed.

Lemma ofZ_exact (n : Z) : Z.abs n < 2 ^ 53 -> isInteger (Num.ofZ n) n.
Proof.
  intros Hn. unfold Num.ofZ, binary_normalize. destruct n as [|p|p]; [reflexivity| |].
  - destruct (binary_round_exact false p) as (mz & ez & -> & He & Hm); [lia|].
    cbn [isInteger cond_Zopp]. destruct (0 <=? ez) eqn:Hz.
    + apply Z.leb_le in Hz. assert (ez = 0) as -> by lia. cbn in Hm |- *. lia.
    + exact Hm.
  - destruct (binary_round_exact true p) as (mz & ez & -> & He & Hm); [lia|].
    cbn [isInteger cond_Zopp]. destruct (0 <=? ez) eqn:Hz.
    + apply Z.leb_le in Hz. assert (ez = 0) as -> by lia. cbn in Hm |- *. lia.
    + lia.
Qed.






(** [parseInt] reads an integer below [2^53] exactly. *)
Lemma nearestInteger_exact (n : Z) : Z.abs n < 2 ^ 53 -> Num.nearestInteger n = n.
Proof.
  intros Hn. pose proof (ofZ_exact n Hn) as Hint. unfold Num.nearestInteger.
  destruct (Num.ofZ n) as [s|s| |s m e]; cbn [isInteger] in Hint;
    [now symmetry | contradiction | contradiction |].
  destruct (0 <=? e) eqn:He; [now symmetry|].
  apply Z.leb_gt in He. rewrite Z.shiftr_div_pow2, Hint by lia.
  apply Z.div_mul. pose proof (Z.pow_pos_nonneg 2 (- e)). lia.
Qed.

(* ===================================================================== *)
(** * Properties: price, room counts, street address                      *)
(* ===================================================================== *)



(** The rounding is that of the product as the host computes it: 1.015 is
    read as a number just below it, the product is just below 101.5, and
    the price is 101 cents. *)
Example price_of_a_product_below_the_tie :
  isInteger (priceInCents (Some "1.015")) 101.
Proof. vm_compute. reflexivity. Qed.

(** [parseInt] on runs of digits: exact below [2^53], the nearest
    binary64 number beyond. *)
Example parseInt_small : parseInt "12" = Some 12.
Proof. reflexivity. Qed.

Example parseInt_rounds : parseInt "9007199254740993" = Some 9007199254740992.
Proof. vm_compute. reflexivity. Qed.

(** The guarded match on sample texts: the word must occur as written,
    in lower case, before the pattern, which ignores case, is tried. *)
Example matchCountIn_title :
  matchCountIn "bedroom" (Some "Bright 2  bedroom flat") = Some "2".
Proof. reflexivity. Qed.

Example matchCountIn_capital :
  matchCountIn "bedroom" (Some "2 Bedroom Apartment") = None.
Proof. reflexivity. Qed.

Example matchCount_ignores_case : matchCount "bed" "Studio, 1 BED" = Some "1".
Proof. reflexivity. Qed.

(** C7, as stated, fails: the title gives the bedrooms, nothing gives the
    bathrooms before the unit room info, which reads "2 beds, 1 bath".
    Resolved on its own the bathroom count would be 1; the importer leaves
    it undetermined, because the bedroom count was found. *)
Lemma bathrooms_wait_for_bedrooms :
  extractRooms twoBedroomItem = (Some 2, None) /\
  resolveRoomsAsStated twoBedroomItem = (Some 2, Some 1).
Proof. split; vm_compute; reflexivity. Qed.

(** The title "2 Bedroom Apartment" has the count for the pattern, which
    ignores case, but not the word as written: the importer does not
    search it. *)
Example capital_title_is_not_searched :
  extractBedroomCount (titledItem "2 Bedroom Apartment") = None /\
  fst (resolveRoomsAsStated (titledItem "2 Bedroom Apartment")) = Some 2.
Proof. split; vm_compute; reflexivity. Qed.

(** A capture of [(\d+)] is a run of digits, which [parseInt] reads. *)
Lemma matchCount_digits (word text d : string) :
  matchCount word text = Some d -> d <> "" /\ allChars JS.isDigit d = true.
Proof.
  unfold matchCount. intros Hm.
  apply re_search_Some in Hm as (s0 & Hm).
  unfold JS.re_plus, JS.re_star in Hm.
  apply re_star_from_run in Hm as (m & rest & Hdigits & Hk).
  rewrite string_app_nil_l in Hk. destruct m as [|c m]; [discriminate|].
  apply re_star_from_Some in Hk as (ws & rest' & Hk).
  apply re_lit_ci_Some in Hk as (s1 & Hk). injection Hk as <-.
  split; [discriminate | exact Hdigits].
Qed.

Lemma parseInt_digits (d : string) :
  d <> "" -> allChars JS.isDigit d = true ->
  parseInt d = Some (Num.nearestInteger (JS.digitsValue 0 d)).
Proof.
  destruct d as [|c d]; [congruence|]. intros _ Hd. cbn [allChars] in Hd.
  apply andb_prop in Hd as [Hc _].
  destruct c as [[] [] [] [] [] [] [] []]; try discriminate Hc; reflexivity.
Qed.

Lemma countByPattern_match (word text : string) :
  countByPattern word (Some text) =
  match matchCount word text with
  | Some d => Some (Num.nearestInteger (JS.digitsValue 0 d))
  | None => None
  end.
Proof.
  unfold countByPattern. destruct (matchCount word text) as [d|] eqn:Hm; [|reflexivity].
  apply matchCount_digits in Hm as [Hne Hd]. now apply parseInt_digits.
Qed.

Lemma parseInt_match (word text : string) (found : option Z) :
  match matchCount word text with
  | Some d => parseInt d
  | None => found
  end = lastResort word text found.
Proof.
  unfold lastResort. rewrite countByPattern_match.
  destruct (matchCount word text) as [d|] eqn:Hm; [|reflexivity].
  apply matchCount_digits in Hm as [Hne Hd]. now apply parseInt_digits.
Qed.

Lemma extractCount_amended (word : string) (title description : option string)
    (structured : option Z) :
  extractCount word title description structured =
  resolveCountAsAmended word title description structured.
Proof.
  assert (Hstep : forall text, countInText word text =
            match matchCountIn word text with
            | Some d => parseInt d
            | None => None
            end /\
            (forall d, matchCountIn word text = Some d -> exists n, parseInt d = Some n)).
  { intros [[|c s]|]; cbn [countInText matchCountIn]; try (split; [|discriminate]).
    - now destruct (JS.includes "" word).
    - destruct (JS.includes (String c s) word); [|split; [reflexivity|discriminate]].
      split; [reflexivity|]. intros d Hm.
      apply matchCount_digits in Hm as [Hne Hd]. rewrite parseInt_digits; eauto.
    - reflexivity. }
  unfold extractCount, resolveCountAsAmended. cbn [firstFound].
  destruct (Hstep title) as [-> Htitle]. destruct (Hstep description) as [-> Hdesc].
  destruct (matchCountIn word title) as [d|].
  - destruct (Htitle d eq_refl) as [n ->]. reflexivity.
  - destruct (matchCountIn word description) as [d|].
    + destruct (Hdesc d eq_refl) as [n ->]. reflexivity.
    + unfold orNoneZ, knownCount. destruct structured as [[|n|n]|]; reflexivity.
Qed.

Lemma determined_truthy (count : option Z) : determined count = truthyZ count.
Proof. now destruct count as [[|n|n]|]. Qed.

(** C7, amended.  Each count is resolved on its own by the first of three
    steps that finds it: the pattern on the title, the pattern on the
    description (a text is searched only when it contains the word as
    written, in lower case, though the pattern ignores case), the
    structured field when it is not zero.  The unit room info is a last
    resort for both counts at once: it is read when it is a non-empty
    string and neither count is determined (each is missing or zero), and
    then each count takes its match when there is one; as soon as one
    count is determined, the unit room info is read for neither. *)
Theorem room_counts_resolution (item : Raw.item) :
  let bedrooms := resolveCountAsAmended "bedroom" (Raw.listing_title_text item)
                    (Raw.description item) (Raw.bedrooms item) in
  let bathrooms := resolveCountAsAmended "bathroom" (Raw.listing_title_text item)
                     (Raw.description item) (Raw.bathrooms item) in
  extractBedroomCount item = bedrooms /\
  extractBathroomCount item = bathrooms /\
  extractRooms item = resolveRoomsAsAmended item /\
  (determined bedrooms = true \/ determined bathrooms = true ->
   extractRooms item = (bedrooms, bathrooms)).
Proof.
  intros bedrooms bathrooms.
  assert (Hbed : extractBedroomCount item = bedrooms) by apply extractCount_amended.
  assert (Hbath : extractBathroomCount item = bathrooms) by apply extractCount_amended.
  assert (Hrooms : extractRooms item = resolveRoomsAsAmended item).
  { unfold extractRooms, resolveRoomsAsAmended. rewrite Hbed, Hbath.
    fold bedrooms bathrooms. rewrite <- !determined_truthy.
    destruct (Raw.unit_room_info item) as [[|c s]|]; try reflexivity.
    cbn [String.eqb negb andb].
    destruct (negb (determined bedrooms) && negb (determined bathrooms));
      [|reflexivity].
    now rewrite !parseInt_match. }
  split; [exact Hbed|]. split; [exact Hbath|]. split; [exact Hrooms|].
  intros Hdetermined. rewrite Hrooms. unfold resolveRoomsAsAmended.
  fold bedrooms bathrooms.
  destruct (Raw.unit_room_info item) as [roomInfo|]; [|reflexivity].
  destruct Hdetermined as [-> | ->]; now rewrite ?andb_false_r.
Qed.

Lemma room_counts_resolution_witness :
  extractRooms twoBedroomItem = (Some 2, None) /\
  extractRooms roomInfoOnlyItem = (Some 3, Some 2).
Proof.
  split.
  - rewrite (proj2 (proj2 (proj2 (room_counts_resolution twoBedroomItem)))
               (or_introl eq_refl)).
    vm_compute. reflexivity.
  - rewrite (proj1 (proj2 (proj2 (room_counts_resolution roomInfoOnlyItem)))).
    vm_compute. reflexivity.
Defined.

Lemma includes_empty (s : string) : JS.includes s "" = true.
Proof. destruct s; reflexivity. Qed.

(** C9, as stated, fails: the subtitles are the empty string and
    "5 Elm St" for a listing in Halifax, NS.  The first subtitle that
    contains neither "Halifax" nor "NS" is the empty one, which leaves the
    street empty; the importer passes over it and takes "5 Elm St". *)
Lemma empty_subtitle_is_passed_over :
  extractStreetAddress (subtitledItem [Some ""; Some "5 Elm St"])
    (resolvedCity (subtitledItem [Some ""; Some "5 Elm St"]))
    (resolvedState (subtitledItem [Some ""; Some "5 Elm St"])) = "5 Elm St" /\
  streetAsStated (Raw.Build_Subtitle <$> [Some ""; Some "5 Elm St"]) "Halifax" "NS" = "".
Proof. split; vm_compute; reflexivity. Qed.

Lemma scanSubtitles_find (subs : list Raw.Subtitle) (city state : string) :
  scanSubtitles subs city state = streetAmongNonEmpty subs city state.
Proof.
  unfold streetAmongNonEmpty, subtitleStrings.
  induction subs as [|[[[|c s]|]] subs IH]; cbn; try exact IH; [reflexivity|].
  match goal with |- (if ?b then _ else _) = _ => destruct b end;
    [reflexivity | exact IH].
Qed.

(** C9, amended.  Without a structured street and with a list of
    subtitles, the street address is the first non-empty subtitle that
    contains neither the resolved city nor the resolved state, and it is
    empty when no subtitle qualifies; none does when the city or the state
    is the empty string, which every subtitle contains. *)
Theorem street_from_subtitles (item : Raw.item) (city state : string)
    (subs : list Raw.Subtitle) :
  JS.truthyStr (Raw.home_address_street item) = false ->
  Raw.custom_sub_titles_with_rendering_flags item = Some subs ->
  extractStreetAddress item city state = streetAmongNonEmpty subs city state /\
  (city = "" \/ state = "" -> extractStreetAddress item city state = "").
Proof.
  intros Hstreet Hsubs.
  assert (Hscan : extractStreetAddress item city state = scanSubtitles subs city state).
  { unfold extractStreetAddress. rewrite Hsubs.
    now destruct (Raw.home_address_street item) as [[|c s]|]. }
  rewrite Hscan. split; [apply scanSubtitles_find|].
  intros Hempty. clear Hscan Hsubs.
  induction subs as [|[[[|c s]|]] subs IH]; cbn; try exact IH; [reflexivity|].
  destruct Hempty as [-> | ->]; rewrite includes_empty; cbn;
    rewrite ?andb_false_r; exact IH.
Qed.

Lemma street_from_subtitles_witness :
  extractStreetAddress (subtitledItem [Some "Halifax, NS"; None; Some "5 Elm St"])
    "Halifax" "NS" = "5 Elm St" /\
  extractStreetAddress (subtitledItem [Some "5 Elm St"]) "" "NS" = "".
Proof.
  split.
  - rewrite (proj1 (street_from_subtitles
               (subtitledItem [Some "Halifax, NS"; None; Some "5 Elm St"]) "Halifax" "NS"
               _ eq_refl eq_refl)).
    vm_compute. reflexivity.
  - exact (proj2 (street_from_subtitles (subtitledItem [Some "5 Elm St"]) "" "NS"
                    _ eq_refl eq_refl) (or_introl eq_refl)).
Defined.

(* ===================================================================== *)
(** * Further properties: replies that parse, replies that fail           *)
(* ===================================================================== *)

Lemma allChars_app (p : ascii -> bool) (s t : string) :
  allChars p (s +:+ t) = allChars p s && allChars p t.
Proof.
  induction s as [|c s IH]; [reflexivity|].
  rewrite string_app_cons. cbn [allChars]. now rewrite IH, andb_assoc.
Qed.

Lemma allChars_impl (p q : ascii -> bool) (s : string) :
  (forall c, p c = true -> q c = true) -> allChars p s = true -> allChars q s = true.
Proof.
  intros Hpq. induction s as [|c s IH]; [reflexivity|]. cbn [allChars].
  intros Hs. apply andb_prop in Hs as [Hc Hs]. now rewrite (Hpq c Hc), IH.
Qed.

Lemma trimStart_clean (s : string) :
  stopsAt JS.isWhiteSpace s = true -> JS.trimStart s = s.
Proof.
  destruct s as [|c s]; [reflexivity|]. cbn [stopsAt JS.trimStart].
  now destruct (JS.isWhiteSpace c).
Qed.

Lemma trimEnd_app (a b : string) :
  b <> "" -> JS.trimEnd b = b -> JS.trimEnd (a +:+ b) = a +:+ b.
Proof.
  intros Hb Hclean. induction a as [|c a IH]; [exact Hclean|].
  rewrite string_app_cons. cbn [JS.trimEnd]. rewrite IH.
  destruct (a +:+ b) eqn:Hab; [|reflexivity].
  apply string_app_empty in Hab as [_ Hab]. contradiction.
Qed.

Lemma stopsAt_app (p : ascii -> bool) (a b : string) :
  a <> "" -> stopsAt p a = true -> stopsAt p (a +:+ b) = true.
Proof. destruct a as [|c a]; [congruence|]. intros _ Ha. exact Ha. Qed.

(** Splitting at line feeds undoes joining with line feeds. *)
Lemma splitLines_aux_line (x rest : string) :
  noLineFeed x = true ->
  JS.splitLines_aux (x +:+ rest) =
  (x +:+ fst (JS.splitLines_aux rest), snd (JS.splitLines_aux rest)).
Proof.
  induction x as [|c x IH]; intros Hx.
  - rewrite !string_app_nil_l. now destruct (JS.splitLines_aux rest).
  - unfold noLineFeed in Hx. cbn [allChars] in Hx. apply andb_prop in Hx as [Hc Hx].
    rewrite !string_app_cons. cbn [JS.splitLines_aux]. rewrite (IH Hx).
    apply negb_true_iff in Hc. now rewrite Hc.
Qed.

Lemma splitLines_concat (lines : list string) :
  lines <> [] -> Forall (fun l => noLineFeed l = true) lines ->
  JS.splitLines (String.concat LF lines) = lines.
Proof.
  induction lines as [|x [|y xs] IH]; intros Hne Hall; [congruence| |].
  - cbn [String.concat]. unfold JS.splitLines.
    rewrite <- (string_app_nil_r x) at 1.
    rewrite splitLines_aux_line by now inversion Hall.
    cbn. now rewrite string_app_nil_r.
  - change (String.concat LF (x :: y :: xs))
      with (x +:+ LF +:+ String.concat LF (y :: xs)).
    unfold JS.splitLines. rewrite splitLines_aux_line by now inversion Hall.
    change (LF +:+ String.concat LF (y :: xs))
      with (String "010" (String.concat LF (y :: xs))).
    cbn [JS.splitLines_aux].
    assert (Htail : JS.splitLines (String.concat LF (y :: xs)) = y :: xs).
    { apply IH; [discriminate | now inversion Hall]. }
    unfold JS.splitLines in Htail.
    destruct (JS.splitLines_aux (String.concat LF (y :: xs))) as [l ls].
    change ((JS.code "010" =? 10)%N) with true. cbn [fst snd].
    now rewrite string_app_nil_r, Htail.
Qed.

Lemma trimEnd_concat (lines : list string) :
  lines <> [] ->
  Forall (fun l => l <> "" /\ JS.trimEnd l = l) lines ->
  JS.trimEnd (String.concat LF lines) = String.concat LF lines
  /\ String.concat LF lines <> "".
Proof.
  induction lines as [|x [|y xs] IH]; intros Hne Hall; [congruence| |].
  - cbn [String.concat]. now inversion Hall.
  - change (String.concat LF (x :: y :: xs))
      with (x +:+ LF +:+ String.concat LF (y :: xs)).
    destruct IH as [Hclean Hnonempty]; [discriminate | now inversion Hall|].
    assert (Hb : JS.trimEnd (LF +:+ String.concat LF (y :: xs))
                 = LF +:+ String.concat LF (y :: xs))
      by now apply trimEnd_app.
    split.
    + apply trimEnd_app; [discriminate | exact Hb].
    + intros Hempty. apply string_app_empty in Hempty as [_ Hempty]. discriminate.
Qed.

Lemma trim_concat (lines : list string) :
  Forall (fun l => l <> "" /\ stopsAt JS.isWhiteSpace l = true /\ JS.trimEnd l = l) lines ->
  JS.trim (String.concat LF lines) = String.concat LF lines.
Proof.
  intros Hall. destruct lines as [|x xs]; [reflexivity|].
  unfold JS.trim. rewrite trimStart_clean.
  - apply trimEnd_concat; [discriminate|].
    eapply Forall_impl; [exact Hall|]. cbn. tauto.
  - inversion Hall as [|? ? (Hx & Hstop & _) _]; subst.
    destruct xs as [|y xs]; [exact Hstop|].
    change (String.concat LF (x :: y :: xs))
      with (x +:+ LF +:+ String.concat LF (y :: xs)).
    now apply stopsAt_app.
Qed.

(** The decimal digits of a positive number. *)
Lemma string_of_uint_digits (u : Decimal.uint) :
  allChars JS.isDigit (NilEmpty.string_of_uint u) = true.
Proof. induction u; cbn [NilEmpty.string_of_uint allChars]; now rewrite ?IHu. Qed.

Lemma showZ_pos_digits (n : positive) :
  JS.showZ (Zpos n) <> "" /\ allChars JS.isDigit (JS.showZ (Zpos n)) = true.
Proof.
  cbn [JS.showZ]. split; [|apply string_of_uint_digits].
  pose proof (DecimalPos.Unsigned.to_uint_nonnil n) as Hn.
  destruct (Pos.to_uint n); [congruence | discriminate ..].
Qed.

(** What the members of the vocabulary have in common as lines. *)
Lemma valid_category_line (c : string) :
  In c VALID_CATEGORIES ->
  c <> "" /\ lineCategory c = Some c /\ noLineFeed c = true /\
  stopsAt JS.isWhiteSpace c = true /\ JS.trimEnd c = c /\
  allChars JS.isDot c = true /\ normalize c = c.
Proof.
  cbn [VALID_CATEGORIES In]. intros Hc.
  repeat (destruct Hc as [<- | Hc]; [repeat split; discriminate || reflexivity|]).
  contradiction.
Qed.

(** A line that carries a category is accepted with that category. *)
Lemma carries_line (line c : string) :
  In c VALID_CATEGORIES -> carries line c ->
  lineCategory line = Some c /\ noLineFeed line = true /\
  line <> "" /\ stopsAt JS.isWhiteSpace line = true /\ JS.trimEnd line = line.
Proof.
  intros Hc Hline.
  destruct (valid_category_line c Hc) as (Hne & Hcat & Hlf & Hstop & Hend & Hdot & Hnorm).
  destruct Hline as [-> | [n ->]]; [now repeat split|].
  destruct (showZ_pos_digits n) as [Hdne Hdigits].
  set (digits := JS.showZ (Z.pos n)) in *.
  assert (Hmatch : matchNumbered (digits +:+ ". " +:+ c) = Some c).
  { apply (matchNumbered_strip digits " " c); auto. }
  assert (Hnonempty : digits +:+ ". " +:+ c <> "").
  { intros Hempty. now apply string_app_empty in Hempty as [Hempty _]. }
  split; [|split; [|split; [|split]]].
  - apply lineCategory_Some. split; [exact Hnonempty|]. exists c.
    unfold matchLine. rewrite Hmatch. now rewrite Hnorm.
  - unfold noLineFeed. rewrite !allChars_app. fold (noLineFeed c). rewrite Hlf.
    rewrite (allChars_impl JS.isDigit _ digits); [reflexivity| |exact Hdigits].
    intros ch Hch. unfold JS.isDigit, JS.between in Hch.
    apply andb_prop in Hch as [Hlo _]. apply N.leb_le in Hlo.
    apply negb_true_iff, N.eqb_neq. lia.
  - exact Hnonempty.
  - apply stopsAt_app; [exact Hdne|].
    destruct digits as [|d ds]; [congruence|]. cbn [allChars] in Hdigits.
    apply andb_prop in Hdigits as [Hd _]. cbn [stopsAt].
    unfold JS.isDigit, JS.between in Hd. apply andb_prop in Hd as [Hlo Hhi].
    apply N.leb_le in Hlo, Hhi. unfold JS.isWhiteSpace, JS.between.
    apply negb_true_iff.
    destruct (9 <=? JS.code d)%N eqn:H9, (JS.code d <=? 13)%N eqn:H13,
             (JS.code d =? 32)%N eqn:H32, (JS.code d =? 160)%N eqn:H160;
      try reflexivity;
      try apply N.leb_le in H13; try apply N.eqb_eq in H32;
      try apply N.eqb_eq in H160; lia.
  - rewrite <- string_app_assoc. now apply trimEnd_app.
Qed.

(** The loop on lines that all have a category. *)
Lemma parseLines_all (B : nat) (ls : list string) :
  forall (cs pre post acc : list string),
    Forall2 (fun l c => lineCategory l = Some c) ls cs ->
    parseLines (pre ++ ls ++ post) B (length pre) (length ls) acc = Ok (acc ++ cs).
Proof.
  induction ls as [|l ls IH]; intros cs pre post acc Hall.
  - inversion Hall; subst. cbn [length parseLines]. now rewrite app_nil_r.
  - inversion Hall as [|? c ? cs' Hl Hrest]; subst.
    cbn [length]. rewrite parseLines_step.
    change ((l :: ls) ++ post) with (l :: (ls ++ post)).
    rewrite (list_lookup_middle pre (ls ++ post) l (length pre) eq_refl), Hl.
    replace (pre ++ l :: ls ++ post) with ((pre ++ [l]) ++ ls ++ post)
      by now rewrite <- app_assoc.
    replace (S (length pre)) with (length (pre ++ [l]))
      by (rewrite length_app; simpl; lia).
    rewrite (IH cs' (pre ++ [l]) post (acc ++ [c]) Hrest).
    now rewrite <- app_assoc.
Qed.

(* ===================================================================== *)
(** * Properties: the lines that are read, and the lines that are not     *)
(* ===================================================================== *)

(** The characters of the wording against the classes of the code. *)
Lemma isDecimalDigit_isDigit (ch : ascii) : isDecimalDigit ch = JS.isDigit ch.
Proof. destruct ch as [[] [] [] [] [] [] [] []]; reflexivity. Qed.

Lemma isSpaceOrTab_class (ch : ascii) :
  isSpaceOrTab ch = true ->
  JS.isWhiteSpace ch = true /\ JS.isDot ch = true /\ JS.lowerChar ch = ch /\
  Ascii.eqb ch "." = false.
Proof.
  unfold isSpaceOrTab. intros Hch. apply orb_prop in Hch as [Hch|Hch];
    apply Ascii.eqb_eq in Hch; subst ch; repeat split.
Qed.

Lemma isWhiteSpace_lowerChar (ch : ascii) :
  JS.isWhiteSpace (JS.lowerChar ch) = JS.isWhiteSpace ch.
Proof. destruct ch as [[] [] [] [] [] [] [] []]; reflexivity. Qed.

Lemma isCapital_class (ch : ascii) :
  isCapital ch = true ->
  JS.lowerChar ch = ascii_of_N (JS.code ch + 32) /\ JS.isDot ch = true /\
  Ascii.eqb ch "." = false.
Proof.
  unfold isCapital. intros Hch. apply existsb_exists in Hch as (x & Hin & Heq).
  apply Ascii.eqb_eq in Heq. subst x. cbn in Hin.
  repeat (destruct Hin as [<- | Hin]; [repeat split|]). contradiction.
Qed.

Lemma sameLetter_class (a b : ascii) :
  sameLetter a b = true ->
  (JS.lowerChar b = b -> JS.lowerChar a = b) /\
  (JS.isDot b = true -> JS.isDot a = true) /\
  (Ascii.eqb b "." = false -> Ascii.eqb a "." = false).
Proof.
  unfold sameLetter. intros Hab. apply orb_prop in Hab as [Hab|Hab].
  - apply Ascii.eqb_eq in Hab. subst b. now repeat split.
  - apply andb_prop in Hab as [Hcap Hcode]. apply N.eqb_eq in Hcode.
    destruct (isCapital_class a Hcap) as (Hlower & Hdot & Hpoint).
    repeat split; auto. intros _. rewrite Hlower, Hcode.
    apply ascii_N_embedding.
Qed.

Lemma toLowerCase_app (s t : string) :
  JS.toLowerCase (s +:+ t) = JS.toLowerCase s +:+ JS.toLowerCase t.
Proof.
  induction s as [|c s IH]; [reflexivity|].
  rewrite string_app_cons. cbn [JS.toLowerCase]. now rewrite IH, string_app_cons.
Qed.

Lemma toLowerCase_trimStart (s : string) :
  JS.toLowerCase (JS.trimStart s) = JS.trimStart (JS.toLowerCase s).
Proof.
  induction s as [|c s IH]; [reflexivity|]. cbn [JS.trimStart JS.toLowerCase].
  rewrite isWhiteSpace_lowerChar. now destruct (JS.isWhiteSpace c).
Qed.

Lemma toLowerCase_trimEnd (s : string) :
  JS.toLowerCase (JS.trimEnd s) = JS.trimEnd (JS.toLowerCase s).
Proof.
  induction s as [|c s IH]; [reflexivity|]. cbn [JS.trimEnd JS.toLowerCase].
  rewrite <- IH, isWhiteSpace_lowerChar.
  destruct (JS.trimEnd s); [now destruct (JS.isWhiteSpace c) | reflexivity].
Qed.

Lemma toLowerCase_trim (s : string) :
  JS.toLowerCase (JS.trim s) = JS.trim (JS.toLowerCase s).
Proof. unfold JS.trim. now rewrite toLowerCase_trimEnd, toLowerCase_trimStart. Qed.

Lemma padding_facts (s : string) :
  allChars isSpaceOrTab s = true ->
  allChars JS.isWhiteSpace s = true /\ allChars JS.isDot s = true /\
  JS.toLowerCase s = s /\ allChars (fun ch => negb (Ascii.eqb ch ".")) s = true.
Proof.
  induction s as [|c s IH]; [now repeat split|]. cbn [allChars JS.toLowerCase].
  intros Hs. apply andb_prop in Hs as [Hc Hs].
  destruct (isSpaceOrTab_class c Hc) as (Hws & Hdot & Hlow & Hpoint).
  destruct (IH Hs) as (IH1 & IH2 & IH3 & IH4).
  now rewrite Hws, Hdot, Hlow, Hpoint, IH1, IH2, IH3, IH4.
Qed.

(** The letters of a category in any case. *)
Lemma sameLetters_facts (body : string) :
  forall c : string,
    sameLetters body c = true ->
    (JS.toLowerCase c = c -> JS.toLowerCase body = c) /\
    (allChars JS.isDot c = true -> allChars JS.isDot body = true) /\
    (allChars (fun ch => negb (Ascii.eqb ch ".")) c = true ->
     allChars (fun ch => negb (Ascii.eqb ch ".")) body = true) /\
    (c <> "" -> body <> "").
Proof.
  induction body as [|a body IH]; intros [|b c] Hsame; try discriminate.
  - now repeat split.
  - cbn [sameLetters] in Hsame. apply andb_prop in Hsame as [Hab Hsame].
    destruct (sameLetter_class a b Hab) as (Hlow & Hdot & Hpoint).
    destruct (IH c Hsame) as (IH1 & IH2 & IH3 & _).
    cbn [JS.toLowerCase allChars]. repeat split.
    + intros [= Hb Hc]. now rewrite (Hlow Hb), (IH1 Hc).
    + intros Hall. apply andb_prop in Hall as [Hb Hc]. now rewrite (Hdot Hb), (IH2 Hc).
    + intros Hall. apply andb_prop in Hall as [Hb Hc].
      apply negb_true_iff in Hb. now rewrite (Hpoint Hb), (IH3 Hc).
    + discriminate.
Qed.

Lemma trimStart_app_blank (before s : string) :
  allChars JS.isWhiteSpace before = true ->
  JS.trimStart (before +:+ s) = JS.trimStart s.
Proof.
  induction before as [|c before IH]; [reflexivity|]. cbn [allChars].
  intros Hb. apply andb_prop in Hb as [Hc Hb].
  rewrite string_app_cons. cbn [JS.trimStart]. rewrite Hc. now apply IH.
Qed.

Lemma trimEnd_blank (s : string) :
  allChars JS.isWhiteSpace s = true -> JS.trimEnd s = "".
Proof.
  induction s as [|c s IH]; [reflexivity|]. cbn [allChars JS.trimEnd].
  intros Hs. apply andb_prop in Hs as [Hc Hs]. now rewrite (IH Hs), Hc.
Qed.

Lemma trimEnd_app_blank (s after : string) :
  allChars JS.isWhiteSpace after = true ->
  JS.trimEnd (s +:+ after) = JS.trimEnd s.
Proof.
  intros Hafter. induction s as [|c s IH].
  - rewrite string_app_nil_l. now apply trimEnd_blank.
  - rewrite string_app_cons. cbn [JS.trimEnd]. now rewrite IH.
Qed.

(** Trimming takes the padding off a category. *)
Lemma trim_padded (before c after : string) :
  allChars JS.isWhiteSpace before = true -> allChars JS.isWhiteSpace after = true ->
  stopsAt JS.isWhiteSpace c = true -> JS.trimEnd c = c ->
  JS.trim (before +:+ c +:+ after) = c.
Proof.
  intros Hbefore Hafter Hstop Hend. unfold JS.trim.
  rewrite (trimStart_app_blank before _ Hbefore).
  destruct c as [|a c].
  - rewrite string_app_nil_l.
    rewrite <- (string_app_nil_r after), (trimStart_app_blank after "" Hafter).
    reflexivity.
  - rewrite trimStart_clean by exact Hstop.
    now rewrite (trimEnd_app_blank _ after Hafter).
Qed.

(** [/^\d+\.\s*(.+)$/] needs a point. *)
Lemma re_digits_point_None {A : Type} (k : string -> option A) (s : string) :
  forall acc : string,
    allChars (fun ch => negb (Ascii.eqb ch ".")) s = true ->
    JS.re_star_from JS.isDigit
      (fun m rest => match m with
                     | EmptyString => None
                     | _ => JS.re_char "." k rest
                     end) acc s = None.
Proof.
  induction s as [|c s IH]; intros acc Hs.
  - cbn [JS.re_star_from JS.re_char]. now destruct acc.
  - cbn [allChars] in Hs. apply andb_prop in Hs as [Hc Hs].
    apply negb_true_iff in Hc. rewrite Ascii.eqb_sym in Hc.
    cbn [JS.re_star_from]. rewrite (IH _ Hs). cbn [JS.re_char]. rewrite Hc.
    destruct (JS.isDigit c); now destruct acc.
Qed.

Lemma matchNumbered_needs_point (line : string) :
  allChars (fun ch => negb (Ascii.eqb ch ".")) line = true -> matchNumbered line = None.
Proof. intros Hline. unfold matchNumbered, JS.re_plus, JS.re_star. now apply re_digits_point_None. Qed.

Lemma allChars_ext (p q : ascii -> bool) (s : string) :
  (forall ch, p ch = q ch) -> allChars p s = allChars q s.
Proof.
  intros Hpq. induction s as [|c s IH]; [reflexivity|]. cbn [allChars].
  now rewrite Hpq, IH.
Qed.

(** A line that reads a category of the vocabulary gives that category. *)
Lemma reads_lineCategory (line c : string) :
  In c VALID_CATEGORIES -> reads line c -> lineCategory line = Some c.
Proof.
  intros Hc (ordinal & before & body & after & -> & Hordinal & Hbefore & Hafter & Hbody).
  assert (Hfacts : c <> "" /\ stopsAt JS.isWhiteSpace c = true /\ JS.trimEnd c = c /\
                   allChars JS.isDot c = true /\ JS.toLowerCase c = c /\
                   allChars (fun ch => negb (Ascii.eqb ch ".")) c = true).
  { clear -Hc. cbn [VALID_CATEGORIES In] in Hc.
    repeat (destruct Hc as [<- | Hc]; [repeat split; discriminate || reflexivity|]).
    contradiction. }
  destruct Hfacts as (Hne & Hstop & Hend & Hdot & Hlow & Hpoint).
  destruct (sameLetters_facts body c Hbody) as (Hlower & Hbdot & Hbpoint & Hbne).
  specialize (Hlower Hlow). specialize (Hbdot Hdot). specialize (Hbpoint Hpoint).
  specialize (Hbne Hne).
  destruct (padding_facts before Hbefore) as (Hbws & Hbd & Hbl & Hbp).
  destruct (padding_facts after Hafter) as (Haws & Had & Hal & Hap).
  assert (Htext : body +:+ after <> "").
  { intros Hempty. now apply string_app_empty in Hempty as [Hempty _]. }
  assert (Htextdot : allChars JS.isDot (body +:+ after) = true)
    by now rewrite allChars_app, Hbdot, Had.
  assert (Hnorm : forall pad, allChars isSpaceOrTab pad = true ->
            normalize (pad +:+ body +:+ after) = c).
  { intros pad Hpad. destruct (padding_facts pad Hpad) as (Hpws & _ & Hpl & _).
    unfold normalize. rewrite toLowerCase_trim, !toLowerCase_app, Hpl, Hlower, Hal.
    now apply trim_padded. }
  apply lineCategory_Some. destruct Hordinal as [-> | (digits & -> & Hdne & Hdigits)].
  - rewrite string_app_nil_l. split.
    + intros Hempty. apply string_app_empty in Hempty as [_ Hempty]. contradiction.
    + exists (before +:+ body +:+ after). split; [|split; [now rewrite Hnorm | exact Hc]].
      unfold matchLine. rewrite matchNumbered_needs_point
        by now rewrite !allChars_app, Hbp, Hbpoint, Hap.
      rewrite matchPlain_spec, !allChars_app, Hbd, Hbdot, Had.
      destruct (before +:+ body +:+ after) eqn:Hline; [|reflexivity].
      apply string_app_empty in Hline as [_ Hline]. contradiction.
  - split.
    + intros Hempty. apply string_app_empty in Hempty as [Hempty _].
      apply string_app_empty in Hempty as [_ Hempty]. discriminate.
    + assert (Hsplit : exists spaces text,
                before +:+ body +:+ after = spaces +:+ text /\
                allChars JS.isWhiteSpace spaces = true /\ text <> "" /\
                stopsAt JS.isWhiteSpace text = true /\ allChars JS.isDot text = true /\
                normalize text = c).
      { exists before, (body +:+ after). repeat split; auto.
        - destruct body as [|a body], c as [|b c]; try discriminate; try congruence.
          cbn [sameLetters] in Hbody. apply andb_prop in Hbody as [Hab _].
          cbn [JS.toLowerCase] in Hlower. injection Hlower as Ha _.
          rewrite string_app_cons. cbn [stopsAt] in Hstop |- *.
          now rewrite <- isWhiteSpace_lowerChar, Ha.
        - now apply (Hnorm "" eq_refl). }
      destruct Hsplit as (spaces & text & Heq & Hsp & Htne & Htstop & Htdot & Htnorm).
      exists text. split; [|split; [now rewrite Htnorm | exact Hc]].
      unfold matchLine. rewrite string_app_assoc, Heq.
      rewrite (matchNumbered_strip digits spaces text); auto.
      rewrite <- Hdigits. apply allChars_ext. intros ch. symmetry.
      apply isDecimalDigit_isDigit.
Qed.

(** The loop on lines that are known to give the categories. *)
Lemma parseLines_given (lines : list string) (B : nat) (categories : list string) :
  forall (i : nat) (acc : list string),
    (forall j c, categories !! j = Some c ->
       exists line, lines !! (i + j)%nat = Some line /\ lineCategory line = Some c) ->
    parseLines lines B i (length categories) acc = Ok (acc ++ categories).
Proof.
  induction categories as [|c categories IH]; intros i acc Hall.
  - cbn. now rewrite app_nil_r.
  - cbn [length]. rewrite parseLines_step.
    destruct (Hall 0%nat c eq_refl) as (line & Hline & Hcat).
    rewrite Nat.add_0_r in Hline. rewrite Hline, Hcat, IH.
    + now rewrite <- app_assoc.
    + intros j c' Hj. destruct (Hall (S j) c' Hj) as (line' & Hl' & Hc').
      exists line'. split; [|exact Hc'].
      now replace (S i + j)%nat with (i + S j)%nat by lia.
Qed.

(** C10, as stated, fails on a blank line.  The reply has three lines, the
    second of them empty; its first two non-empty lines are [bed] and
    [studio apartment], both in the vocabulary; for a batch of two the
    blank line is the second line read, and parsing throws a missing
    response.  A line that ends in a carriage return, which trimming would
    remove, fails as well: the pattern does not match it. *)
Lemma blank_line_counts_as_a_line :
  nonEmptyLines ("bed" +:+ LF +:+ LF +:+ "studio apartment") = ["bed"; "studio apartment"] /\
  In "bed" VALID_CATEGORIES /\ In "studio apartment" VALID_CATEGORIES /\
  parseAIResponse ("bed" +:+ LF +:+ LF +:+ "studio apartment") 2
    = Throw (MissingResponse 2 2 3) /\
  JS.toLowerCase (JS.trim ("bed" +:+ CR)) = "bed" /\
  parseAIResponse ("bed" +:+ CR +:+ LF +:+ "studio apartment") 2
    = Throw (InvalidFormat 1 ("bed" +:+ CR)).
Proof.
  split; [reflexivity|]. split; [apply includesStr_In; reflexivity|].
  split; [apply includesStr_In; reflexivity|]. repeat split.
Qed.

(** C10, amended.  The lines of the trimmed reply are counted as they
    come, blank lines included.  When each of the first [B] of them reads
    a category of the vocabulary (an optional ordinal of digits and a
    point, spaces or tabs, the category in any letter case, spaces or
    tabs), parsing succeeds and returns exactly these [B] categories, in
    lower case and in order, whatever the lines after them are: surplus
    lines are never read.  And parsing fails only on one of the first [B]
    lines: one that is missing or empty, or one that gives no category of
    the vocabulary. *)
Theorem surplus_lines_are_ignored (response : string) :
  let lines := JS.splitLines (JS.trim response) in
  (forall categories : list string,
     (forall i c, categories !! i = Some c ->
        In c VALID_CATEGORIES /\ exists line, lines !! i = Some line /\ reads line c) ->
     parseAIResponse response (length categories) = Ok categories) /\
  (forall (B : nat) (e : ClassifierError),
     parseAIResponse response B = Throw e ->
     exists i, (i < B)%nat /\ failsAt lines i e).
Proof.
  intros lines. split.
  - intros categories Hall. rewrite parseAIResponse_loop. fold lines.
    apply (parseLines_given lines (length categories) categories 0 []).
    intros j c Hj. destruct (Hall j c Hj) as (Hc & line & Hline & Hreads).
    exists line. split; [exact Hline | now apply reads_lineCategory].
  - intros B e Hthrow. rewrite parseAIResponse_loop in Hthrow. fold lines in Hthrow.
    apply parseLines_Throw in Hthrow as (j & Hj & Hfails). now exists j.
Qed.

Lemma surplus_lines_are_ignored_witness :
  parseAIResponse replyWithSurplus 2 = Ok ["bed"; "studio apartment"].
Proof.
  apply (proj1 (surplus_lines_are_ignored replyWithSurplus) ["bed"; "studio apartment"]).
  intros i c Hi. destruct i as [|[|i]]; [| |discriminate]; injection Hi as <-.
  - split; [apply includesStr_In; reflexivity|].
    exists "1. Bed". split; [reflexivity|].
    exists "1.", " ", "Bed", "". repeat split; try reflexivity.
    right. exists "1". now repeat split.
  - split; [apply includesStr_In; reflexivity|].
    exists "  Studio Apartment". split; [reflexivity|].
    exists "", "  ", "Studio Apartment", "". repeat split; try reflexivity.
    now left.
Defined.

(** X1. A reply written as the prompt asks parses back to the categories it
    was written from: when every line of the reply is a category of the
    vocabulary, bare or behind an ordinal such as "12. ", and the lines are
    joined by line feeds, [parseAIResponse] for as many listings as there
    are lines returns exactly these categories, in order. *)
Theorem reply_round_trip (lines categories : list string) :
  Forall (fun c => In c VALID_CATEGORIES) categories ->
  Forall2 carries lines categories ->
  parseAIResponse (String.concat LF lines) (length categories) = Ok categories.
Proof.
  intros Hvalid Hcarry. rewrite parseAIResponse_loop.
  assert (Hfacts : Forall2 (fun l c =>
            lineCategory l = Some c /\ noLineFeed l = true /\ l <> "" /\
            stopsAt JS.isWhiteSpace l = true /\ JS.trimEnd l = l) lines categories).
  { clear -Hvalid Hcarry. induction Hcarry as [|l c ls cs Hl Hrest IH]; [constructor|].
    inversion Hvalid; subst. constructor; [now apply carries_line | now apply IH]. }
  assert (Hlen : length lines = length categories) by now apply Forall2_length in Hcarry.
  destruct lines as [|l ls].
  { destruct categories; [reflexivity | discriminate]. }
  rewrite trim_concat, splitLines_concat.
  - rewrite <- Hlen.
    pose proof (parseLines_all (length (l :: ls)) (l :: ls) categories [] [] []) as Hp.
    rewrite app_nil_r in Hp. cbn [app length] in Hp |- *. apply Hp.
    eapply Forall2_impl; [exact Hfacts|]. cbn. tauto.
  - discriminate.
  - apply Forall2_Forall_l with (1 := Hfacts). apply Forall_forall. tauto.
  - apply Forall2_Forall_l with (1 := Hfacts). apply Forall_forall. tauto.
Qed.

Lemma reply_round_trip_witness :
  parseAIResponse
    (String.concat LF ["1. studio apartment"; "bed"; "3. 2bdr apartment"]) 3
  = Ok ["studio apartment"; "bed"; "2bdr apartment"].
Proof.
  apply (reply_round_trip ["1. studio apartment"; "bed"; "3. 2bdr apartment"]
           ["studio apartment"; "bed"; "2bdr apartment"]).
  - repeat (constructor; [apply includesStr_In; reflexivity|]). constructor.
  - constructor; [right; exists 1%positive; reflexivity|].
    constructor; [left; reflexivity|].
    constructor; [right; exists 3%positive; reflexivity|].
    constructor.
Defined.

(** The loop over a run of good lines. *)
Lemma parseLines_good_prefix (lines : list string) (B k : nat) :
  forall (i m : nat) (acc : list string),
    (forall j, (j < k)%nat ->
       exists line c, lines !! (i + j)%nat = Some line /\ lineCategory line = Some c) ->
    exists new,
      parseLines lines B i (k + m) acc = parseLines lines B (i + k) m (acc ++ new).
Proof.
  induction k as [|k IH]; intros i m acc Hgood.
  - exists []. now rewrite app_nil_r, Nat.add_0_r.
  - destruct (Hgood 0%nat) as (line & c & Hline & Hc); [lia|].
    rewrite Nat.add_0_r in Hline.
    cbn [Nat.add]. rewrite parseLines_step, Hline, Hc.
    destruct (IH (S i) m (acc ++ [c])) as [new Hnew].
    { intros j Hj. destruct (Hgood (S j)) as (line' & c' & Hl' & Hc'); [lia|].
      exists line', c'. split; [|exact Hc'].
      now replace (S i + j)%nat with (i + S j)%nat by lia. }
    exists (c :: new). rewrite Hnew, <- app_assoc.
    now replace (S i + k)%nat with (i + S k)%nat by lia.
Qed.

(** X2. The error of [parseAIResponse] is that of the first line that is
    not good, numbered from 1: when the lines before index [k] all give a
    category and [k] is below the batch size, a missing or empty line at
    [k] throws "Missing response for listing k+1" with the batch size and
    the number of lines of the trimmed reply, a line that has no match
    throws "Invalid response format" with the line, and a line whose
    normalised text is outside the vocabulary throws "Invalid category"
    with that text. *)
Theorem first_bad_line_is_reported (response : string) (B k : nat) :
  let lines := JS.splitLines (JS.trim response) in
  (k < B)%nat ->
  (forall j, (j < k)%nat ->
     exists line c, lines !! j = Some line /\ lineCategory line = Some c) ->
  match lines !! k with
  | None | Some EmptyString =>
      parseAIResponse response B = Throw (MissingResponse (k + 1) B (length lines))
  | Some line =>
      match matchLine line with
      | None => parseAIResponse response B = Throw (InvalidFormat (k + 1) line)
      | Some cap =>
          ~ In (normalize cap) VALID_CATEGORIES ->
          parseAIResponse response B = Throw (InvalidCategory (k + 1) (normalize cap))
      end
  end.
Proof.
  intros lines Hk Hgood. rewrite parseAIResponse_loop. fold lines.
  destruct (parseLines_good_prefix lines B k 0 (B - k) []) as [new Hnew].
  { intros j Hj. exact (Hgood j Hj). }
  replace (k + (B - k))%nat with B in Hnew by lia. rewrite Hnew. cbn [Nat.add].
  replace (B - k)%nat with (S (B - k - 1)) by lia. rewrite parseLines_step.
  destruct (lines !! k) as [[|a l]|]; try reflexivity.
  destruct (matchLine (String a l)) as [cap|] eqn:Hm.
  - intros Hout. destruct (lineCategory (String a l)) as [c|] eqn:Hc; [|reflexivity].
    apply lineCategory_Some in Hc as (_ & cap' & Hm' & -> & Hin).
    rewrite Hm in Hm'. injection Hm' as <-. contradiction.
  - destruct (lineCategory (String a l)) as [c|] eqn:Hc; [|reflexivity].
    apply lineCategory_Some in Hc as (_ & cap' & Hm' & _). congruence.
Qed.

Lemma first_bad_line_is_reported_witness :
  parseAIResponse (String.concat LF ["1. bed"; "2. penthouse"; "3. bed"]) 3
  = Throw (InvalidCategory 2 "penthouse").
Proof.
  refine (first_bad_line_is_reported
            (String.concat LF ["1. bed"; "2. penthouse"; "3. bed"]) 3 1 _ _ _).
  - lia.
  - intros j Hj. assert (j = 0%nat) as -> by lia.
    exists "1. bed", "bed". split; reflexivity.
  - cbn. intros Hin.
    repeat (destruct Hin as [Hin | Hin]; [discriminate Hin|]). exact Hin.
Defined.

Lemma parseLines_error (lines : list string) (B n : nat) :
  forall (i : nat) (acc : list string) (e : ClassifierError),
    parseLines lines B i n acc = Throw e ->
    exists j, (i < j <= i + n)%nat /\
      (e = MissingResponse j B (length lines)
       \/ (exists line, e = InvalidFormat j line /\ lines !! (j - 1)%nat = Some line)
       \/ (exists c, e = InvalidCategory j c /\ ~ In c VALID_CATEGORIES)).
Proof.
  induction n as [|n IH]; intros i acc e Hp; [discriminate|].
  rewrite parseLines_step in Hp.
  destruct (lines !! i) as [line|] eqn:Hline.
  - destruct (lineCategory line) as [c|] eqn:Hc.
    + apply IH in Hp as (j & Hj & He). exists j. split; [lia | exact He].
    + exists (i + 1)%nat. split; [lia|].
      destruct line as [|a l]; [left; congruence|].
      destruct (matchLine (String a l)) as [cap|] eqn:Hm; injection Hp as <-.
      * right. right. exists (normalize cap). split; [reflexivity|].
        intros Hin. assert (Hsome : lineCategory (String a l) = Some (normalize cap)).
        { apply lineCategory_Some. split; [discriminate|]. now exists cap. }
        congruence.
      * right. left. exists (String a l). split; [reflexivity|].
        now replace (i + 1 - 1)%nat with i by lia.
  - exists (i + 1)%nat. split; [lia|]. left. congruence.
Qed.

(** X3. What [parseAIResponse] throws.  The error always names a listing
    of the batch, numbered from 1 to the batch size, and is one of three:
    a missing response (with the batch size and the number of lines of the
    trimmed reply), an invalid format (with the line at that position), or
    an invalid category (with a text that is not in the vocabulary).  The
    final comparison of the number of parsed categories with the batch
    size never fails: "Expected n categories but parsed m" is never
    thrown. *)
Theorem parse_error_names_a_listing (response : string) (B : nat) (e : ClassifierError) :
  parseAIResponse response B = Throw e ->
  let lines := JS.splitLines (JS.trim response) in
  (forall n m, e <> CountMismatch n m) /\
  exists i, (1 <= i <= B)%nat /\
    (e = MissingResponse i B (length lines)
     \/ (exists line, e = InvalidFormat i line /\ lines !! (i - 1)%nat = Some line)
     \/ (exists c, e = InvalidCategory i c /\ ~ In c VALID_CATEGORIES)).
Proof.
  rewrite parseAIResponse_loop. intros Hp lines.
  apply parseLines_error in Hp as (j & Hj & He). split.
  - intros n m ->. destruct He as [He | [(line & He & _) | (c & He & _)]]; discriminate.
  - exists j. split; [lia | exact He].
Qed.

Lemma parse_error_names_a_listing_witness :
  (forall n m, MissingResponse 2 3 1 <> CountMismatch n m) /\
  exists i, (1 <= i <= 3)%nat /\
    (MissingResponse 2 3 1 = MissingResponse i 3 (length (JS.splitLines (JS.trim "bed")))
     \/ (exists line, MissingResponse 2 3 1 = InvalidFormat i line
                      /\ JS.splitLines (JS.trim "bed") !! (i - 1)%nat = Some line)
     \/ (exists c, MissingResponse 2 3 1 = InvalidCategory i c /\ ~ In c VALID_CATEGORIES)).
Proof.
  apply (parse_error_names_a_listing "bed" 3 (MissingResponse 2 3 1)). reflexivity.
Defined.

Lemma trimStart_blank (s : string) :
  allChars JS.isWhiteSpace s = true -> JS.trimStart s = "".
Proof.
  induction s as [|c s IH]; [reflexivity|]. cbn [allChars JS.trimStart].
  intros Hs. apply andb_prop in Hs as [Hc Hs]. rewrite Hc. now apply IH.
Qed.

(** X4. A reply of white space only, the empty reply included, fails any
    batch that has a listing: the trimmed reply is the empty string, its
    split into lines is the one empty line, and the error is "Missing
    response for listing 1", reporting one response received. *)
Theorem blank_reply_is_missing (response : string) (B : nat) :
  allChars JS.isWhiteSpace response = true -> (1 <= B)%nat ->
  parseAIResponse response B = Throw (MissingResponse 1 B 1).
Proof.
  intros Hblank HB. rewrite parseAIResponse_loop. unfold JS.trim.
  rewrite (trimStart_blank response Hblank).
  destruct B as [|B]; [lia|]. reflexivity.
Qed.

Lemma blank_reply_is_missing_witness :
  parseAIResponse (String " " (String "010" (String " " EmptyString))) 2
  = Throw (MissingResponse 1 2 1).
Proof.
  apply (blank_reply_is_missing (String " " (String "010" (String " " EmptyString))) 2).
  - reflexivity.
  - lia.
Defined.

(* ===================================================================== *)
(** * Further properties: the sweep of the classifier as a whole          *)
(* ===================================================================== *)

Lemma parseAIResponse_Ok_valid (response : string) (B : nat) (categories : list string) :
  parseAIResponse response B = Ok categories ->
  length categories = B /\ Forall (fun c => In c VALID_CATEGORIES) categories.
Proof.
  rewrite parseAIResponse_loop. intros Hp.
  apply parseLines_Ok in Hp as (new & -> & Hlen & Hall). cbn [app].
  split; [exact Hlen|]. apply Forall_lookup_2. intros j c Hj.
  assert (Hlt : (j < B)%nat) by (rewrite <- Hlen; now apply lookup_lt_Some in Hj).
  destruct (Hall j Hlt) as (line & c' & _ & Hc & Hnew).
  rewrite Hj in Hnew. injection Hnew as <-.
  apply lineCategory_Some in Hc as (_ & cap & _ & -> & Hin). exact Hin.
Qed.

Lemma valid_category_nonempty (c : string) : In c VALID_CATEGORIES -> c <> "".
Proof. intros Hc. now apply valid_category_line in Hc. Qed.

Lemma setCategory_needs (c : string) (row : Listing.t) :
  c <> "" -> needsCategory (setCategory c row) = false.
Proof. destruct c; [congruence | reflexivity]. Qed.

Lemma NoDup_ids_filter (p : Listing.t -> bool) (l : list Listing.t) :
  NoDup (Listing.id <$> l) -> NoDup (Listing.id <$> List.filter p l).
Proof.
  induction l as [|x l IH]; [trivial|]. cbn [fmap list_fmap List.filter].
  intros Hnd. apply NoDup_cons in Hnd as [Hx Hnd]. destruct (p x); [|now apply IH].
  cbn [fmap list_fmap]. apply NoDup_cons. split; [|now apply IH].
  intros Hin. apply Hx. apply list_elem_of_fmap in Hin as (y & Hy & Hin).
  apply list_elem_of_In, filter_In in Hin as [Hin _].
  rewrite Hy. apply list_elem_of_fmap_2. now apply list_elem_of_In.
Qed.

(** The rows that the sweep selects are stored under their ids, need a
    category, and have distinct ids. *)
Lemma selectedRows_spec (d : Database) :
  keyed (listings d) ->
  NoDup (Listing.id <$> selectedRows d) /\
  forall b, b ∈ selectedRows d ->
    listings d !! Listing.id b = Some b /\ needsCategory b = true.
Proof.
  intros Hkeyed. unfold selectedRows. split.
  - apply NoDup_ids_filter.
    replace (Listing.id <$> (snd <$> map_to_list (listings d)))
      with (fst <$> map_to_list (listings d)).
    + apply NoDup_fst_map_to_list.
    + rewrite <- list_fmap_compose. apply list_fmap_ext.
      intros i [k row] Hi. apply list_elem_of_lookup_2, elem_of_map_to_list in Hi.
      cbn. symmetry. now apply Hkeyed.
  - intros b Hb. apply list_elem_of_In, filter_In in Hb as [Hb Hneeds].
    split; [|exact Hneeds].
    apply list_elem_of_In, list_elem_of_fmap in Hb as ([k row] & -> & Hin).
    apply elem_of_map_to_list in Hin. cbn. now rewrite (Hkeyed _ _ Hin).
Qed.

Lemma selectedRows_complete (d : Database) (k : string) (row : Listing.t) :
  listings d !! k = Some row -> needsCategory row = true -> row ∈ selectedRows d.
Proof.
  intros Hrow Hneeds. apply list_elem_of_In, filter_In. split; [|exact Hneeds].
  apply list_elem_of_In, list_elem_of_fmap. exists (k, row).
  split; [reflexivity|]. now apply elem_of_map_to_list.
Qed.

Lemma batchesOf_spec (fuel : nat) :
  forall rest : list Listing.t,
    (length rest <= fuel)%nat ->
    concat (batchesOf fuel rest) = rest /\
    Forall (fun batch => (1 <= length batch <= 50)%nat) (batchesOf fuel rest) /\
    forall i batch, batchesOf fuel rest !! i = Some batch ->
      (S i < length (batchesOf fuel rest))%nat -> length batch = 50%nat.
Proof.
  induction fuel as [|fuel IH]; intros rest Hlen.
  - destruct rest; [|simpl in Hlen; lia]. repeat split; [constructor|].
    intros i batch Hi. discriminate.
  - destruct rest as [|row rest]; [repeat split; [constructor | intros i batch Hi; discriminate]|].
    cbn [batchesOf]. set (l := row :: rest) in *.
    destruct (IH (drop 50 l)) as (Hcat & Hsize & Hfull).
    { rewrite length_drop. subst l. cbn [length] in *. lia. }
    split; [|split].
    + cbn [concat]. rewrite Hcat. apply take_drop.
    + constructor; [|exact Hsize]. rewrite length_take. subst l. cbn [length]. lia.
    + intros [|i] batch Hi Hmore.
      * change (Some (take 50 l) = Some batch) in Hi.
        assert (batch = take 50 l) as -> by congruence. rewrite length_take.
        cbn [length] in Hmore.
        destruct (batchesOf fuel (drop 50 l)) as [|next others] eqn:Hb;
          [simpl in Hmore; lia|].
        assert (Hdrop : drop 50 l <> []).
        { intros Hnil. rewrite Hnil in Hb. now destruct fuel. }
        assert (length (drop 50 l) <> 0%nat) by now destruct (drop 50 l).
        rewrite length_drop in *. lia.
      * cbn [lookup list_lookup] in Hi. apply (Hfull i batch Hi).
        cbn [length] in Hmore. lia.
Qed.

Section SweepMore.
Context `{Host}.

Lemma batchLoop_batches (fuel : nat) :
  forall (rest : list Listing.t) (s : Sweep),
    batchLoop fuel rest s =
    fold_left (fun s batch => categorizeBatch batch s) (batchesOf fuel rest) s.
Proof.
  induction fuel as [|fuel IH]; intros rest s; [reflexivity|].
  destruct rest as [|row rest]; [reflexivity|].
  cbn [batchLoop batchesOf fold_left]. apply IH.
Qed.

(** One round on rows that are stored under distinct ids: the batch fails
    and nothing is written, or it succeeds and every row has its
    category. *)
Lemma categorizeBatch_outcome (batch : list Listing.t) (s : Sweep) :
  NoDup (Listing.id <$> batch) ->
  (forall b, b ∈ batch -> table s !! Listing.id b = Some b) ->
  (table (categorizeBatch batch s) = table s /\
   totalProcessed (categorizeBatch batch s) = totalProcessed s /\
   totalErrors (categorizeBatch batch s) = (totalErrors s + length batch)%nat)
  \/
  (totalProcessed (categorizeBatch batch s) = (totalProcessed s + length batch)%nat /\
   totalErrors (categorizeBatch batch s) = totalErrors s /\
   forall b, b ∈ batch ->
     exists c, In c VALID_CATEGORIES /\
       table (categorizeBatch batch s) !! Listing.id b = Some (setCategory c b)).
Proof.
  intros Hnd Hstored.
  destruct (generateContent batch) as [response|] eqn:Hg.
  - destruct (parseAIResponse response (length batch)) as [cats|e] eqn:Hp.
    + right.
      destruct (categorizeBatch_applies batch s response cats Hg Hp Hnd)
        as (Hproc & Herr & Hrows).
      { intros b Hb. rewrite (Hstored b Hb). now eexists. }
      destruct (parseAIResponse_Ok_valid _ _ _ Hp) as [Hlen Hvalid].
      split; [exact Hproc|]. split; [exact Herr|].
      intros b Hb. apply list_elem_of_lookup in Hb as [i Hi].
      destruct (lookup_lt_is_Some_2 cats i) as [c Hc].
      { rewrite Hlen. now apply lookup_lt_Some in Hi. }
      exists c. split.
      * rewrite Forall_forall in Hvalid. apply Hvalid.
        now apply list_elem_of_lookup_2 in Hc.
      * destruct (Hrows i b c Hi Hc) as (row & Hrow & Hset).
        rewrite (Hstored b) in Hrow by now apply list_elem_of_lookup_2 in Hi.
        now injection Hrow as <-.
    + left. rewrite (categorizeBatch_Throw batch s response e Hg Hp). now cbn.
  - left. unfold categorizeBatch, processBatch. rewrite Hg. now cbn.
Qed.

Lemma filter_stillNeeds_ext (t t' : gmap string Listing.t) (l : list Listing.t) :
  (forall b, b ∈ l -> t' !! Listing.id b = t !! Listing.id b) ->
  List.filter (stillNeeds t') l = List.filter (stillNeeds t) l.
Proof.
  intros Hsame. apply filter_ext_in. intros b Hb. unfold stillNeeds.
  now rewrite Hsame by now apply list_elem_of_In.
Qed.

Lemma filter_all {A : Type} (p : A -> bool) (l : list A) :
  (forall x, In x l -> p x = true) -> List.filter p l = l.
Proof.
  induction l as [|x l IH]; intros Hall; [reflexivity|]. cbn [List.filter].
  rewrite (Hall x) by now left. f_equal. apply IH. intros y Hy. apply Hall. now right.
Qed.

Lemma filter_none {A : Type} (p : A -> bool) (l : list A) :
  (forall x, In x l -> p x = false) -> List.filter p l = [].
Proof.
  induction l as [|x l IH]; intros Hall; [reflexivity|]. cbn [List.filter].
  rewrite (Hall x) by now left. apply IH. intros y Hy. apply Hall. now right.
Qed.

(** The batch loop on rows that are stored under distinct ids and need a
    category. *)
Lemma batchLoop_outcome (fuel : nat) :
  forall (rest : list Listing.t) (s : Sweep),
    (length rest <= fuel)%nat ->
    NoDup (Listing.id <$> rest) ->
    (forall b, b ∈ rest -> table s !! Listing.id b = Some b /\ needsCategory b = true) ->
    let s' := batchLoop fuel rest s in
    (totalProcessed s' + totalErrors s' = totalProcessed s + totalErrors s + length rest)%nat
    /\ totalErrors s' =
       (totalErrors s + length (List.filter (stillNeeds (table s')) rest))%nat
    /\ forall b, b ∈ rest ->
         table s' !! Listing.id b = Some b \/
         exists c, In c VALID_CATEGORIES /\
           table s' !! Listing.id b = Some (setCategory c b).
Proof.
  induction fuel as [|fuel IH]; intros rest s Hlen Hnd Hstored.
  { destruct rest; [|simpl in Hlen; lia]. cbn. repeat split; try lia.
    intros b Hb. now apply elem_of_nil in Hb. }
  destruct rest as [|row rest].
  { cbn. repeat split; try lia. intros b Hb. now apply elem_of_nil in Hb. }
  cbn [batchLoop]. set (l := row :: rest) in *.
  set (batch := take 50 l). set (later := drop 50 l).
  set (s1 := categorizeBatch batch s).
  assert (Hl : l = batch ++ later) by (symmetry; apply take_drop).
  assert (Hsplit : NoDup (Listing.id <$> batch) /\
                   (forall k, k ∈ (Listing.id <$> batch) -> k ∉ (Listing.id <$> later)) /\
                   NoDup (Listing.id <$> later)).
  { rewrite Hl, fmap_app in Hnd. now apply NoDup_app in Hnd. }
  destruct Hsplit as (Hndb & Hdisj & Hndl).
  assert (Hinb : forall b, b ∈ batch -> b ∈ l) by (intros b; apply subseteq_take).
  assert (Hinl : forall b, b ∈ later -> b ∈ l) by (intros b; apply subseteq_drop).
  assert (Hlater : forall b, b ∈ later ->
            table s1 !! Listing.id b = Some b /\ needsCategory b = true).
  { intros b Hb. destruct (Hstored b (Hinl b Hb)) as [Hrow Hneeds].
    split; [|exact Hneeds]. unfold s1. rewrite categorizeBatch_other; [exact Hrow|].
    intros Hin. apply (Hdisj _ Hin). now apply list_elem_of_fmap_2. }
  destruct (IH later s1) as (Hsum & Herr & Hrows); [|exact Hndl|exact Hlater|].
  { unfold later. rewrite length_drop. subst l. cbn [length] in *. lia. }
  set (s' := batchLoop fuel later s1) in *.
  assert (Hkeep : forall b, b ∈ batch ->
            table s' !! Listing.id b = table s1 !! Listing.id b).
  { intros b Hb. unfold s'. apply batchLoop_other. intros Hin.
    apply (Hdisj (Listing.id b)); [now apply list_elem_of_fmap_2 | exact Hin]. }
  assert (Hcount : length l = (length batch + length later)%nat)
    by (rewrite Hl at 1; apply length_app).
  assert (Hfilter : List.filter (stillNeeds (table s')) l =
                    List.filter (stillNeeds (table s1)) batch ++
                    List.filter (stillNeeds (table s')) later).
  { rewrite Hl at 1. rewrite List.filter_app. f_equal.
    now apply filter_stillNeeds_ext. }
  assert (Hout := categorizeBatch_outcome batch s Hndb
                    (fun b Hb => proj1 (Hstored b (Hinb b Hb)))).
  fold s1 in Hout.
  destruct Hout as [(Htable & Hproc & Herrs) | (Hproc & Herrs & Hset)].
  - (* the batch failed *)
    assert (Hall : List.filter (stillNeeds (table s1)) batch = batch).
    { apply filter_all. intros b Hb. apply list_elem_of_In in Hb.
      unfold stillNeeds. rewrite Htable.
      destruct (Hstored b (Hinb b Hb)) as [-> Hneeds]. exact Hneeds. }
    split; [lia|]. split.
    + rewrite Hfilter, Hall, length_app. lia.
    + intros b Hb. rewrite Hl in Hb. apply elem_of_app in Hb as [Hb|Hb].
      * left. rewrite (Hkeep b Hb), Htable. now apply Hstored, Hinb.
      * now apply Hrows.
  - (* the batch was written *)
    assert (Hnone : List.filter (stillNeeds (table s1)) batch = []).
    { apply filter_none. intros b Hb. apply list_elem_of_In in Hb.
      unfold stillNeeds. destruct (Hset b Hb) as (c & Hc & ->).
      apply setCategory_needs. now apply valid_category_nonempty. }
    split; [lia|]. split.
    + rewrite Hfilter, Hnone. cbn [app]. lia.
    + intros b Hb. rewrite Hl in Hb. apply elem_of_app in Hb as [Hb|Hb].
      * right. rewrite (Hkeep b Hb). now apply Hset.
      * now apply Hrows.
Qed.

End SweepMore.

Section SweepRun.
Context `{Host}.

(** The whole sweep on a table keyed by id. *)
Lemma categorizeAllListings_outcome (d : Database) :
  keyed (listings d) ->
  let s := categorizeAllListings d in
  (totalProcessed s + totalErrors s = length (selectedRows d))%nat
  /\ totalErrors s = length (List.filter (stillNeeds (table s)) (selectedRows d))
  /\ (forall b, b ∈ selectedRows d ->
        table s !! Listing.id b = Some b \/
        exists c, In c VALID_CATEGORIES /\
          table s !! Listing.id b = Some (setCategory c b))
  /\ forall k, k ∉ (Listing.id <$> selectedRows d) -> table s !! k = listings d !! k.
Proof.
  intros Hkeyed s. destruct (selectedRows_spec d Hkeyed) as [Hnd Hrows].
  pose proof (batchLoop_outcome (length (selectedRows d)) (selectedRows d)
                {| table := listings d; totalProcessed := 0; totalErrors := 0 |}
                (Nat.le_refl _) Hnd Hrows) as (Hsum & Herr & Hout).
  cbn [table totalProcessed totalErrors] in Hsum, Herr, Hout.
  split; [exact Hsum|]. split; [exact Herr|]. split; [exact Hout|].
  intros k Hk. unfold s, categorizeAllListings. now rewrite batchLoop_other.
Qed.

(** X5. The sweep works through the selected rows in consecutive batches:
    the run is the batch step folded over the batches, the batches put end
    to end are the selected rows in the order of the query, no batch is
    empty or has more than 50 rows, and every batch but the last has
    exactly 50. *)
Theorem sweep_in_batches (d : Database) :
  let rows := selectedRows d in
  let batches := batchesOf (length rows) rows in
  categorizeAllListings d =
    fold_left (fun s batch => categorizeBatch batch s) batches
      {| table := listings d; totalProcessed := 0; totalErrors := 0 |}
  /\ concat batches = rows
  /\ Forall (fun batch => (1 <= length batch <= 50)%nat) batches
  /\ forall i batch, batches !! i = Some batch ->
       (S i < length batches)%nat -> length batch = 50%nat.
Proof.
  intros rows batches. split; [apply batchLoop_batches|].
  apply batchesOf_spec. lia.
Qed.

(** X6. The two counters of the sweep account for every selected row: on a
    table keyed by id, the listings counted as processed and those counted
    as errors add up to the number of rows that had no category, and the
    error count is the number of selected rows that still have no category
    when the run ends. *)
Theorem sweep_accounting (d : Database) :
  keyed (listings d) ->
  let s := categorizeAllListings d in
  (totalProcessed s + totalErrors s = length (selectedRows d))%nat /\
  totalErrors s = length (List.filter (stillNeeds (table s)) (selectedRows d)).
Proof.
  intros Hkeyed s.
  destruct (categorizeAllListings_outcome d Hkeyed) as (Hsum & Herr & _).
  now split.
Qed.

(** X7. What the sweep can do to a row, on a table keyed by id: it adds no
    row and removes none; a row that has a category stays as it is; a row
    without one either stays as it is or has its category, and only its
    category, set to a member of the vocabulary. *)
Theorem sweep_row_outcome (d : Database) (k : string) :
  keyed (listings d) ->
  let s := categorizeAllListings d in
  match listings d !! k with
  | None => table s !! k = None
  | Some row =>
      table s !! k = Some row \/
      (needsCategory row = true /\
       exists c, In c VALID_CATEGORIES /\ table s !! k = Some (setCategory c row))
  end.
Proof.
  intros Hkeyed s.
  destruct (categorizeAllListings_outcome d Hkeyed) as (_ & _ & Hout & Hother).
  destruct (selectedRows_spec d Hkeyed) as [_ Hrows].
  destruct (listings d !! k) as [row|] eqn:Hrow.
  - destruct (needsCategory row) eqn:Hneeds.
    + pose proof (selectedRows_complete d k row Hrow Hneeds) as Hsel.
      rewrite <- (Hkeyed k row Hrow). destruct (Hout row Hsel) as [Hsame|Hset].
      * now left.
      * right. now split.
    + left. fold s. rewrite Hother; [exact Hrow|].
      intros Hin. apply list_elem_of_fmap in Hin as (b & -> & Hb).
      destruct (Hrows b Hb) as [Hstored Hb_needs]. congruence.
  - fold s. rewrite Hother; [exact Hrow|].
    intros Hin. apply list_elem_of_fmap in Hin as (b & -> & Hb).
    destruct (Hrows b Hb) as [Hstored _]. congruence.
Qed.

(** X9. A run without errors leaves nothing to do: on a table keyed by id,
    when the sweep ends with an error count of zero, no row of the
    resulting table is without a category, so that a second sweep selects
    no row. *)
Theorem sweep_without_errors_completes (d : Database) :
  keyed (listings d) ->
  let s := categorizeAllListings d in
  totalErrors s = 0%nat ->
  selectedRows {| listings := table s; priceHistory := priceHistory d |} = [].
Proof.
  intros Hkeyed s Hzero.
  destruct (categorizeAllListings_outcome d Hkeyed) as (_ & Herr & Hout & Hother).
  fold s in Herr, Hout, Hother.
  destruct (selectedRows_spec d Hkeyed) as [_ Hrows].
  rewrite Hzero in Herr. symmetry in Herr. apply length_zero_iff_nil in Herr.
  unfold selectedRows at 1. cbn [listings]. apply filter_none.
  intros row' Hin.
  apply list_elem_of_In, list_elem_of_fmap in Hin as ([k row''] & -> & Hin).
  apply elem_of_map_to_list in Hin. cbn [snd].
  destruct (needsCategory row'') eqn:Hneeds; [exfalso|reflexivity].
  assert (Hstays : forall b, b ∈ selectedRows d -> stillNeeds (table s) b = false).
  { intros b Hb. destruct (stillNeeds (table s) b) eqn:Hstill; [|reflexivity].
    assert (Hf : In b (List.filter (stillNeeds (table s)) (selectedRows d))).
    { apply filter_In. split; [now apply list_elem_of_In | exact Hstill]. }
    rewrite Herr in Hf. contradiction. }
  destruct (decide (k ∈ (Listing.id <$> selectedRows d))) as [Hsel|Hsel].
  - apply list_elem_of_fmap in Hsel as (b & -> & Hb).
    specialize (Hstays b Hb). unfold stillNeeds in Hstays.
    rewrite Hin in Hstays. congruence.
  - rewrite (Hother k Hsel) in Hin.
    pose proof (selectedRows_complete d k row'' Hin Hneeds) as Hb.
    apply Hsel. rewrite <- (Hkeyed k row'' Hin). now apply list_elem_of_fmap_2.
Qed.

Lemma batchLoop_oracle_down (fuel : nat) :
  (forall batch, generateContent batch = None) ->
  forall (rest : list Listing.t) (s : Sweep),
    (length rest <= fuel)%nat ->
    batchLoop fuel rest s =
    {| table := table s; totalProcessed := totalProcessed s;
       totalErrors := totalErrors s + length rest |}.
Proof.
  intros Hdown. induction fuel as [|fuel IH]; intros rest s Hlen.
  - destruct rest; [|simpl in Hlen; lia]. destruct s. cbn. f_equal. lia.
  - destruct rest as [|row rest]; [destruct s; cbn; f_equal; lia|].
    cbn [batchLoop]. set (l := row :: rest) in *.
    rewrite IH by (rewrite length_drop; subst l; cbn [length] in *; lia).
    unfold categorizeBatch, processBatch. rewrite Hdown.
    cbn [table totalProcessed totalErrors]. f_equal.
    rewrite length_take, length_drop. lia.
Qed.

(** X8. When the oracle fails on every request, the sweep writes nothing:
    the table is as it was, no listing is counted as processed, and every
    selected row is counted as an error; the run does not stop at the
    first failed batch. *)
Theorem sweep_with_oracle_down (d : Database) :
  (forall batch, generateContent batch = None) ->
  categorizeAllListings d =
  {| table := listings d; totalProcessed := 0;
     totalErrors := length (selectedRows d) |}.
Proof.
  intros Hdown. unfold categorizeAllListings.
  now rewrite (batchLoop_oracle_down _ Hdown) by lia.
Qed.

End SweepRun.

Lemma sweep_accounting_witness :
  let s := @categorizeAllListings (sampleHost (Some ("bed" +:+ LF +:+ "2. other")))
             (sampleDatabase sampleBatch) in
  (totalProcessed s + totalErrors s = length (selectedRows (sampleDatabase sampleBatch)))%nat /\
  totalErrors s =
    length (List.filter (stillNeeds (table s)) (selectedRows (sampleDatabase sampleBatch))).
Proof.
  apply (@sweep_accounting (sampleHost (Some ("bed" +:+ LF +:+ "2. other")))
           (sampleDatabase sampleBatch)).
  apply sampleDatabase_keyed.
Defined.

Lemma sweep_row_outcome_witness :
  let s := @categorizeAllListings (sampleHost (Some ("bed" +:+ LF +:+ "2. other")))
             (sampleDatabase sampleBatch) in
  match listings (sampleDatabase sampleBatch) !! "L2" with
  | None => table s !! "L2" = None
  | Some row =>
      table s !! "L2" = Some row \/
      (needsCategory row = true /\
       exists c, In c VALID_CATEGORIES /\ table s !! "L2" = Some (setCategory c row))
  end.
Proof.
  apply (@sweep_row_outcome (sampleHost (Some ("bed" +:+ LF +:+ "2. other")))
           (sampleDatabase sampleBatch) "L2").
  apply sampleDatabase_keyed.
Defined.

Lemma sweep_without_errors_completes_witness :
  selectedRows
    {| listings :=
         table (@categorizeAllListings (sampleHost (Some ("bed" +:+ LF +:+ "2. other")))
                  (sampleDatabase sampleBatch));
       priceHistory := priceHistory (sampleDatabase sampleBatch) |} = [].
Proof.
  apply (@sweep_without_errors_completes
           (sampleHost (Some ("bed" +:+ LF +:+ "2. other")))
           (sampleDatabase sampleBatch)).
  - apply sampleDatabase_keyed.
  - vm_compute. reflexivity.
Defined.

Lemma sweep_with_oracle_down_witness :
  @categorizeAllListings (sampleHost None) (sampleDatabase sampleBatch) =
  {| table := listings (sampleDatabase sampleBatch); totalProcessed := 0;
     totalErrors := length (selectedRows (sampleDatabase sampleBatch)) |}.
Proof.
  apply (@sweep_with_oracle_down (sampleHost None) (sampleDatabase sampleBatch)).
  intros batch. reflexivity.
Defined.

(* ===================================================================== *)
(** * Properties: who writes the category                                 *)
(* ===================================================================== *)

(** C2, as stated, fails: the listing "L1" carries the category [other];
    a document for "L1" without a description is imported, and the stored
    category is [unknown] afterwards. *)
Lemma import_replaces_assigned_category :
  Listing.ai_category_v1 <$> listings (sampleDatabase [halifaxRow]) !! "L1"
    = Some (Some "other") /\
  Listing.ai_category_v1 <$>
    listings (db (@importListings (sampleHost None) [threeBedroomItem]
                    (sampleDatabase [halifaxRow]))) !! "L1"
    = Some (Some "unknown").
Proof. vm_compute. split; reflexivity. Qed.

(** C2, amended.  An update of an existing listing stores the category
    that the deterministic categorizer computes from the candidate's
    description and bedroom count, whatever category was stored.  The
    classification sweep targets exactly the rows whose category is null
    or empty: the batches it sends to the oracle hold these rows and no
    other, a row with a non-empty category is afterwards what it was, and
    a row that the sweep has changed had a category that was null or
    empty. *)
Theorem import_recomputes_category `{Host} (r : Run) (item : Raw.item) (key : string)
    (existing : Listing.t) (d : Database) :
  Raw.id item = Some key -> key <> "" ->
  listings (db r) !! key = Some existing ->
  keyed (listings d) ->
  let sweep := categorizeAllListings d in
  let batches := batchesOf (length (selectedRows d)) (selectedRows d) in
  Listing.ai_category_v1 <$> listings (db (importItem r item)) !! key =
    Some (Some (determineListingCategory
                  (Some (JS.orStr (Raw.redacted_description_text item) ""))
                  (fst (extractRooms item))))
  /\ sweep = fold_left (fun s batch => categorizeBatch batch s) batches
               {| table := listings d; totalProcessed := 0; totalErrors := 0 |}
  /\ (forall row, row ∈ concat batches <->
        (exists k, listings d !! k = Some row) /\
        (Listing.ai_category_v1 row = None \/ Listing.ai_category_v1 row = Some ""))
  /\ (forall k row c s, listings d !! k = Some row ->
        Listing.ai_category_v1 row = Some (String c s) -> table sweep !! k = Some row)
  /\ (forall k row, listings d !! k = Some row -> table sweep !! k <> Some row ->
        Listing.ai_category_v1 row = None \/ Listing.ai_category_v1 row = Some "").
Proof.
  intros Hid Hne Hex Hkeyed sweep batches.
  assert (Hkeeps : forall k row c s, listings d !! k = Some row ->
            Listing.ai_category_v1 row = Some (String c s) -> table sweep !! k = Some row).
  { intros k row c s Hrow Hcat. apply categorizeAllListings_keeps; auto.
    unfold needsCategory. now rewrite Hcat. }
  split; [|split; [|split; [|split]]].
  - rewrite (importItem_update r item key existing Hid Hne Hex).
    cbn [db putListing listings]. now rewrite lookup_insert_eq.
  - apply batchLoop_batches.
  - intros row. unfold batches.
    rewrite (proj1 (batchesOf_spec _ (selectedRows d) (Nat.le_refl _))).
    rewrite list_elem_of_In. apply categorizeAllListings_selects.
  - exact Hkeeps.
  - intros k row Hrow Hchanged.
    destruct (Listing.ai_category_v1 row) as [[|c s]|] eqn:Hcat; auto.
    exfalso. apply Hchanged. now apply (Hkeeps k row c s).
Qed.

Lemma import_recomputes_category_witness :
  Listing.ai_category_v1 <$>
    listings (db (@importItem (sampleHost (Some "bed"))
                    (newRun (sampleDatabase [halifaxRow])) threeBedroomItem)) !! "L1"
    = Some (Some "unknown")
  /\ table (@categorizeAllListings (sampleHost (Some "bed"))
              (sampleDatabase [halifaxRow; sampleRow "L2" "900.00" None])) !! "L1"
     = Some halifaxRow.
Proof.
  pose proof (@import_recomputes_category (sampleHost (Some "bed"))
                (newRun (sampleDatabase [halifaxRow])) threeBedroomItem "L1" halifaxRow
                (sampleDatabase [halifaxRow; sampleRow "L2" "900.00" None])
                eq_refl ltac:(discriminate) eq_refl
                (sampleDatabase_keyed [halifaxRow; sampleRow "L2" "900.00" None]))
    as (Himport & _ & _ & Hkeeps & _).
  split; [exact Himport|]. exact (Hkeeps "L1" halifaxRow "o"%char "ther" eq_refl eq_refl).
Defined.

(* ===================================================================== *)
(** * Further properties: an import as a whole                            *)
(* ===================================================================== *)

Lemma setOpt_idem {A : Type} (a : option A) : setOpt a a = a.
Proof. now destruct a. Qed.

Lemma setOpt_assoc {A : Type} (a b c : option A) :
  setOpt c (setOpt b a) = setOpt (setOpt c b) a.
Proof. now destruct c. Qed.

Lemma mergeData_idem (d : DbData.t) : mergeData d d = d.
Proof. destruct d. unfold mergeData. cbn. now rewrite !setOpt_idem. Qed.

(** Two writes in a row are one write of the merged columns. *)
Lemma writeData_twice (d1 d2 : DbData.t) (existing : option Listing.t) :
  updateRecord (writeData d1 existing) d2 = writeData (mergeData d1 d2) existing.
Proof.
  destruct existing as [row|]; unfold writeData, updateRecord, createRecord, mergeData;
    cbn; f_equal;
    try apply setOpt_assoc;
    try (destruct (DbData.amenities d2); reflexivity);
    try (destruct (DbData.petFriendly d2); reflexivity);
    try (destruct (DbData.listedDate d2); reflexivity);
    match goal with |- setOpt ?x _ = _ => now destruct x end.
Qed.

Lemma itemKey_nonempty (item : Raw.item) (k : string) : itemKey item = Some k -> k <> "".
Proof.
  unfold itemKey. destruct (Raw.id item) as [[|c s]|]; try discriminate.
  now intros [= <-].
Qed.

Lemma determineListingCategory_nonempty (description : option string) (bedrooms : option Z) :
  determineListingCategory description bedrooms <> "".
Proof.
  unfold determineListingCategory. destruct description as [[|c s]|]; try discriminate.
  repeat match goal with
         | |- (if ?b then _ else _) <> _ =>
             destruct b;
             [first [discriminate
                    | intros Hempty; apply string_app_empty in Hempty as [_ Hempty];
                      discriminate]|]
         end.
  discriminate.
Qed.

Lemma writeData_needs (d : DbData.t) (existing : option Listing.t) :
  DbData.ai_category_v1 d <> "" -> needsCategory (writeData d existing) = false.
Proof.
  intros Hcat. unfold needsCategory.
  assert (Hrow : Listing.ai_category_v1 (writeData d existing)
                 = Some (DbData.ai_category_v1 d)) by now destruct existing.
  rewrite Hrow. now destruct (DbData.ai_category_v1 d).
Qed.

Section ImportMore.
Context `{Host}.


(** One document, seen from the row stored under [k]. *)
Lemma importItem_lookup (r : Run) (item : Raw.item) (k : string) :
  listings (db (importItem r item)) !! k = mergeItem k (listings (db r) !! k) item.
Proof.
  unfold importItem, mergeItem, itemKey. cbn [buildListing ListingData.id].
  destruct (Raw.id item) as [[|c s]|]; try reflexivity.
  cbn [bump db]. destruct (String.eqb (String c s) k) eqn:Hk.
  - apply String.eqb_eq in Hk. subst k.
    destruct (listings (db r) !! String c s); cbn [db putListing listings writeData];
      now rewrite lookup_insert_eq.
  - apply String.eqb_neq in Hk.
    destruct (listings (db r) !! String c s); cbn [db putListing listings];
      now rewrite lookup_insert_ne.
Qed.

Lemma importItems_lookup (items : list Raw.item) :
  forall (r : Run) (k : string),
    listings (db (fold_left importItem items r)) !! k =
    fold_left (mergeItem k) items (listings (db r) !! k).
Proof.
  induction items as [|item items IH]; intros r k; [reflexivity|].
  cbn [fold_left]. now rewrite IH, importItem_lookup.
Qed.

Lemma importListings_lookup (items : list Raw.item) (d : Database) (k : string) :
  listings (db (importListings items d)) !! k =
  fold_left (mergeItem k) items (listings d !! k).
Proof. unfold importListings. now rewrite importItems_lookup. Qed.

Lemma mergeItem_other (k : string) (row : option Listing.t) (item : Raw.item) :
  itemKey item <> Some k -> mergeItem k row item = row.
Proof.
  unfold mergeItem. destruct (itemKey item) as [key|]; [|reflexivity].
  intros Hne. destruct (String.eqb key k) eqn:Hk; [|reflexivity].
  apply String.eqb_eq in Hk. congruence.
Qed.

Lemma mergeItem_same (k : string) (row : option Listing.t) (item : Raw.item) :
  itemKey item = Some k ->
  mergeItem k row item = Some (writeData (buildDbData item k) row).
Proof. unfold mergeItem. intros ->. now rewrite String.eqb_refl. Qed.

Lemma idsOf_cons (item : Raw.item) (items : list Raw.item) (k : string) :
  k ∈ idsOf (item :: items) <-> itemKey item = Some k \/ k ∈ idsOf items.
Proof.
  unfold idsOf. cbn [omap list_omap]. destruct (itemKey item) as [key|].
  - rewrite elem_of_cons. split; intros [Hk|Hk]; auto; left; congruence.
  - split; [now right | now intros [Hk|Hk]].
Qed.

Lemma mergeItems_other (k : string) (items : list Raw.item) :
  forall row, k ∉ idsOf items -> fold_left (mergeItem k) items row = row.
Proof.
  induction items as [|item items IH]; intros row Hk; [reflexivity|].
  cbn [fold_left]. rewrite idsOf_cons in Hk.
  rewrite mergeItem_other by tauto. apply IH. tauto.
Qed.

(** The documents for [k] among [items] amount to a single write, which
    sets a category. *)
Lemma mergeItems_cases (k : string) (items : list Raw.item) (row : option Listing.t) :
  ((k ∉ idsOf items) /\ fold_left (mergeItem k) items row = row) \/
  (k ∈ idsOf items /\
   exists d, DbData.ai_category_v1 d <> "" /\
     forall row', fold_left (mergeItem k) items row' = Some (writeData d row')).
Proof.
  revert row. induction items as [|item items IH]; intros row.
  - left. split; [apply not_elem_of_nil | reflexivity].
  - cbn [fold_left]. destruct (decide (itemKey item = Some k)) as [Hk|Hk].
    + right. split; [apply idsOf_cons; now left|].
      destruct (IH row) as [[Hout Hsame] | [Hin (d & Hd & Hall)]].
      * exists (buildDbData item k). split.
        -- cbn [buildDbData DbData.ai_category_v1].
           apply determineListingCategory_nonempty.
        -- intros row'. rewrite (mergeItem_same k _ item Hk).
           now apply mergeItems_other.
      * exists (mergeData (buildDbData item k) d). split; [exact Hd|].
        intros row'. rewrite (mergeItem_same k _ item Hk), Hall.
        cbn [writeData]. now rewrite writeData_twice.
    + rewrite (mergeItem_other k _ item Hk).
      destruct (IH row) as [[Hout Hsame] | [Hin (d & Hd & Hall)]].
      * left. split; [rewrite idsOf_cons; tauto | exact Hsame].
      * right. split; [apply idsOf_cons; now right|].
        exists d. split; [exact Hd|].
        intros row'. now rewrite (mergeItem_other k _ item Hk).
Qed.

Lemma importItem_counts (r : Run) (item : Raw.item) :
  let r' := importItem r item in
  let n := length (idsOf [item]) in
  ImportStats.totalProcessed (stats r') = S (ImportStats.totalProcessed (stats r)) /\
  (ImportStats.skippedListings (stats r') + n
    = S (ImportStats.skippedListings (stats r)))%nat /\
  (ImportStats.newListings (stats r') + ImportStats.updatedListings (stats r')
    = ImportStats.newListings (stats r) + ImportStats.updatedListings (stats r) + n)%nat /\
  ImportStats.errors (stats r') = ImportStats.errors (stats r) /\
  length (calls r') = (length (calls r) + 2 * n)%nat /\
  (size (listings (db r')) + ImportStats.newListings (stats r)
    = size (listings (db r)) + ImportStats.newListings (stats r'))%nat.
Proof.
  unfold idsOf, importItem, itemKey. cbn [omap list_omap buildListing ListingData.id].
  destruct (Raw.id item) as [[|c s]|];
    [cbn; repeat split; lia | | cbn; repeat split; lia].
  cbn [bump db].
  destruct (listings (db r) !! String c s) as [existing|] eqn:Hrow;
    cbn [db stats calls putListing listings countUpdated countNew countProcessed
         ImportStats.totalProcessed ImportStats.skippedListings
         ImportStats.newListings ImportStats.updatedListings
         ImportStats.errors length bump];
    rewrite ?length_app; cbn [length].
  - rewrite map_size_insert_Some by (exists existing; exact Hrow). repeat split; lia.
  - rewrite map_size_insert_None by exact Hrow. repeat split; lia.
Qed.

Lemma idsOf_length_cons (item : Raw.item) (items : list Raw.item) :
  length (idsOf (item :: items)) = (length (idsOf [item]) + length (idsOf items))%nat.
Proof. unfold idsOf. cbn [omap list_omap]. now destruct (itemKey item). Qed.

Lemma importItems_counts (items : list Raw.item) :
  forall r : Run,
    let r' := fold_left importItem items r in
    ImportStats.totalProcessed (stats r')
      = (ImportStats.totalProcessed (stats r) + length items)%nat /\
    (ImportStats.skippedListings (stats r') + length (idsOf items)
      = ImportStats.skippedListings (stats r) + length items)%nat /\
    (ImportStats.newListings (stats r') + ImportStats.updatedListings (stats r')
      = ImportStats.newListings (stats r) + ImportStats.updatedListings (stats r)
        + length (idsOf items))%nat /\
    ImportStats.errors (stats r') = ImportStats.errors (stats r) /\
    length (calls r') = (length (calls r) + 2 * length (idsOf items))%nat /\
    (size (listings (db r')) + ImportStats.newListings (stats r)
      = size (listings (db r)) + ImportStats.newListings (stats r'))%nat.
Proof.
  induction items as [|item items IH]; intros r.
  - cbn. repeat split; lia.
  - cbn [fold_left]. cbv zeta in IH |- *.
    destruct (IH (importItem r item)) as (Hp & Hs & Hn & He & Hc & Hz).
    destruct (importItem_counts r item) as (Hp1 & Hs1 & Hn1 & He1 & Hc1 & Hz1).
    rewrite idsOf_length_cons. cbn [length]. repeat split; lia.
Qed.

Lemma importItem_calls (r : Run) (item : Raw.item) :
  lookedUp (calls (importItem r item)) = lookedUp (calls r) ++ idsOf [item] /\
  written (calls (importItem r item)) = written (calls r) ++ idsOf [item].
Proof.
  unfold idsOf, importItem, itemKey. cbn [omap list_omap buildListing ListingData.id].
  destruct (Raw.id item) as [[|c s]|]; cbn [bump calls];
    rewrite ?app_nil_r; try (split; reflexivity).
  unfold lookedUp, written.
  destruct (listings (db (bump countProcessed r)) !! String c s);
    cbn [calls bump]; rewrite !omap_app; split; reflexivity.
Qed.

Lemma importItems_calls (items : list Raw.item) :
  forall r : Run,
    lookedUp (calls (fold_left importItem items r)) = lookedUp (calls r) ++ idsOf items /\
    written (calls (fold_left importItem items r)) = written (calls r) ++ idsOf items.
Proof.
  induction items as [|item items IH]; intros r.
  - cbn. now rewrite !app_nil_r.
  - cbn [fold_left]. destruct (IH (importItem r item)) as [-> ->].
    destruct (importItem_calls r item) as [-> ->].
    rewrite <- !app_assoc.
    assert (Hids : idsOf (item :: items) = idsOf [item] ++ idsOf items)
      by (unfold idsOf; cbn [omap list_omap]; now destruct (itemKey item)).
    now rewrite Hids.
Qed.

End ImportMore.

Section ImportRun.
Context `{Host}.

(** X10. The counters and the calls of one run of [importListings]: every
    document is counted as processed; the documents without an id are the
    skipped ones; every document with an id is counted once, as new or as
    updated, and makes one [findUnique] and one write under its id, in
    the order of the file, and the run makes no other call; and the table
    has grown by the number of listings counted as new. *)
Theorem import_counters (items : list Raw.item) (d : Database) :
  let r := importListings items d in
  let s := stats r in
  ImportStats.totalProcessed s = length items /\
  (ImportStats.skippedListings s + length (idsOf items) = length items)%nat /\
  (ImportStats.newListings s + ImportStats.updatedListings s = length (idsOf items))%nat /\
  (ImportStats.newListings s + ImportStats.updatedListings s
     + ImportStats.skippedListings s = ImportStats.totalProcessed s)%nat /\
  lookedUp (calls r) = idsOf items /\
  written (calls r) = idsOf items /\
  length (calls r) = (2 * length (idsOf items))%nat /\
  size (listings (db r)) = (size (listings d) + ImportStats.newListings s)%nat.
Proof.
  intros r s. unfold s, r, importListings.
  destruct (importItems_counts items
              {| db := d; stats := ImportStats.zero; calls := []; console := [] |})
    as (Hp & Hs & Hn & _ & Hc & Hz).
  destruct (importItems_calls items
              {| db := d; stats := ImportStats.zero; calls := []; console := [] |})
    as [Hlooked Hwritten].
  cbn [stats db calls ImportStats.zero ImportStats.totalProcessed
       ImportStats.skippedListings ImportStats.newListings
       ImportStats.updatedListings length] in Hp, Hs, Hn, Hc, Hz.
  repeat split; try lia; assumption.
Qed.

(** X11. An import touches the rows of its documents and no other: a row
    whose key is the id of no document of the file is afterwards what it
    was, no row is ever removed, and the keys of the table afterwards are
    those it had together with the ids of the documents. *)
Theorem import_touches_only_its_ids (items : list Raw.item) (d : Database) (k : string) :
  let after := listings (db (importListings items d)) in
  (k ∉ idsOf items -> after !! k = listings d !! k) /\
  (is_Some (after !! k) <-> is_Some (listings d !! k) \/ k ∈ idsOf items).
Proof.
  intros after. unfold after. rewrite importListings_lookup.
  destruct (mergeItems_cases k items (listings d !! k))
    as [[Hout Hsame] | [Hin (data & _ & Hall)]].
  - split; [intros _; exact Hsame|]. rewrite Hsame. tauto.
  - split; [tauto|]. rewrite Hall. split; [now right | now eexists].
Qed.

(** X12. Among the documents of a file that have the same id, the last one
    decides the price, the category and the pet flag of the row, whatever
    was stored and whatever the earlier documents said. *)
Theorem last_document_wins (pre post : list Raw.item) (item : Raw.item)
    (d : Database) (k : string) :
  itemKey item = Some k -> k ∉ idsOf post ->
  exists row,
    listings (db (importListings (pre ++ item :: post) d)) !! k = Some row /\
    Listing.id row = k /\
    Listing.price row =
      toFixed2 (Num.div (priceInCents (Raw.listing_price_amount item)) (Num.ofZ 100)) /\
    Listing.ai_category_v1 row =
      Some (determineListingCategory
              (Some (JS.orStr (Raw.redacted_description_text item) ""))
              (fst (extractRooms item))) /\
    Listing.petFriendly row = Some (extractPetFriendly item).
Proof.
  intros Hk Hpost. rewrite importListings_lookup, fold_left_app. cbn [fold_left].
  rewrite (mergeItem_same k _ item Hk), (mergeItems_other k post _ Hpost).
  eexists. split; [reflexivity|].
  destruct (fold_left (mergeItem k) pre (listings d !! k)); repeat split.
Qed.

(** X13. Importing a file a second time changes nothing in the database:
    the table and the price history after the second run are those after
    the first, also when the file holds several documents for one id.
    The property is stated for documents whose date of availability is
    not taken from the clock, which reads differently in the second run
    (the model has one value for every reading of the clock); the columns
    [scrapedAt] and [updatedAt], which the store maintains, are outside
    the model. *)
Theorem reimport_changes_nothing (items : list Raw.item) (d : Database) :
  Forall (fun item => extractAvailableDate item <> Some DateNow) items ->
  db (importListings items (db (importListings items d))) = db (importListings items d).
Proof.
  intros _.
  assert (Hrows : listings (db (importListings items (db (importListings items d))))
                  = listings (db (importListings items d))).
  { apply map_eq. intros k. rewrite !importListings_lookup.
    destruct (mergeItems_cases k items (listings d !! k))
      as [[Hout Hsame] | [Hin (data & _ & Hall)]].
    - now rewrite !Hsame.
    - rewrite !Hall. cbn [writeData]. now rewrite writeData_twice, mergeData_idem. }
  assert (Hhistory : priceHistory (db (importListings items (db (importListings items d))))
                     = priceHistory (db (importListings items d)))
    by now rewrite !importListings_priceHistory.
  destruct (db (importListings items (db (importListings items d)))),
           (db (importListings items d)).
  cbn in Hrows, Hhistory. now subst.
Qed.

(** X14. The importer leaves no row for the classifier: every row it has
    written carries a non-empty category, so that the rows which the
    sweep of the classifier selects after an import are rows that were
    stored before and whose id is the id of no imported document. *)
Theorem imported_rows_are_not_swept (items : list Raw.item) (d : Database)
    (row : Listing.t) :
  row ∈ selectedRows (db (importListings items d)) ->
  exists k, (k ∉ idsOf items) /\ listings d !! k = Some row /\ needsCategory row = true.
Proof.
  intros Hrow. apply list_elem_of_In, filter_In in Hrow as [Hrow Hneeds].
  apply list_elem_of_In, list_elem_of_fmap in Hrow as ([k row'] & -> & Hin).
  apply elem_of_map_to_list in Hin. cbn [snd] in *.
  rewrite importListings_lookup in Hin.
  destruct (mergeItems_cases k items (listings d !! k))
    as [[Hout Hsame] | [_ (data & Hcat & Hall)]].
  - exists k. rewrite Hsame in Hin. now repeat split.
  - rewrite Hall in Hin. injection Hin as <-.
    rewrite (writeData_needs data _ Hcat) in Hneeds. discriminate.
Qed.

End ImportRun.

Lemma import_touches_only_its_ids_witness :
  listings (db (@importListings (sampleHost None) [twoBedroomItem]
                  (sampleDatabase sampleBatch))) !! "L2"
  = listings (sampleDatabase sampleBatch) !! "L2".
Proof.
  apply (@import_touches_only_its_ids (sampleHost None) [twoBedroomItem]
           (sampleDatabase sampleBatch) "L2").
  intros Hin. apply list_elem_of_In in Hin. destruct Hin as [Hin|[]]. discriminate.
Defined.

Lemma last_document_wins_witness :
  exists row,
    listings (db (@importListings (sampleHost None)
                    ([sampleItem (Some "L1") (Some "900")]
                     ++ sampleItem (Some "L1") (Some "1250") :: [twoBedroomItem])
                    (sampleDatabase [halifaxRow]))) !! "L1" = Some row /\
    Listing.id row = "L1" /\
    Listing.price row =
      @toFixed2 (sampleHost None)
        (Num.div (priceInCents (Raw.listing_price_amount
                                  (sampleItem (Some "L1") (Some "1250"))))
           (Num.ofZ 100)) /\
    Listing.ai_category_v1 row =
      Some (determineListingCategory
              (Some (JS.orStr (Raw.redacted_description_text
                                 (sampleItem (Some "L1") (Some "1250"))) ""))
              (fst (extractRooms (sampleItem (Some "L1") (Some "1250"))))) /\
    Listing.petFriendly row =
      Some (extractPetFriendly (sampleItem (Some "L1") (Some "1250"))).
Proof.
  apply (@last_document_wins (sampleHost None)
           [sampleItem (Some "L1") (Some "900")] [twoBedroomItem]
           (sampleItem (Some "L1") (Some "1250")) (sampleDatabase [halifaxRow]) "L1").
  - reflexivity.
  - intros Hin. apply list_elem_of_In in Hin. destruct Hin as [Hin|[]]. discriminate.
Defined.

Lemma reimport_changes_nothing_witness :
  db (@importListings (sampleHost None)
        [twoBedroomItem; sampleItem (Some "L7") (Some "900"); roomInfoOnlyItem]
        (db (@importListings (sampleHost None)
               [twoBedroomItem; sampleItem (Some "L7") (Some "900"); roomInfoOnlyItem]
               (sampleDatabase [halifaxRow]))))
  = db (@importListings (sampleHost None)
          [twoBedroomItem; sampleItem (Some "L7") (Some "900"); roomInfoOnlyItem]
          (sampleDatabase [halifaxRow])).
Proof.
  apply (@reimport_changes_nothing (sampleHost None)
           [twoBedroomItem; sampleItem (Some "L7") (Some "900"); roomInfoOnlyItem]
           (sampleDatabase [halifaxRow])).
  repeat (constructor; [discriminate|]). constructor.
Defined.

Lemma imported_rows_are_not_swept_witness :
  exists k,
    (k ∉ idsOf [twoBedroomItem]) /\
    listings (sampleDatabase sampleBatch) !! k = Some (sampleRow "L1" "900.00" None) /\
    needsCategory (sampleRow "L1" "900.00" None) = true.
Proof.
  apply (@imported_rows_are_not_swept (sampleHost None) [twoBedroomItem]
           (sampleDatabase sampleBatch) (sampleRow "L1" "900.00" None)).
  apply list_elem_of_In. vm_compute.
  (left; reflexivity) || (right; left; reflexivity).
Defined.

Lemma small_count_category (n : Z) :
  1 <= n <= 4 -> In (JS.showZ n +:+ "bdr apartment") VALID_CATEGORIES.
Proof.
  intros Hn.
  assert (Hcases : n = 1 \/ n = 2 \/ n = 3 \/ n = 4) by lia.
  destruct Hcases as [-> | [-> | [-> | ->]]]; apply includesStr_In; reflexivity.
Qed.

(** X15. The categories that the importer can write.  The result of
    [determineListingCategory] is one of nine fixed categories, among
    which [other] and the empty string are not, or it is built from a
    bedroom count that is known and not zero; it is a member of the
    vocabulary of the classifier whenever the count is missing, zero, or
    between 1 and 4.  It need not be one otherwise: a listing of five
    bedrooms is given a category that the classifier would reject. *)
Theorem importer_category_range :
  (forall (description : option string) (bedrooms : option Z),
     let c := determineListingCategory description bedrooms in
     (In c IMPORTER_CATEGORIES \/
      exists n, bedrooms = Some n /\ n <> 0 /\ c = JS.showZ n +:+ "bdr apartment") /\
     (match bedrooms with Some n => 0 <= n <= 4 | None => True end ->
      In c VALID_CATEGORIES)) /\
  ~ In (determineListingCategory (Some "Family home with a garden") (Some 5))
       VALID_CATEGORIES.
Proof.
  split; [|intros Hin; apply includesStr_In in Hin; discriminate].
  intros description bedrooms. unfold determineListingCategory.
  destruct description as [[|ch s]|];
    try (split; [left|intros _]; apply includesStr_In; reflexivity).
  repeat match goal with
         | |- context [if ?b then _ else _] =>
             lazymatch b with
             | truthyZ _ => fail
             | _ => destruct b;
                    [split; [left|intros _]; apply includesStr_In; reflexivity|]
             end
         end.
  destruct bedrooms as [n|]; cbn [truthyZ default].
  - destruct (n =? 0) eqn:Hn; cbn [negb].
    + repeat match goal with
             | |- context [if ?b then _ else _] =>
                 destruct b;
                 [split; [left|intros _]; apply includesStr_In; reflexivity|]
             end.
      split; [left|intros _]; apply includesStr_In; reflexivity.
    + apply Z.eqb_neq in Hn. split.
      * right. now exists n.
      * intros Hrange. apply (small_count_category n). lia.
  - repeat match goal with
           | |- context [if ?b then _ else _] =>
               destruct b;
               [split; [left|intros _]; apply includesStr_In; reflexivity|]
           end.
    split; [left|intros _]; apply includesStr_In; reflexivity.
Qed.

Lemma importer_category_range_witness :
  In (determineListingCategory (Some "Bright flat near campus") (Some 3))
    VALID_CATEGORIES.
Proof.
  apply (proj1 importer_category_range (Some "Bright flat near campus") (Some 3)). lia.
Defined.

(* ===================================================================== *)
(** * Further properties: the files of a run                              *)
(* ===================================================================== *)

Lemma endsWith_suffix (s suffix : string) :
  endsWith s suffix = true <-> exists stem, s = stem +:+ suffix.
Proof.
  split.
  - induction s as [|c s IH]; cbn [endsWith]; intros Hs.
    + rewrite orb_false_r in Hs. apply String.eqb_eq in Hs. now exists "".
    + apply orb_prop in Hs as [Hs|Hs].
      * apply String.eqb_eq in Hs. now exists "".
      * destruct (IH Hs) as [stem ->]. exists (String c stem).
        now rewrite string_app_cons.
  - intros [stem ->]. induction stem as [|c stem IH].
    + rewrite string_app_nil_l. destruct suffix; cbn [endsWith];
        now rewrite String.eqb_refl.
    + rewrite string_app_cons. cbn [endsWith]. rewrite IH. apply orb_true_r.
Qed.

(** An induction principle for directory trees that goes through the
    listings of the directories. *)
Lemma Dirent_nested_ind (P : Dirent -> Prop) :
  (forall name, P (FileEntry name)) ->
  (forall name, P (DirEntry name None)) ->
  (forall name sub, Forall P sub -> P (DirEntry name (Some sub))) ->
  (forall name, P (OtherEntry name)) ->
  forall e, P e.
Proof.
  intros Hfile Hnone Hdir Hother. fix IH 1.
  intros [name | name [sub|] | name]; [apply Hfile | | apply Hnone | apply Hother].
  apply Hdir. induction sub as [|e rest IHrest]; constructor; [apply IH | exact IHrest].
Qed.

Lemma visitEntry_dir (dir name : string) (sub : list Dirent) :
  visitEntry dir (DirEntry name (Some sub)) =
  concat (map (visitEntry (pathJoin dir name)) sub).
Proof.
  cbn [visitEntry]. induction sub as [|e rest IH]; [reflexivity|].
  cbn [map concat]. now rewrite <- IH.
Qed.

Lemma elem_of_visits (dir : string) (entries : list Dirent) (p : string) :
  p ∈ concat (map (visitEntry dir) entries) <->
  exists e, e ∈ entries /\ p ∈ visitEntry dir e.
Proof.
  induction entries as [|e rest IH]; cbn [map concat].
  - split; [intros Hp; now apply elem_of_nil in Hp|].
    intros (e & He & _). now apply elem_of_nil in He.
  - rewrite elem_of_app, IH. split.
    + intros [Hp | (e' & He' & Hp)].
      * exists e. split; [apply list_elem_of_here | exact Hp].
      * exists e'. split; [now apply list_elem_of_further | exact Hp].
    + intros (e' & He' & Hp). apply elem_of_cons in He' as [-> | He'].
      * now left.
      * right. now exists e'.
Qed.

Lemma visitEntry_locates (e : Dirent) :
  forall (dir : string) (entries : list Dirent) (p : string),
    e ∈ entries -> p ∈ visitEntry dir e -> locates dir entries p.
Proof.
  induction e as [name | name | name sub IH | name] using Dirent_nested_ind;
    intros dir entries p He Hp.
  - cbn [visitEntry] in Hp. destruct (endsWith name ".json") eqn:Hjson.
    + apply list_elem_of_In in Hp. destruct Hp as [<- | []].
      now apply locates_file.
    + now apply elem_of_nil in Hp.
  - now apply elem_of_nil in Hp.
  - rewrite visitEntry_dir in Hp. apply elem_of_visits in Hp as (e' & He' & Hp).
    apply (locates_dir dir entries name sub p He).
    rewrite Forall_forall in IH. exact (IH e' He' _ _ _ He' Hp).
  - now apply elem_of_nil in Hp.
Qed.

Lemma locates_visits (dir : string) (entries : list Dirent) (p : string) :
  locates dir entries p -> p ∈ concat (map (visitEntry dir) entries).
Proof.
  induction 1 as [dir entries name He Hjson | dir entries name sub p He Hsub IH].
  - apply elem_of_visits. exists (FileEntry name). split; [exact He|].
    cbn [visitEntry]. rewrite Hjson. apply list_elem_of_here.
  - apply elem_of_visits. exists (DirEntry name (Some sub)). split; [exact He|].
    now rewrite visitEntry_dir.
Qed.

Lemma locates_path (dir : string) (entries : list Dirent) (p : string) :
  locates dir entries p -> exists stem, p = dir +:+ "/" +:+ stem +:+ ".json".
Proof.
  induction 1 as [dir entries name He Hjson | dir entries name sub p He Hsub IH].
  - apply endsWith_suffix in Hjson as [stem ->]. now exists stem.
  - destruct IH as [stem ->]. exists (name +:+ "/" +:+ stem).
    unfold pathJoin. now rewrite <- !string_app_assoc.
Qed.

(** X16. What [findJsonFiles] returns: exactly the paths of the file
    entries whose name ends in [.json] and that are reached through
    directories that can be read.  A directory that cannot be read, and an
    entry that is neither a file nor a directory, contribute nothing and
    do not stop the search; a directory is searched whatever its name.
    Every path returned lies below the directory searched and ends in
    [.json]. *)
Theorem findJsonFiles_finds (directoryPath : string) (entries : list Dirent) (p : string) :
  (p ∈ findJsonFiles directoryPath (Some entries) <-> locates directoryPath entries p) /\
  (p ∈ findJsonFiles directoryPath (Some entries) ->
   exists stem, p = directoryPath +:+ "/" +:+ stem +:+ ".json") /\
  findJsonFiles directoryPath None = [].
Proof.
  assert (Hiff : p ∈ findJsonFiles directoryPath (Some entries)
                 <-> locates directoryPath entries p).
  { cbn [findJsonFiles]. split.
    - intros Hp. apply elem_of_visits in Hp as (e & He & Hp).
      now apply (visitEntry_locates e).
    - apply locates_visits. }
  split; [exact Hiff|]. split; [|reflexivity].
  intros Hp. apply Hiff in Hp. now apply locates_path in Hp.
Qed.

Lemma findJsonFiles_finds_witness :
  exists stem, "/data/2024/a.json" = "/data" +:+ "/" +:+ stem +:+ ".json".
Proof.
  apply (findJsonFiles_finds "/data"
           [FileEntry "notes.txt"; DirEntry "locked" None;
            DirEntry "2024" (Some [FileEntry "a.json"])]
           "/data/2024/a.json").
  vm_compute. apply list_elem_of_here.
Defined.

Ltac stats_eq :=
  repeat match goal with s : ImportStats.t |- _ => destruct s end;
  unfold addStats, errorsOnly, ImportStats.zero, countNew, countUpdated,
    countSkipped, countProcessed;
  cbn; f_equal; lia.

Lemma addStats_assoc (a b c : ImportStats.t) :
  addStats (addStats a b) c = addStats a (addStats b c).
Proof. stats_eq. Qed.

Lemma addStats_zero_l (a : ImportStats.t) : addStats ImportStats.zero a = a.
Proof. stats_eq. Qed.

Lemma addStats_zero_r (a : ImportStats.t) : addStats a ImportStats.zero = a.
Proof. stats_eq. Qed.

Lemma addStats_errors (a b : ImportStats.t) (n m : nat) :
  addStats (addStats a (errorsOnly n)) (addStats b (errorsOnly m)) =
  addStats (addStats a b) (errorsOnly (n + m)).
Proof. stats_eq. Qed.

Section FilesRun.
Context `{Host}.

(** One document in a run that has come some way, against the same
    document in a fresh run on the same database. *)
Lemma importItem_from (r : Run) (item : Raw.item) :
  db (importItem r item) = db (importItem (newRun (db r)) item) /\
  stats (importItem r item) = addStats (stats r) (stats (importItem (newRun (db r)) item)).
Proof.
  unfold importItem. cbn [buildListing ListingData.id].
  destruct (Raw.id item) as [[|c s]|]; cbn [bump db stats newRun];
    try (split; [reflexivity | destruct (stats r); stats_eq]).
  destruct (listings (db r) !! String c s); cbn [db stats];
    (split; [reflexivity | destruct (stats r); stats_eq]).
Qed.

Lemma importItems_from (items : list Raw.item) :
  forall r : Run,
    db (fold_left importItem items r) = db (importListings items (db r)) /\
    stats (fold_left importItem items r) =
      addStats (stats r) (stats (importListings items (db r))).
Proof.
  induction items as [|item items IH]; intros r.
  - split; [reflexivity|]. cbn. now rewrite addStats_zero_r.
  - unfold importListings. cbn [fold_left]. fold (newRun (db r)).
    destruct (importItem_from r item) as [Hdb Hstats].
    destruct (IH (importItem r item)) as [Hdb1 Hstats1].
    destruct (IH (importItem (newRun (db r)) item)) as [Hdb2 Hstats2].
    rewrite Hdb1, Hdb2, Hstats1, Hstats2, Hdb, Hstats. split; [reflexivity|].
    apply addStats_assoc.
Qed.

(** Two lists of documents imported one after the other are their
    concatenation imported at once. *)
Lemma importListings_app (a b : list Raw.item) (d : Database) :
  db (importListings (a ++ b) d) = db (importListings b (db (importListings a d))) /\
  stats (importListings (a ++ b) d) =
    addStats (stats (importListings a d)) (stats (importListings b (db (importListings a d)))).
Proof.
  assert (Hfold : importListings (a ++ b) d
                  = fold_left importItem b (importListings a d))
    by (unfold importListings; apply fold_left_app).
  rewrite Hfold. apply importItems_from.
Qed.

Lemma processFiles_fold (readJson : string -> option (list Raw.item)) (files : list string) :
  forall (d : Database) (total : ImportStats.t),
    fold_left
      (fun acc filePath =>
         let r := importListingsOfFile (readJson filePath) (fst acc) in
         (db r, addStats (snd acc) (stats r)))
      files (d, total) =
    (db (importListings (documentsOf readJson files) d),
     addStats total
       (addStats (stats (importListings (documentsOf readJson files) d))
          (errorsOnly (unreadable readJson files)))).
Proof.
  induction files as [|filePath files IH]; intros d total.
  - cbn. f_equal. stats_eq.
  - cbn [fold_left fst snd]. rewrite IH.
    assert (Hdocs : documentsOf readJson (filePath :: files)
                    = match readJson filePath with
                      | Some items => items
                      | None => []
                      end ++ documentsOf readJson files)
      by (unfold documentsOf; cbn [map concat]; now destruct (readJson filePath)).
    assert (Hbad : unreadable readJson (filePath :: files)
                   = (match readJson filePath with
                      | Some _ => 0
                      | None => 1
                      end + unreadable readJson files)%nat)
      by (unfold unreadable; cbn [List.filter]; now destruct (readJson filePath)).
    rewrite Hdocs, Hbad.
    destruct (readJson filePath) as [items|]; cbn [importListingsOfFile db stats].
    + destruct (importListings_app items (documentsOf readJson files) d) as [-> ->].
      f_equal. rewrite !addStats_assoc. reflexivity.
    + cbn [app]. f_equal. fold (errorsOnly 1).
      set (s := stats (importListings (documentsOf readJson files) d)).
      set (n := unreadable readJson files).
      destruct total, s. unfold addStats, errorsOnly. cbn. f_equal; lia.
Qed.

(** X17. A run over all files is one import of all their documents: the
    database that [processAllFiles] leaves is the one that a single
    [importListings] leaves on the documents of the readable files, taken
    in the order in which the files are found; the totals are the
    counters of that single import, and the total of errors exceeds its
    errors by one for every file that cannot be read.  A file that cannot
    be read does not stop the run. *)
Theorem processAllFiles_is_one_import (readJson : string -> option (list Raw.item))
    (dataDir : string) (entries : option (list Dirent)) (d : Database) :
  let files := findJsonFiles dataDir entries in
  let documents := documentsOf readJson files in
  processAllFiles readJson dataDir entries d =
  (db (importListings documents d),
   addStats (stats (importListings documents d))
     (errorsOnly (unreadable readJson files))).
Proof.
  intros files documents. unfold processAllFiles.
  rewrite processFiles_fold. now rewrite addStats_zero_l.
Qed.

End FilesRun.

(* ===================================================================== *)
(** * Further properties: the prompt                                      *)
(* ===================================================================== *)

Lemma noLineFeed_app (s t : string) :
  noLineFeed (s +:+ t) = noLineFeed s && noLineFeed t.
Proof. apply allChars_app. Qed.

Lemma noLineFeed_concat (sep : string) (l : list string) :
  noLineFeed sep = true -> Forall (fun s => noLineFeed s = true) l ->
  noLineFeed (String.concat sep l) = true.
Proof.
  intros Hsep. induction l as [|x [|y l] IH]; intros Hall; [reflexivity| |].
  - now inversion Hall.
  - change (String.concat sep (x :: y :: l)) with (x +:+ sep +:+ String.concat sep (y :: l)).
    inversion Hall as [|? ? Hx Hrest]; subst.
    now rewrite !noLineFeed_app, Hx, Hsep, IH.
Qed.

Lemma allChars_substring (p : ascii -> bool) (s : string) :
  allChars p s = true -> forall n m, allChars p (String.substring n m s) = true.
Proof.
  induction s as [|c s IH]; intros Hs n m.
  - now destruct n, m.
  - cbn [allChars] in Hs. apply andb_prop in Hs as [Hc Hs].
    destruct n as [|n]; [destruct m as [|m]; [reflexivity|]|]; cbn [String.substring].
    + cbn [allChars]. now rewrite Hc, IH.
    + now apply IH.
Qed.

Lemma noLineFeed_substring (s : string) :
  noLineFeed s = true -> forall n m, noLineFeed (String.substring n m s) = true.
Proof. apply allChars_substring. Qed.

Lemma noLineFeed_digits (s : string) :
  allChars JS.isDigit s = true -> noLineFeed s = true.
Proof.
  apply allChars_impl. intros ch Hch. unfold JS.isDigit, JS.between in Hch.
  apply andb_prop in Hch as [Hlo _]. apply N.leb_le in Hlo.
  apply negb_true_iff, N.eqb_neq. lia.
Qed.

Lemma noLineFeed_showZ (z : Z) : noLineFeed (JS.showZ z) = true.
Proof.
  destruct z as [|p|p]; [reflexivity | |].
  - apply noLineFeed_digits, string_of_uint_digits.
  - cbn [JS.showZ]. unfold noLineFeed. cbn [allChars].
    apply andb_true_intro. split; [reflexivity|].
    apply noLineFeed_digits, string_of_uint_digits.
Qed.

Section PromptFacts.
Context `{Host}.

Lemma formatListing_line (index : nat) (listing : Listing.t) :
  onOneLine listing -> noLineFeed (formatListing index listing) = true.
Proof.
  intros (Htitle & Hprice & Hdesc & Hamenities). unfold formatListing.
  apply noLineFeed_concat; [reflexivity|].
  repeat apply Forall_app_2.
  - constructor; [|constructor]. unfold ordinalPrefix.
    rewrite !noLineFeed_app, noLineFeed_showZ.
    unfold JS.orStr. destruct (Listing.listingTitle listing) as [[|c s]|]; try reflexivity.
    cbn [default] in Htitle. cbn [andb]. exact Htitle.
  - constructor; [|constructor]. now rewrite !noLineFeed_app, Hprice.
  - destruct (Listing.bedrooms listing); constructor; [|constructor].
    now rewrite noLineFeed_app, noLineFeed_showZ.
  - destruct (Listing.bathrooms listing); constructor; [|constructor].
    now rewrite noLineFeed_app, noLineFeed_showZ.
  - destruct (Listing.description listing) as [[|c s]|]; constructor; [|constructor].
    cbn [default] in Hdesc. unfold descriptionExcerpt.
    rewrite !noLineFeed_app, (noLineFeed_substring _ Hdesc).
    now destruct (200 <? String.length (String c s))%nat.
  - destruct (Listing.amenities listing) as [|a amenities] eqn:Ha; constructor; [|constructor].
    rewrite noLineFeed_app. apply andb_true_intro. split; [reflexivity|].
    apply noLineFeed_concat; [reflexivity|]. now apply Forall_take.
Qed.

(** X18. The prompt has one line per listing when no text has a line
    break: for a batch that is not empty and whose titles, rendered
    prices, descriptions and amenities contain no line feed, the lines of
    [formatListingsForPrompt] are as many as the listings, and the line of
    index [i] is the rendering of the listing of index [i], which opens
    with the ordinal [i + 1] followed by a dot and a space. *)
Theorem prompt_has_one_line_per_listing (batch : list Listing.t) :
  batch <> [] -> Forall onOneLine batch ->
  let lines := JS.splitLines (formatListingsForPrompt batch) in
  length lines = length batch /\
  forall i listing, batch !! i = Some listing ->
    lines !! i = Some (formatListing i listing) /\
    exists rest, formatListing i listing = ordinalPrefix i +:+ rest.
Proof.
  intros Hne Hall lines.
  assert (Hlines : lines = imap formatListing batch).
  { unfold lines, formatListingsForPrompt. apply (splitLines_concat (imap formatListing batch)).
    - destruct batch; [congruence | discriminate].
    - apply Forall_lookup_2. intros i line Hi.
      rewrite list_lookup_imap in Hi.
      destruct (batch !! i) as [listing|] eqn:Hl; [|discriminate].
      cbn in Hi. injection Hi as <-. apply formatListing_line.
      rewrite Forall_forall in Hall. apply Hall. now apply list_elem_of_lookup_2 in Hl. }
  rewrite Hlines. split; [apply length_imap|].
  intros i listing Hi. split.
  - now rewrite list_lookup_imap, Hi.
  - unfold formatListing. cbn [app].
    match goal with
    | |- context [String.concat ?sep (?x :: ?y :: ?l)] =>
        change (String.concat sep (x :: y :: l))
          with (x +:+ sep +:+ String.concat sep (y :: l))
    end.
    eexists. now rewrite string_app_assoc.
Qed.

End PromptFacts.

Lemma prompt_has_one_line_per_listing_witness :
  let lines := JS.splitLines (@formatListingsForPrompt (sampleHost None) sampleBatch) in
  length lines = length sampleBatch /\
  forall i listing, sampleBatch !! i = Some listing ->
    lines !! i = Some (@formatListing (sampleHost None) i listing) /\
    exists rest, @formatListing (sampleHost None) i listing = ordinalPrefix i +:+ rest.
Proof.
  apply (@prompt_has_one_line_per_listing (sampleHost None) sampleBatch).
  - discriminate.
  - repeat constructor.
Defined.

(* ===================================================================== *)
(** * Further properties: the date of availability                        *)
(* ===================================================================== *)

(** What the pattern of the date captures. *)
Lemma matchAvailable_date (label d : string) :
  matchAvailable label = Some d -> isDateText d.
Proof.
  unfold matchAvailable. intros Hm.
  apply re_search_Some in Hm as (s0 & Hm).
  apply re_lit_ci_Some in Hm as (s1 & Hm).
  apply re_plus_Some in Hm as (ws & s2 & Hm).
  apply re_count_Some in Hm as (y & s3 & Hm & Hylen & Hy).
  apply re_char_Some in Hm as (s4 & Hm).
  apply re_count_Some in Hm as (m & s5 & Hm & Hmlen & Hmd).
  apply re_char_Some in Hm as (s6 & Hm).
  apply re_count_Some in Hm as (dd & s7 & Hm & Hdlen & Hdd).
  injection Hm as <-. now exists y, m, dd.
Qed.

Lemma find_labelHas_none (word : string) (fields : list Raw.PdpField) :
  (forall label, label ∈ omap Raw.display_label fields -> JS.includes label word = false) ->
  find (labelHas word) fields = None.
Proof.
  induction fields as [|f fields IH]; intros Hnone; [reflexivity|].
  cbn [find]. cbn [omap list_omap] in Hnone.
  assert (Hf : labelHas word f = false).
  { unfold labelHas. destruct (Raw.display_label f) as [[|c s]|]; try reflexivity.
    apply Hnone. apply list_elem_of_here. }
  rewrite Hf. apply IH. intros label Hl. apply Hnone.
  destruct (Raw.display_label f); [now apply list_elem_of_further | exact Hl].
Qed.

(** X19. The date of availability that the importer extracts.  When it
    comes from a label it is the text of a date of the form
    [dddd/dd/dd], four digits, two digits and two digits between
    slashes, and nothing else of the label; otherwise it is the
    time of the run, or there is none.  A document none of whose labels
    contains [Available] has no date of availability. *)
Theorem available_date_is_well_formed (item : Raw.item) :
  match extractAvailableDate item with
  | Some (DateOf d) => isDateText d
  | Some DateNow | None => True
  end /\
  ((forall label, label ∈ labelsOf item -> JS.includes label "Available" = false) ->
   extractAvailableDate item = None).
Proof.
  unfold extractAvailableDate, labelsOf, pdpFields.
  destruct (Raw.pdp_display_sections item) as [sections|]; [|now split].
  split.
  - assert (Hinv : forall cur,
              match cur with Some (DateOf d) => isDateText d | _ => True end ->
              match fold_left sectionAvailableDate sections cur with
              | Some (DateOf d) => isDateText d
              | _ => True
              end).
    { induction sections as [|sec sections IH]; intros cur Hcur; [exact Hcur|].
      cbn [fold_left]. apply IH. unfold sectionAvailableDate.
      destruct (Raw.pdp_fields sec) as [fields|]; [|exact Hcur].
      destruct (find (labelHas "Available") fields) as [f|]; [|exact Hcur].
      destruct (matchAvailable (default "" (Raw.display_label f))) as [d|] eqn:Hm.
      - now apply matchAvailable_date in Hm.
      - now destruct (JS.includes _ "now"). }
    now apply Hinv.
  - intros Hnone.
    assert (Hfold : forall l, (forall sec, sec ∈ l -> sec ∈ sections) ->
              fold_left sectionAvailableDate l None = None).
    { induction l as [|sec l IH]; intros Hsub; [reflexivity|].
      cbn [fold_left].
      assert (Hsec : sectionAvailableDate None sec = None).
      { unfold sectionAvailableDate.
        destruct (Raw.pdp_fields sec) as [fields|] eqn:Hfields; [|reflexivity].
        rewrite find_labelHas_none; [reflexivity|].
        intros label Hlabel. apply Hnone.
        apply list_elem_of_omap in Hlabel as (f & Hf & Hl).
        apply list_elem_of_omap. exists f. split; [|exact Hl].
        apply list_elem_of_In, in_concat.
        exists fields. split; [|now apply list_elem_of_In].
        apply in_map_iff. exists sec. rewrite Hfields. split; [reflexivity|].
        apply list_elem_of_In, Hsub, list_elem_of_here. }
      rewrite Hsec. apply IH. intros sec' Hin. apply Hsub. now apply list_elem_of_further. }
    now apply Hfold.
Qed.

Lemma available_date_is_well_formed_witness :
  extractAvailableDate (labelledItem ["Parking available"; "Dog friendly"]) = None.
Proof.
  apply (available_date_is_well_formed (labelledItem ["Parking available"; "Dog friendly"])).
  intros label Hlabel. apply list_elem_of_In in Hlabel.
  destruct Hlabel as [<- | [<- | []]]; reflexivity.
Defined.

Example available_date_from_label :
  extractAvailableDate (labelledItem ["Laundry"; "Available  2025/09/01 or later"])
  = Some (DateOf "2025/09/01").
Proof. reflexivity. Qed.

(* ===================================================================== *)
(** * Further properties: the text of the stored price                    *)
(* ===================================================================== *)


Lemma string_length_app (s t : string) :
  String.length (s +:+ t) = (String.length s + String.length t)%nat.
Proof.
  induction s as [|c s IH]; [reflexivity|].
  rewrite string_app_cons. cbn [String.length]. now rewrite IH.
Qed.







Example stored_price_of_a_plain_amount :
  DbData.price (@buildDbData (sampleHost None) (sampleItem (Some "L1") (Some "1250")) "L1")
  = "1250.00".
Proof. vm_compute. reflexivity. Qed.

Example stored_price_of_an_absurd_amount :
  DbData.price (@buildDbData (sampleHost None) (sampleItem (Some "L1") (Some "1e999")) "L1")
  = "Infinity".
Proof. vm_compute. reflexivity. Qed.
